(** * Hypatia engine: asset loading and animated sprites

    A shallow embedding of [hypatia/sprites.py], [hypatia/resources.py]
    and [hypatia/filehandlers.py].  Python integers are [Z], Python
    lists are [list] indexed through [py_getitem] (negative indices
    count from the end, anything else out of range raises
    [IndexError]), dictionaries with string keys are [gmap string],
    and a Python function that may raise returns a [result]. *)

From Stdlib Require Import ZArith Ascii String List Lia.
From stdpp Require Import base option list gmap strings pretty fin_maps.

Local Open Scope Z_scope.

(** ** Python exceptions and the error monad *)

Inductive exn : Type :=
  | IndexError
  | KeyError
  | ZeroDivisionError
  | AttributeError
  | ValueError
  | TypeError
  | UnicodeDecodeError
  | ConfigParserError
  | IOError
  | NameError
  | OverflowError
  | BadWalkabout (failed_name : string).

Inductive result (A : Type) : Type :=
  | Ok (a : A)
  | Raise (e : exn).

Arguments Ok {A} a.
Arguments Raise {A} e.

Definition rbind {A B : Type} (r : result A) (k : A -> result B) : result B :=
  match r with
  | Ok a => k a
  | Raise e => Raise e
  end.

Notation "'let*' x ':=' r 'in' k" := (rbind r (fun x => k))
  (at level 10, x pattern, r at level 200, k at level 200,
   format "'[v' 'let*'  x  ':='  r  'in' '/' k ']'").

Definition is_ok {A : Type} (r : result A) : bool :=
  match r with Ok _ => true | Raise _ => false end.

Definition to_option {A : Type} (r : result A) : option A :=
  match r with Ok a => Some a | Raise _ => None end.

(** [l[i]] for a Python list. *)
Definition py_getitem {A : Type} (l : list A) (i : Z) : result A :=
  let n := Z.of_nat (length l) in
  let j := if i <? 0 then i + n else i in
  if (0 <=? j) && (j <? n) then
    match l !! Z.to_nat j with
    | Some x => Ok x
    | None => Raise IndexError
    end
  else Raise IndexError.

(** ** Surfaces

    A [pygame.Surface] is its size and its pixels, stored row by row:
    pixel [(x, y)] is at position [y * width + x]. *)

Definition Color : Type := (Z * Z * Z * Z)%type.

Record Surface : Type := mkSurface {
  surf_width : Z;
  surf_height : Z;
  surf_pixels : list Color
}.

Definition get_size (s : Surface) : Z * Z := (surf_width s, surf_height s).

(** [pygame.Rect(topleft, size)] *)
Record Rect : Type := mkRect {
  rect_topleft : Z * Z;
  rect_size : Z * Z
}.

Definition get_rect (s : Surface) : Rect := mkRect (0, 0) (get_size s).

(** ** Anchors *)

Record Anchor : Type := mkAnchor { anchor_x : Z; anchor_y : Z }.




(** [LabeledSurfaceAnchors._labeled_anchors] *)
Definition LabeledSurfaceAnchors : Type := gmap string Anchor.

(** ** Animation frames *)

Record AnimatedSpriteFrame : Type := mkFrame {
  surface : Surface;
  duration : Z;
  start_time : Z;
  end_time : Z;
  anchors : option LabeledSurfaceAnchors
}.

(** [AnimatedSpriteFrame.__init__]; an anchors object is always truthy,
    so [anchors or None] keeps it. *)
Definition AnimatedSpriteFrame_init (surf : Surface) (start dur : Z)
    (anch : option LabeledSurfaceAnchors) : AnimatedSpriteFrame :=
  {| surface := surf;
     duration := dur;
     start_time := start;
     end_time := start + dur;
     anchors := anch |}.

(** ** Animated sprites *)

Record AnimatedSprite : Type := mkSprite {
  frames : list AnimatedSpriteFrame;
  total_duration : Z;
  active_frame_index : Z;
  animation_position : Z;
  image : Surface;
  rect : Rect
}.

(** [AnimatedSprite.total_duration(frames)], the static method *)
Definition total_duration_of (fs : list AnimatedSpriteFrame) : Z :=
  foldr Z.add 0 (map duration fs).

(** [AnimatedSprite.__init__] *)
Definition AnimatedSprite_init (fs : list AnimatedSpriteFrame)
    : result AnimatedSprite :=
  let* f0 := py_getitem fs 0 in
  Ok {| frames := fs;
        total_duration := total_duration_of fs;
        active_frame_index := 0;
        animation_position := 0;
        image := surface f0;
        rect := get_rect (surface f0) |}.

(** [AnimatedSprite.from_surface_duration_list]: the loop threads
    [running_time] and appends to [frames]. *)
Fixpoint frames_of_surface_durations (running_time : Z)
    (l : list (Surface * Z)) : list AnimatedSpriteFrame :=
  match l with
  | [] => []
  | (surf, dur) :: l' =>
      AnimatedSpriteFrame_init surf running_time dur None
        :: frames_of_surface_durations (running_time + dur) l'
  end.

Definition from_surface_duration_list (l : list (Surface * Z))
    : result AnimatedSprite :=
  AnimatedSprite_init (frames_of_surface_durations 0 l).

(** [AnimatedSprite.active_frame] *)
Definition active_frame (s : AnimatedSprite) : result AnimatedSpriteFrame :=
  py_getitem (frames s) (active_frame_index s).

(** The [while] loop of [AnimatedSprite.update]:

      while (self.animation_position >
             self.frames[self.active_frame_index].end_time):
          self.active_frame_index += 1

    Each test reads [frames[index]], which raises [IndexError] once the
    index reaches [len(frames)]; [fuel] bounds the number of increments
    and [advance_enough_fuel] shows that [len(frames) - index] is always
    enough. *)
Fixpoint advance (fuel : nat) (fs : list AnimatedSpriteFrame)
    (position index : Z) : result Z :=
  match py_getitem fs index with
  | Raise e => Raise e
  | Ok f =>
      if position >? end_time f then
        match fuel with
        | O => Raise IndexError
        | S fuel' => advance fuel' fs position (index + 1)
        end
      else Ok index
  end.

Definition advance_fuel (fs : list AnimatedSpriteFrame) (index : Z) : nat :=
  Z.to_nat (Z.of_nat (length fs) - index).

(** [AnimatedSprite.update]; [delta] is [clock.get_time()].  The
    remainder follows Python: its sign is the sign of the divisor (as
    [Z.modulo]) and a zero divisor raises. *)
Definition update (s : AnimatedSprite) (delta : Z) : result AnimatedSprite :=
  let position := animation_position s + delta in
  let* (position, index) :=
    (if position >=? total_duration s then
       if total_duration s =? 0 then Raise ZeroDivisionError
       else Ok (position mod total_duration s, 0)
     else Ok (position, active_frame_index s)) in
  let* index := advance (advance_fuel (frames s) index) (frames s) position index in
  let* shown := py_getitem (frames s) (index - 1) in
  Ok {| frames := frames s;
        total_duration := total_duration s;
        active_frame_index := index;
        animation_position := position;
        image := surface shown;
        rect := mkRect (0, 0) (get_size (surface shown)) |}.

(** A sequence of ticks, stopping at the first exception. *)
Fixpoint updates (s : AnimatedSprite) (deltas : list Z) : result AnimatedSprite :=
  match deltas with
  | [] => Ok s
  | d :: ds => let* s' := update s d in updates s' ds
  end.

(** ** Well-formed timelines and the cursor invariant *)

(** Frames laid end to end from time [t], each lasting a non-negative
    number of milliseconds. *)
Fixpoint timeline (t : Z) (fs : list AnimatedSpriteFrame) : Prop :=
  match fs with
  | [] => True
  | f :: fs' =>
      start_time f = t /\ 0 <= duration f /\
      end_time f = start_time f + duration f /\
      timeline (end_time f) fs'
  end.

(** What [AnimatedSprite.__init__] establishes and [update] never
    changes, for a timeline that starts at 0 and lasts some time. *)
Definition wf_sprite (s : AnimatedSprite) : Prop :=
  timeline 0 (frames s) /\
  total_duration s = total_duration_of (frames s) /\
  0 < total_duration s.

Definition cursor_inv (s : AnimatedSprite) : Prop :=
  0 <= active_frame_index s < Z.of_nat (length (frames s)) /\
  0 <= animation_position s < total_duration s.

(** The position and the index with which the loop of [update] is
    entered. *)
Definition wrapped_cursor (s : AnimatedSprite) (delta : Z) : Z * Z :=
  if animation_position s + delta >=? total_duration s
  then ((animation_position s + delta) mod total_duration s, 0)
  else (animation_position s + delta, active_frame_index s).

(** ** Sample sprites *)

Definition red : Color := (255, 0, 0, 255).
Definition blue : Color := (0, 0, 255, 255).

Definition small_surface : Surface := mkSurface 1 1 [red].
Definition large_surface : Surface := mkSurface 2 2 [blue; blue; blue; blue].

(** Two frames of 100 ms and 150 ms, as the constructors lay them out. *)
Definition boundary_frames (surf0 surf1 : Surface)
    (anch0 anch1 : option LabeledSurfaceAnchors) : list AnimatedSpriteFrame :=
  [AnimatedSpriteFrame_init surf0 0 100 anch0;
   AnimatedSpriteFrame_init surf1 100 150 anch1].

Definition boundary_sprite : AnimatedSprite :=
  {| frames := boundary_frames small_surface large_surface None None;
     total_duration := 250;
     active_frame_index := 0;
     animation_position := 0;
     image := small_surface;
     rect := get_rect small_surface |}.

(** One frame that lasts no time at all. *)
Definition still_frames : list AnimatedSpriteFrame :=
  [AnimatedSpriteFrame_init small_surface 0 0 None].

(** ** Palette cycling *)

(** [itertools.product(range(0, width), range(0, height))]: the first
    coordinate varies slowest. *)
Definition coordinates (width height : Z) : list (Z * Z) :=
  x ← seqZ 0 width; y ← seqZ 0 height; [(x, y)].

Definition pixel_offset (s : Surface) (coordinate : Z * Z) : result nat :=
  let '(x, y) := coordinate in
  if (0 <=? x) && (x <? surf_width s) && (0 <=? y) && (y <? surf_height s)
  then Ok (Z.to_nat (y * surf_width s + x))
  else Raise IndexError.

(** [Surface.get_at] *)
Definition get_at (s : Surface) (coordinate : Z * Z) : result Color :=
  let* i := pixel_offset s coordinate in
  match surf_pixels s !! i with
  | Some c => Ok c
  | None => Raise IndexError
  end.

(** [Surface.set_at] *)
Definition set_at (s : Surface) (coordinate : Z * Z) (c : Color) : result Surface :=
  let* i := pixel_offset s coordinate in
  if bool_decide (i < length (surf_pixels s))%nat
  then Ok (mkSurface (surf_width s) (surf_height s) (<[i := c]> (surf_pixels s)))
  else Raise IndexError.

(** The first loop of [palette_cycle]: the colours in order of first
    appearance, with the set of colours seen so far. *)
Fixpoint discover_palette (surf : Surface) (coords : list (Z * Z))
    (ordered_color_list : list Color) (seen_colors : gset Color)
    : result (list Color) :=
  match coords with
  | [] => Ok ordered_color_list
  | coordinate :: coords' =>
      let* color := get_at surf coordinate in
      if decide (color ∈ seen_colors)
      then discover_palette surf coords' ordered_color_list seen_colors
      else discover_palette surf coords'
             (ordered_color_list ++ [color]) ({[color]} ∪ seen_colors)
  end.

(** [collections.deque.rotate(1)]: the last element comes first. *)
Definition rotate1 {A : Type} (l : list A) : list A :=
  match last l with
  | Some x => x :: removelast l
  | None => []
  end.

(** [dict(zip(keys, values))]: later pairs override earlier ones. *)
Definition dict_zip (keys values : list Color) : gmap Color Color :=
  foldl (fun d kv => <[kv.1 := kv.2]> d) ∅ (zip keys values).

(** The inner loop: every pixel is replaced through the translation
    table, in place. *)
Fixpoint translate_pixels (color_translations : gmap Color Color)
    (coords : list (Z * Z)) (new_surface : Surface) : result Surface :=
  match coords with
  | [] => Ok new_surface
  | coordinate :: coords' =>
      let* color := get_at new_surface coordinate in
      match color_translations !! color with
      | None => Raise KeyError
      | Some new_color =>
          let* new_surface := set_at new_surface coordinate new_color in
          translate_pixels color_translations coords' new_surface
      end
  end.

(** The outer loop, once per palette entry: state is
    [(new_surface, old_color_list, frames)]. *)
Fixpoint cycle_frames (rotations : nat) (coords : list (Z * Z))
    (new_surface : Surface) (old_color_list : list Color)
    (frames : list (Surface * Z)) : result (list (Surface * Z)) :=
  match rotations with
  | O => Ok frames
  | S rotations' =>
      let new_color_list := rotate1 old_color_list in
      let color_translations := dict_zip old_color_list new_color_list in
      let* new_surface := translate_pixels color_translations coords new_surface in
      cycle_frames rotations' coords new_surface new_color_list
        (frames ++ [(new_surface, 250)])
  end.

(** [palette_cycle] *)
Definition palette_cycle (surf : Surface) : result AnimatedSprite :=
  let '(width, height) := get_size surf in
  let coords := coordinates width height in
  let* ordered_color_list := discover_palette surf coords [] ∅ in
  let* frames :=
    cycle_frames (length ordered_color_list) coords surf ordered_color_list [] in
  from_surface_duration_list frames.

(** ** Python strings and paths

    [str] values are [string]s; the functions below work on their
    characters and follow [str.rfind], [str.split], [posixpath.join],
    [posixpath.split] and [posixpath.splitext]. *)

Definition chars (s : string) : list ascii := list_ascii_of_string s.
Definition str (cs : list ascii) : string := string_of_list_ascii cs.

(** [s.rfind(c)]: the last position of [c], or -1. *)
Fixpoint rfind (c : ascii) (cs : list ascii) : Z :=
  match cs with
  | [] => -1
  | x :: cs' =>
      let r := rfind c cs' in
      if 0 <=? r then r + 1
      else if Ascii.eqb x c then 0 else -1
  end.

(** [s[i:j]] for [0 <= i]. *)
Definition slice (cs : list ascii) (i j : Z) : list ascii :=
  take (Z.to_nat (j - i)) (drop (Z.to_nat i) cs).

(** [genericpath._splitext(p, '/', None, '.')]: the extension starts
    at the last dot of the last path component, unless only dots
    precede it there. *)
Definition splitext (p : string) : string * string :=
  let cs := chars p in
  let sepIndex := rfind "/" cs in
  let dotIndex := rfind "." cs in
  if (dotIndex >? sepIndex) &&
     existsb (fun c => negb (Ascii.eqb c ".")) (slice cs (sepIndex + 1) dotIndex)
  then (str (take (Z.to_nat dotIndex) cs), str (drop (Z.to_nat dotIndex) cs))
  else (p, EmptyString).

(** [posixpath.split(p)[1]]: what follows the last slash. *)
Definition basename (p : string) : string :=
  let cs := chars p in
  str (drop (Z.to_nat (rfind "/" cs + 1)) cs).

(** [posixpath.join(a, b)] *)
Definition path_join (a b : string) : string :=
  match chars b with
  | "/"%char :: _ => b
  | _ =>
      match last (chars a) with
      | None => b
      | Some "/"%char => a +:+ b
      | Some _ => a +:+ "/" +:+ b
      end
  end.

(** The pieces of [s.split(sep)]; [piece] is the current piece, kept
    reversed. *)
Fixpoint split_chars (sep : ascii) (piece : list ascii) (cs : list ascii)
    : list string :=
  match cs with
  | [] => [str (reverse piece)]
  | c :: cs' =>
      if Ascii.eqb c sep
      then str (reverse piece) :: split_chars sep [] cs'
      else split_chars sep (c :: piece) cs'
  end.

(** [s.split(sep)] *)
Definition py_split (sep : ascii) (s : string) : list string :=
  split_chars sep [] (chars s).

(** [s.split(sep, 1)]: split at the first separator only. *)
Fixpoint split_once_chars (sep : ascii) (piece : list ascii) (cs : list ascii)
    : list string :=
  match cs with
  | [] => [str (reverse piece)]
  | c :: cs' =>
      if Ascii.eqb c sep
      then [str (reverse piece); str cs']
      else split_once_chars sep (c :: piece) cs'
  end.

Definition py_split_once (sep : ascii) (s : string) : list string :=
  split_once_chars sep [] (chars s).

(** ** Libraries outside the repository

    What the code asks of the codec, of [ConfigParser], of PIL, of
    [int()], of [float()] and of [pygame.Rect].  [Image_frames] stands
    for [Image.open] followed by the [seek] loop of [frames_from_gif]:
    the frames of the image up to its [EOFError], each converted to a
    surface and paired with its [info['duration']].  [py_float] is
    [float(x)] of an integer, a double, with [None] for its
    [OverflowError].  [pygame_Rect] is [pygame.Rect(topleft, size)] of
    integers: the rectangle keeps C integers, so what it holds need
    not be the numbers it was given, and [None] stands for the
    [TypeError] of an argument that pygame cannot convert. *)
Class PyLib : Type := {
  ConfigParser : Type;
  utf8_decode : string -> result string;
  readfp : string -> result ConfigParser;
  sections : ConfigParser -> list string;
  config_get : ConfigParser -> string -> string -> result string;
  Image_frames : string -> result (list (Surface * Z));
  py_int : string -> result Z;
  Float : Type;
  py_float : Z -> option Float;
  pygame_Rect : Z * Z -> Z * Z -> option Rect
}.

(** The integers of a C [int]. *)
Definition c_int (z : Z) : Prop := - 2 ^ 31 <= z < 2 ^ 31.

(** On C integers [pygame.Rect] keeps what it is given and [float()]
    succeeds; the width and the height of a surface that the image
    library returns are C integers. *)
Definition exact_on_c_ints `{lib : PyLib} : Prop :=
  (forall x y w h,
     c_int x -> c_int y -> c_int w -> c_int h ->
     pygame_Rect (x, y) (w, h) = Some (mkRect (x, y) (w, h))) /\
  (forall z, c_int z -> is_Some (py_float z)) /\
  (forall data pil_gif,
     Image_frames data = Ok pil_gif ->
     Forall (fun sd => c_int (surf_width sd.1) /\ c_int (surf_height sd.1))
       pil_gif).

(** What a [Resource.files] entry can hold: the bytes read from a zip
    archive ([Raw]), the [str] read from a file of a directory or
    decoded by a handler ([Text]), or what another handler made of the
    bytes. *)
Inductive Asset `{lib : PyLib} : Type :=
  | Raw (data : string)
  | BytesIO (data : string)
  | Text (text : string)
  | Config (config : ConfigParser)
  | Sprite (sprite : AnimatedSprite).

Section filehandlers.
Context `{lib : PyLib}.

(** [LabeledSurfaceAnchors.__init__]: the loop over the sections. *)
Fixpoint labeled_anchors (anchors_config : ConfigParser) (frame_index : Z)
    (todo : list string) (labeled : LabeledSurfaceAnchors)
    : result LabeledSurfaceAnchors :=
  match todo with
  | [] => Ok labeled
  | section :: todo' =>
      let* anchor_for_frame :=
        config_get anchors_config section (pretty frame_index) in
      match py_split "," anchor_for_frame with
      | [x; y] =>
          let* x := py_int x in
          let* y := py_int y in
          labeled_anchors anchors_config frame_index todo'
            (<[section := mkAnchor x y]> labeled)
      | _ => Raise ValueError
      end
  end.

Definition LabeledSurfaceAnchors_init (anchors_config : ConfigParser)
    (frame_index : Z) : result LabeledSurfaceAnchors :=
  labeled_anchors anchors_config frame_index (sections anchors_config) ∅.

(** The loop of [AnimatedSprite.frames_from_gif] over the frames PIL
    yields; a configuration object is always truthy. *)
Fixpoint gif_frames (anchors_config : option ConfigParser)
    (frame_index time_position : Z) (pil_gif : list (Surface * Z))
    : result (list AnimatedSpriteFrame) :=
  match pil_gif with
  | [] => Ok []
  | (frame_sprite, duration) :: pil_gif' =>
      let* frame_anchors :=
        match anchors_config with
        | Some config =>
            let* a := LabeledSurfaceAnchors_init config frame_index in
            Ok (Some a)
        | None => Ok None
        end in
      let frame :=
        AnimatedSpriteFrame_init frame_sprite time_position duration
          frame_anchors in
      let* frames :=
        gif_frames anchors_config (frame_index + 1)
          (time_position + duration) pil_gif' in
      Ok (frame :: frames)
  end.

Definition frames_from_gif (gif_bytes : string)
    (anchors_config : option ConfigParser)
    : result (list AnimatedSpriteFrame) :=
  let* pil_gif := Image_frames gif_bytes in
  gif_frames anchors_config 0 0 pil_gif.

(** [AnimatedSprite.from_file] *)
Definition from_file (gif_bytes : string)
    (anchors_config : option ConfigParser) : result AnimatedSprite :=
  let* frames := frames_from_gif gif_bytes anchors_config in
  AnimatedSprite_init frames.

(** [files[file_name]] *)
Definition files_getitem (files : gmap string Asset) (file_name : string)
    : result Asset :=
  match files !! file_name with
  | Some file_data => Ok file_data
  | None => Raise KeyError
  end.

(** [BytesIO(file_data)] needs bytes. *)
Definition as_bytes (file_data : Asset) : result string :=
  match file_data with
  | Raw data => Ok data
  | _ => Raise TypeError
  end.

(** [file_data.decode('utf-8')]: only bytes are decoded here. *)
Definition decode_utf8 (file_data : Asset) : result string :=
  match file_data with
  | Raw data => utf8_decode data
  | _ => Raise AttributeError
  end.

(** [filehandlers.load_png] *)
Definition load_png (files : gmap string Asset) (file_name : string)
    : result Asset :=
  let* file_data := files_getitem files file_name in
  let* data := as_bytes file_data in
  Ok (BytesIO data).

(** [filehandlers.load_txt] *)
Definition load_txt (files : gmap string Asset) (file_name : string)
    : result Asset :=
  let* file_data := files_getitem files file_name in
  let* text := decode_utf8 file_data in
  Ok (Text text).

(** [filehandlers.load_ini] *)
Definition load_ini (files : gmap string Asset) (file_name : string)
    : result ConfigParser :=
  let* file_data := files_getitem files file_name in
  let* file_data := decode_utf8 file_data in
  readfp file_data.

(** The [try] block of [load_gif] that looks for the anchors of the
    GIF: no entry ([KeyError]) gives [None]; an entry that answers
    [sections()] is used as it is; any other entry ([AttributeError])
    is handed to [load_ini]. *)
Definition anchor_config (files : gmap string Asset) (file_name : string)
    : result (option ConfigParser) :=
  let gif_name_no_ext := (splitext file_name).1 in
  let anchor_ini_name := gif_name_no_ext +:+ ".ini" in
  match files !! anchor_ini_name with
  | None => Ok None
  | Some (Config anchor_config_ini) => Ok (Some anchor_config_ini)
  | Some _ =>
      match load_ini files anchor_ini_name with
      | Ok anchor_config_ini => Ok (Some anchor_config_ini)
      | Raise KeyError => Ok None
      | Raise e => Raise e
      end
  end.

(** [filehandlers.load_gif] *)
Definition load_gif (files : gmap string Asset) (file_name : string)
    : result Asset :=
  let* file_data := files_getitem files file_name in
  let* gif_bytesio := as_bytes file_data in
  let* anchor_config_ini := anchor_config files file_name in
  let* sprite := from_file gif_bytesio anchor_config_ini in
  Ok (Sprite sprite).

(** [Resource.FROM_EXTENSION] *)
Definition FROM_EXTENSION (file_extension : string)
    : option (gmap string Asset -> string -> result Asset) :=
  if String.eqb file_extension ".ini" then
    Some (fun files file_name =>
            let* config := load_ini files file_name in Ok (Config config))
  else if String.eqb file_extension ".gif" then Some load_gif
  else if String.eqb file_extension ".png" then Some load_png
  else if String.eqb file_extension ".txt" then Some load_txt
  else None.

(** The body of the second loop of [Resource.__init__]: the new value
    of [files[file_name]]. *)
Definition prepare (files : gmap string Asset) (file_name : string)
    : result Asset :=
  let* file_data := files_getitem files file_name in
  let file_extension := (splitext file_name).2 in
  match FROM_EXTENSION file_extension with
  | Some file_handler => file_handler files file_name
  | None => Ok file_data
  end.

(** The second loop, over the keys in the order the dictionary yields
    them. *)
Fixpoint decode_pass (keys : list string) (files : gmap string Asset)
    : result (gmap string Asset) :=
  match keys with
  | [] => Ok files
  | file_name :: keys' =>
      let* file_data := prepare files file_name in
      decode_pass keys' (<[file_name := file_data]> files)
  end.

(** ** Containers *)

(** The file system as [Resource.__init__] sees it: [os.path.isdir],
    [os.listdir], [open(path).read()], [ZipFile(path).namelist()] and
    [ZipFile(path).open(name).read()].  [open(path)] opens the file in
    text mode, so [open_read] gives the [str] that the platform's codec
    makes of the file, or the exception of the read;
    [zip_open_read] gives bytes. *)
Record FileSystem : Type := {
  isdir : string -> bool;
  listdir : string -> list string;
  open_read : string -> result string;
  zip_namelist : string -> result (list string);
  zip_open_read : string -> string -> result string
}.

(** The first loop, directory branch: every entry is the [str] of a
    text-mode read. *)
Fixpoint read_directory (fs : FileSystem) (path : string)
    (names : list string) (files : gmap string Asset)
    : result (gmap string Asset) :=
  match names with
  | [] => Ok files
  | file_name :: names' =>
      let* file_data := open_read fs (path_join path file_name) in
      read_directory fs path names' (<[file_name := Text file_data]> files)
  end.

(** The first loop, zip branch: only an empty name is skipped. *)
Fixpoint read_zip (fs : FileSystem) (zip_path : string)
    (names : list string) (files : gmap string Asset)
    : result (gmap string Asset) :=
  match names with
  | [] => Ok files
  | file_name :: names' =>
      if String.eqb file_name "" then read_zip fs zip_path names' files
      else
        let* file_data := zip_open_read fs zip_path file_name in
        read_zip fs zip_path names' (<[file_name := Raw file_data]> files)
  end.

(** Step 1 of [Resource.__init__]: the files as they were read. *)
Definition read_container (fs : FileSystem)
    (resource_category resource_name : string)
    : result (gmap string Asset) :=
  let path :=
    path_join (path_join "resources" resource_category) resource_name in
  if isdir fs path then read_directory fs path (listdir fs path) ∅
  else
    let* names := zip_namelist fs (path +:+ ".zip") in
    read_zip fs (path +:+ ".zip") names ∅.

(** [Resource.__init__]; [keys_of] is the order in which [files.keys()]
    yields the keys. *)
Definition Resource_init (fs : FileSystem)
    (keys_of : gmap string Asset -> list string)
    (resource_category resource_name : string)
    : result (gmap string Asset) :=
  let* files := read_container fs resource_category resource_name in
  decode_pass (keys_of files) files.

(** [Resource.get_type]: [None] when nothing matches. *)
Definition get_type (files : gmap string Asset) (file_extension : string)
    : option (gmap string Asset) :=
  let matching_files :=
    filter (fun kv => (splitext kv.1).2 = file_extension) files in
  if decide (matching_files = ∅) then None else Some matching_files.
End filehandlers.

(** ** The decode pass, step by step *)

Section decode_pass_states.
Context `{lib : PyLib}.

Definition is_raw (file_data : Asset) : Prop :=
  exists data, file_data = Raw data.

Definition all_raw (files : gmap string Asset) : Prop :=
  forall file_name file_data,
    files !! file_name = Some file_data -> is_raw file_data.

(** [files] is [raw] with some entries already replaced by what the
    pass makes of them. *)
Definition partly_decoded (raw files : gmap string Asset) : Prop :=
  forall file_name,
    files !! file_name = raw !! file_name \/
    exists file_data,
      prepare raw file_name = Ok file_data /\
      files !! file_name = Some file_data.

(** The keys of [files] that the loop body looks up for [file_name]:
    the entry itself and, for a GIF, the entry of its anchors. *)
Definition entries_read (file_name : string) : list string :=
  if String.eqb (splitext file_name).2 ".gif"
  then [file_name; (splitext file_name).1 +:+ ".ini"]
  else [file_name].

(** The dictionary as each iteration of the pass finds it. *)
Fixpoint pass_states (keys : list string) (files : gmap string Asset)
    : list (string * gmap string Asset) :=
  match keys with
  | [] => []
  | file_name :: keys' =>
      (file_name, files) ::
      match prepare files file_name with
      | Ok file_data => pass_states keys' (<[file_name := file_data]> files)
      | Raise _ => []
      end
  end.

(** The reading of the pass that the decoders only ever see raw
    entries. *)
Definition reads_only_raw (keys : list string) (raw : gmap string Asset)
    : Prop :=
  forall file_name files key file_data,
    (file_name, files) ∈ pass_states keys raw ->
    key ∈ entries_read file_name ->
    files !! key = Some file_data ->
    is_raw file_data.
End decode_pass_states.

(** The order in which a dictionary yields its keys: each key once. *)
Definition key_order `{lib : PyLib} (keys_of : gmap string Asset -> list string) : Prop :=
  forall files,
    NoDup (keys_of files) /\
    forall k, k ∈ keys_of files <-> is_Some (files !! k).

(** One such order. *)
Definition sorted_keys `{lib : PyLib} (files : gmap string Asset) : list string :=
  (map_to_list files).*1.

(** A zip entry whose name ends in a slash is a directory
    ([ZipInfo.is_dir]). *)
Definition is_dir_entry (file_name : string) : bool :=
  match last (chars file_name) with
  | Some "/"%char => true
  | _ => false
  end.

(** ** A sample library and sample containers

    Small stand-ins for the libraries, to run the loaders on concrete
    containers: ASCII for the codec; an INI reader that knows
    [[section]] and [key=value] lines; an image format in which every
    byte is one frame, as wide as its high half and as tall as its low
    half, that lasts as many milliseconds as the byte's code; decimal
    integers. *)

Definition sample_utf8_decode (data : string) : result string :=
  if forallb (fun c => (N_of_ascii c <? 128)%N) (chars data)
  then Ok data else Raise UnicodeDecodeError.

Definition sample_document : Type := list (string * list (string * string)).

Definition add_option (doc : sample_document) (key value : string)
    : result sample_document :=
  match reverse doc with
  | [] => Raise ConfigParserError
  | (section, options) :: before =>
      Ok (reverse before ++ [(section, options ++ [(key, value)])])
  end.

Fixpoint sample_ini_lines (lines : list string) (doc : sample_document)
    : result sample_document :=
  match lines with
  | [] => Ok doc
  | line :: lines' =>
      match chars line with
      | [] => sample_ini_lines lines' doc
      | "["%char :: cs =>
          match reverse cs with
          | "]"%char :: name =>
              sample_ini_lines lines' (doc ++ [(str (reverse name), [])])
          | _ => Raise ConfigParserError
          end
      | _ =>
          match py_split_once "=" line with
          | [key; value] =>
              let* doc := add_option doc key value in
              sample_ini_lines lines' doc
          | _ => Raise ConfigParserError
          end
      end
  end.

Definition sample_readfp (text : string) : result sample_document :=
  sample_ini_lines (py_split "010" text) [].

Definition sample_get (doc : sample_document) (section option : string)
    : result string :=
  match list_find (fun so => so.1 = section) doc with
  | None => Raise ConfigParserError
  | Some (_, (_, options)) =>
      match list_find (fun kv => kv.1 = option) options with
      | None => Raise ConfigParserError
      | Some (_, (_, value)) => Ok value
      end
  end.

Definition sample_frame (c : ascii) : Surface * Z :=
  let n := Z.of_N (N_of_ascii c) in
  let width := n / 16 in
  let height := n mod 16 in
  (mkSurface width height (replicate (Z.to_nat (width * height)) (n, n, n, 255)),
   n).

Definition sample_Image_frames (data : string) : result (list (Surface * Z)) :=
  match chars data with
  | [] => Raise IOError
  | cs => Ok (map sample_frame cs)
  end.

Fixpoint sample_digits (cs : list ascii) (acc : Z) : result Z :=
  match cs with
  | [] => Ok acc
  | c :: cs' =>
      let n := Z.of_N (N_of_ascii c) in
      if (48 <=? n) && (n <=? 57) then sample_digits cs' (10 * acc + (n - 48))
      else Raise ValueError
  end.

Definition sample_int (s : string) : result Z :=
  match chars s with
  | [] => Raise ValueError
  | "-"%char :: (_ :: _) as cs => let* n := sample_digits cs 0 in Ok (- n)
  | cs => sample_digits cs 0
  end.

(** The stand-in for [float()] of an integer: the nearest double, ties
    to even, kept as the integer that the double holds, and no double
    from 2^1024 on.  The one for [pygame.Rect]: arguments that fit a C
    [long] of 64 bits are cut down to a C [int] of 32, others are
    refused. *)
Definition sample_float (x : Z) : option Z :=
  let magnitude := Z.abs x in
  let dropped := Z.log2 magnitude - 52 in
  if dropped <=? 0 then Some x
  else
    let kept := Z.shiftr magnitude dropped in
    let rest := magnitude - Z.shiftl kept dropped in
    let half := Z.shiftl 1 (dropped - 1) in
    let kept :=
      if (half <? rest) || ((rest =? half) && Z.odd kept)
      then kept + 1 else kept in
    let rounded := Z.shiftl kept dropped in
    if rounded <? 2 ^ 1024 then Some (Z.sgn x * rounded) else None.

Definition is_c_long (z : Z) : bool := (- 2 ^ 63 <=? z) && (z <? 2 ^ 63).

Definition to_c_int (z : Z) : Z := (z + 2 ^ 31) mod 2 ^ 32 - 2 ^ 31.

Definition sample_Rect (topleft size : Z * Z) : option Rect :=
  if is_c_long topleft.1 && is_c_long topleft.2 &&
     is_c_long size.1 && is_c_long size.2
  then Some (mkRect (to_c_int topleft.1, to_c_int topleft.2)
               (to_c_int size.1, to_c_int size.2))
  else None.

Definition sample_lib : PyLib :=
  {| ConfigParser := sample_document;
     utf8_decode := sample_utf8_decode;
     readfp := sample_readfp;
     sections := fun doc => doc.*1;
     config_get := sample_get;
     Image_frames := sample_Image_frames;
     py_int := sample_int;
     Float := Z;
     py_float := sample_float;
     pygame_Rect := sample_Rect |}.

(** The text of an anchors file for two frames. *)
Definition hero_ini : string :=
  "[head_anchor]" +:+ String "010" "0=3,4" +:+ String "010" "1=5,6".

(** [resources/walkabouts/hero.zip], with a directory entry. *)
Definition hero_zip : FileSystem :=
  {| isdir := fun _ => false;
     listdir := fun _ => [];
     open_read := fun _ => Raise IOError;
     zip_namelist := fun path =>
       if String.eqb path "resources/walkabouts/hero.zip"
       then Ok ["sub/"; "sub/note.txt"; "only.gif"; "only.ini"]%string
       else Raise IOError;
     zip_open_read := fun path file_name =>
       if String.eqb file_name "sub/" then Ok ""%string
       else if String.eqb file_name "sub/note.txt" then Ok "hello"%string
       else if String.eqb file_name "only.gif" then Ok "dK"%string
       else if String.eqb file_name "only.ini" then Ok hero_ini
       else Raise KeyError |}.

(** The same two files, as the directory [resources/walkabouts/hat] and
    as [resources/walkabouts/hat.zip]; both files are ASCII, so the
    text-mode read of the directory yields the same characters. *)
Definition hat_content (file_name : string) : string :=
  if String.eqb file_name "only.gif" then "dK"%string
  else if String.eqb file_name "only.ini" then hero_ini
  else ""%string.

Definition hat_directory : FileSystem :=
  {| isdir := fun path => String.eqb path "resources/walkabouts/hat";
     listdir := fun _ => ["only.ini"; "only.gif"]%string;
     open_read := fun path =>
       if String.eqb path "resources/walkabouts/hat/only.gif"
       then Ok (hat_content "only.gif")
       else if String.eqb path "resources/walkabouts/hat/only.ini"
       then Ok (hat_content "only.ini")
       else Raise IOError;
     zip_namelist := fun _ => Raise IOError;
     zip_open_read := fun _ _ => Raise IOError |}.

(** [resources/scenes/notes], a directory of two files that no handler
    is registered for. *)
Definition notes_directory : FileSystem :=
  {| isdir := fun path => String.eqb path "resources/scenes/notes";
     listdir := fun _ => ["README"; "map.dat"]%string;
     open_read := fun path =>
       if String.eqb path "resources/scenes/notes/README"
       then Ok "notes"%string
       else if String.eqb path "resources/scenes/notes/map.dat"
       then Ok "0 1 1 0"%string
       else Raise IOError;
     zip_namelist := fun _ => Raise IOError;
     zip_open_read := fun _ _ => Raise IOError |}.

Definition hat_zip : FileSystem :=
  {| isdir := fun _ => false;
     listdir := fun _ => [];
     open_read := fun _ => Raise IOError;
     zip_namelist := fun path =>
       if String.eqb path "resources/walkabouts/hat.zip"
       then Ok ["only.gif"; "only.ini"]%string
       else Raise IOError;
     zip_open_read := fun path file_name =>
       if String.eqb path "resources/walkabouts/hat.zip"
       then Ok (hat_content file_name)
       else Raise IOError |}.

(** The document [hero_ini] parses to, and the dictionary once the pass
    has handled [only.ini]. *)
Definition hat_document : sample_document :=
  [("head_anchor", [("0", "3,4"); ("1", "5,6")])]%string.

Definition hat_after_ini : gmap string (Asset (lib := sample_lib)) :=
  <["only.ini"%string := Config (lib := sample_lib) hat_document]>
    (<["only.gif"%string := Raw "dK"]>
       (<["only.ini"%string := Raw hero_ini]> ∅)).

(** What step 1 of [Resource.__init__] reads from [hero.zip]. *)
Definition hero_raw : gmap string (Asset (lib := sample_lib)) :=
  <["sub/"%string := Raw ""]>
    (<["sub/note.txt"%string := Raw "hello"]>
       (<["only.gif"%string := Raw "dK"]>
          (<["only.ini"%string := Raw hero_ini]> ∅))).

(** The two files of the hat, as read from the archive and as read
    from the directory. *)
Definition hat_raw : gmap string (Asset (lib := sample_lib)) :=
  <["only.gif"%string := Raw "dK"]>
    (<["only.ini"%string := Raw hero_ini]> ∅).

Definition hat_text : gmap string (Asset (lib := sample_lib)) :=
  <["only.gif"%string := Text "dK"]>
    (<["only.ini"%string := Text hero_ini]> ∅).

(** The two files of the notes, which load as they were read. *)
Definition notes_text : gmap string (Asset (lib := sample_lib)) :=
  <["map.dat"%string := Text "0 1 1 0"]>
    (<["README"%string := Text "notes"]> ∅).

(** ** Walkabouts *)

(** [constants.Action] and [constants.Direction] are not part of these
    sources.  The code needs two members of them and attribute lookup
    by name. *)
Class Constants : Type := {
  Action : Type;
  Direction : Type;
  Action_eq_dec :: EqDecision Action;
  Direction_eq_dec :: EqDecision Direction;
  Action_stand : Action;
  Direction_south : Direction;
  getattr_Action : string -> option Action;
  getattr_Direction : string -> option Direction
}.

(** [d[k] = v] on a dictionary kept as an association list. *)
Fixpoint dict_set {K V : Type} `{EqDecision K} (d : list (K * V)) (k : K) (v : V)
    : list (K * V) :=
  match d with
  | [] => [(k, v)]
  | (k', v') :: d' =>
      if decide (k' = k) then (k, v) :: d' else (k', v') :: dict_set d' k v
  end.

(** [d[k]], [None] for [KeyError]. *)
Fixpoint dict_get {K V : Type} `{EqDecision K} (d : list (K * V)) (k : K)
    : option V :=
  match d with
  | [] => None
  | (k', v') :: d' => if decide (k' = k) then Some v' else dict_get d' k
  end.

(** [AnimatedSprite.largest_frame_size]: the loop keeps the first size
    of the largest area seen, starting from [(0, 0)]. *)
Definition largest_frame_size (s : AnimatedSprite) : Z * Z :=
  foldl (fun largest_frame_size frame =>
           let '(largest_x, largest_y) := largest_frame_size in
           let largest_area := largest_x * largest_y in
           let frame_size := get_size (surface frame) in
           let '(frame_x, frame_y) := frame_size in
           let frame_area := frame_x * frame_y in
           if frame_area >? largest_area then frame_size
           else largest_frame_size)
        (0, 0) (frames s).

Definition frame_area (frame : AnimatedSpriteFrame) : Z :=
  surf_width (surface frame) * surf_height (surface frame).

Section walkabout.
Context `{lib : PyLib} `{consts : Constants}.

(** [position] holds integers; [topleft_float] is what [float()]
    makes of them and [rect] what [pygame.Rect] does. *)
Inductive Walkabout : Type :=
  mkWalkabout
    (animations : list (Action * list (Direction * Asset)))
    (actions : list Action)
    (directions : list Direction)
    (size : Z * Z)
    (walkabout_rect : Rect)
    (topleft_float : Float * Float)
    (action : Action)
    (direction : Direction)
    (child_walkabouts : list Walkabout)
    (walkabout_image : Asset)
    (resource : gmap string Asset).

Definition size_of (w : Walkabout) : Z * Z :=
  match w with mkWalkabout _ _ _ size _ _ _ _ _ _ _ => size end.

Definition animations_of (w : Walkabout)
    : list (Action * list (Direction * Asset)) :=
  match w with mkWalkabout animations _ _ _ _ _ _ _ _ _ _ => animations end.

(** The name handling of the loop of [Walkabout.__init__]. *)
Definition parse_sprite_path (sprite_path : string)
    : result (Action * Direction) :=
  let file_name := (splitext sprite_path).1 in
  let file_name := basename file_name in
  if String.eqb file_name "only" then Ok (Action_stand, Direction_south)
  else
    match py_split_once "_" file_name with
    | [action; direction] =>
        match getattr_Direction direction with
        | None => Raise AttributeError
        | Some direction =>
            match getattr_Action action with
            | None => Raise AttributeError
            | Some action => Ok (action, direction)
            end
        end
    | _ => Raise ValueError
    end.

(** [self.animations[action][direction] = animation], with its
    [except KeyError] branch. *)
Definition set_animation (animations : list (Action * list (Direction * Asset)))
    (action : Action) (direction : Direction) (animation : Asset)
    : list (Action * list (Direction * Asset)) :=
  match dict_get animations action with
  | Some by_direction =>
      dict_set animations action (dict_set by_direction direction animation)
  | None => dict_set animations action [(direction, animation)]
  end.

(** The loop over [sprite_files.keys()]; [animation] is the loop
    variable that the code reads again after the loop. *)
Fixpoint load_sprites (sprite_files : gmap string Asset)
    (sprite_paths : list string)
    (animations : list (Action * list (Direction * Asset)))
    (actions : list Action) (directions : list Direction)
    (animation : option Asset)
    : result (list (Action * list (Direction * Asset)) *
              list Action * list Direction * option Asset) :=
  match sprite_paths with
  | [] => Ok (animations, actions, directions, animation)
  | sprite_path :: sprite_paths' =>
      let* (action, direction) := parse_sprite_path sprite_path in
      let* animation := files_getitem sprite_files sprite_path in
      load_sprites sprite_files sprite_paths'
        (set_animation animations action direction animation)
        (actions ++ [action]) (directions ++ [direction]) (Some animation)
  end.

(** [animation.largest_frame_size()] *)
Definition asset_largest_frame_size (animation : option Asset)
    : result (Z * Z) :=
  match animation with
  | None => Raise NameError
  | Some (Sprite sprite) => Ok (largest_frame_size sprite)
  | Some _ => Raise AttributeError
  end.

(** [(float(position[0]), float(position[1]))] *)
Definition topleft_float_of (position : Z * Z) : result (Float * Float) :=
  match py_float position.1 with
  | None => Raise OverflowError
  | Some x =>
      match py_float position.2 with
      | None => Raise OverflowError
      | Some y => Ok (x, y)
      end
  end.

(** [Walkabout.__init__] from the point where the resource is
    loaded; [topleft_float] was computed before. *)
Definition Walkabout_of_resource
    (keys_of : gmap string Asset -> list string)
    (files : gmap string Asset) (directory : string)
    (position : option (Z * Z)) (topleft_float : Float * Float)
    (children : list Walkabout)
    : result Walkabout :=
  let position := default (0, 0) position in
  match get_type files ".gif" with
  | None => Raise (BadWalkabout directory)
  | Some sprite_files =>
      let* (animations, actions, directions, animation) :=
        load_sprites sprite_files (keys_of sprite_files) [] [] [] None in
      let* size := asset_largest_frame_size animation in
      match pygame_Rect position size with
      | None => Raise TypeError
      | Some rect =>
          match dict_get animations Action_stand with
          | None => Raise KeyError
          | Some by_direction =>
              match dict_get by_direction Direction_south with
              | None => Raise KeyError
              | Some image =>
                  Ok (mkWalkabout animations actions directions size
                        rect topleft_float
                        Action_stand Direction_south children image files)
              end
          end
      end
  end.

(** [Walkabout.__init__] *)
Definition Walkabout_init (fs : FileSystem)
    (keys_of : gmap string Asset -> list string)
    (directory : string) (position : option (Z * Z))
    (children : list Walkabout) : result Walkabout :=
  let* topleft_float := topleft_float_of (default (0, 0) position) in
  let* files := Resource_init fs keys_of "walkabouts" directory in
  Walkabout_of_resource keys_of files directory position topleft_float
    children.
End walkabout.

(** Modelled from the spec: the members of [constants.Action] and
    [constants.Direction] that the specification names (actions stand
    and walk; directions north, south, east and west), with attribute
    lookup by member name. *)
Inductive SpecAction : Type := stand | walk.
Inductive SpecDirection : Type := north | south | east | west.

Definition spec_constants : Constants :=
  {| Action := SpecAction;
     Direction := SpecDirection;
     Action_eq_dec := ltac:(unfold EqDecision, Decision; decide equality);
     Direction_eq_dec := ltac:(unfold EqDecision, Decision; decide equality);
     Action_stand := stand;
     Direction_south := south;
     getattr_Action := fun name =>
       if String.eqb name "stand" then Some stand
       else if String.eqb name "walk" then Some walk
       else None;
     getattr_Direction := fun name =>
       if String.eqb name "north" then Some north
       else if String.eqb name "south" then Some south
       else if String.eqb name "east" then Some east
       else if String.eqb name "west" then Some west
       else None |}.



(** [resources/walkabouts/giant.zip]: a 7x7 frame standing, frames of
    3x3 and 4x4 walking. *)
Definition giant_zip : FileSystem :=
  {| isdir := fun _ => false;
     listdir := fun _ => [];
     open_read := fun _ => Raise IOError;
     zip_namelist := fun path =>
       if String.eqb path "resources/walkabouts/giant.zip"
       then Ok ["stand_south.gif"; "walk_south.gif"]%string
       else Raise IOError;
     zip_open_read := fun path file_name =>
       if String.eqb file_name "stand_south.gif" then Ok "w"%string
       else if String.eqb file_name "walk_south.gif" then Ok "3D"%string
       else Raise KeyError |}.

(** An order that yields the keys of [giant.zip] as the archive lists
    them, [stand_south.gif] first. *)
Definition archive_keys `{lib : PyLib} (files : gmap string Asset) : list string :=
  reverse (sorted_keys files).

Definition size_area (size : Z * Z) : Z := size.1 * size.2.

(** The files of the hat once decoded, and the Walkabout built from
    them. *)
Definition hat_after_ini_and_gif : gmap string (Asset (lib := sample_lib)) :=
  Eval vm_compute in
    match decode_pass (lib := sample_lib) ["only.ini"; "only.gif"]%string hat_raw with
    | Ok files => files
    | Raise _ => ∅
    end.

Definition hat_walkabout : Walkabout (lib := sample_lib) (consts := spec_constants) :=
  Eval vm_compute in
    match Walkabout_of_resource (lib := sample_lib) (consts := spec_constants)
            sorted_keys hat_after_ini_and_gif "hat" None (0, 0) [] with
    | Ok w => w
    | Raise _ => mkWalkabout (lib := sample_lib) (consts := spec_constants)
                   [] [] [] (0, 0) (mkRect (0, 0) (0, 0)) (0, 0)
                   stand south [] (Raw "") ∅
    end.

(** ** The frame under a position *)

(** The first frame, in list order, that ends no earlier than
    [position], with its index. *)
Definition frame_at (fs : list AnimatedSpriteFrame) (position : Z)
    : option (nat * AnimatedSpriteFrame) :=
  list_find (fun f => position <= end_time f) fs.

(** The index of the cursor is that of the first frame that ends no
    earlier than the position. *)
Definition cursor_first (s : AnimatedSprite) : Prop :=
  exists f,
    frame_at (frames s) (animation_position s)
      = Some (Z.to_nat (active_frame_index s), f).

(** The two-frame sprite after a tick of 101 ms. *)
Definition boundary_after_101 : AnimatedSprite :=
  {| frames := boundary_frames small_surface large_surface None None;
     total_duration := 250;
     active_frame_index := 1;
     animation_position := 101;
     image := small_surface;
     rect := get_rect small_surface |}.

(** [LabeledSurfaceAnchors.__getitem__] *)
Definition LabeledSurfaceAnchors_getitem (labeled : LabeledSurfaceAnchors)
    (label : string) : result Anchor :=
  match labeled !! label with
  | Some anchor => Ok anchor
  | None => Raise KeyError
  end.

(** The frames of the hat's GIF, with the anchors of its sidecar. *)
Definition hat_frames : list AnimatedSpriteFrame :=
  [AnimatedSpriteFrame_init (sample_frame "d").1 0 100
     (Some (<["head_anchor"%string := mkAnchor 3 4]> ∅));
   AnimatedSpriteFrame_init (sample_frame "K").1 100 75
     (Some (<["head_anchor"%string := mkAnchor 5 6]> ∅))].

(** The files of [hero.zip] once loaded. *)
Definition hero_files : gmap string (Asset (lib := sample_lib)) :=
  Eval vm_compute in
    match decode_pass (lib := sample_lib) (sorted_keys hero_raw) hero_raw with
    | Ok files => files
    | Raise _ => ∅
    end.

(** ** Looking into a Walkabout *)

Section walkabout_access.
Context `{lib : PyLib} `{consts : Constants}.

(** [animations[action][direction]], [None] for [KeyError]. *)
Definition grid_get (animations : list (Action * list (Direction * Asset)))
    (action : Action) (direction : Direction) : option Asset :=
  match dict_get animations action with
  | Some by_direction => dict_get by_direction direction
  | None => None
  end.

(** [Walkabout.__getitem__] *)
Definition Walkabout_getitem (w : Walkabout) (key : Action)
    : result (list (Direction * Asset)) :=
  match dict_get (animations_of w) key with
  | Some by_direction => Ok by_direction
  | None => Raise KeyError
  end.

Definition action_of (w : Walkabout) : Action :=
  match w with mkWalkabout _ _ _ _ _ _ action _ _ _ _ => action end.

Definition direction_of (w : Walkabout) : Direction :=
  match w with mkWalkabout _ _ _ _ _ _ _ direction _ _ _ => direction end.

Definition actions_of (w : Walkabout) : list Action :=
  match w with mkWalkabout _ actions _ _ _ _ _ _ _ _ _ => actions end.

Definition directions_of (w : Walkabout) : list Direction :=
  match w with mkWalkabout _ _ directions _ _ _ _ _ _ _ _ => directions end.

Definition child_walkabouts_of (w : Walkabout) : list Walkabout :=
  match w with mkWalkabout _ _ _ _ _ _ _ _ children _ _ => children end.

Definition image_of (w : Walkabout) : Asset :=
  match w with mkWalkabout _ _ _ _ _ _ _ _ _ image _ => image end.

Definition rect_of (w : Walkabout) : Rect :=
  match w with mkWalkabout _ _ _ _ rect _ _ _ _ _ _ => rect end.

Definition topleft_float_of_walkabout (w : Walkabout) : Float * Float :=
  match w with mkWalkabout _ _ _ _ _ topleft_float _ _ _ _ _ => topleft_float end.

(** [Walkabout.current_animation] *)
Definition current_animation (w : Walkabout) : result Asset :=
  let* by_direction := Walkabout_getitem w (action_of w) in
  match dict_get by_direction (direction_of w) with
  | Some animation => Ok animation
  | None => Raise KeyError
  end.
End walkabout_access.

(** Exceptions and results can be compared. *)
#[global] Instance exn_eq_dec : EqDecision exn.
Proof. solve_decision. Defined.

#[global] Instance result_eq_dec {A : Type} `{EqDecision A} : EqDecision (result A).
Proof. solve_decision. Defined.

(** ** Setting a Walkabout up at run time *)

(** [f] on every element in turn, stopping at the first exception. *)
Definition for_each {A : Type} (f : A -> result unit) : list A -> result unit :=
  fix go (l : list A) : result unit :=
    match l with
    | [] => Ok tt
    | x :: l' => let* _ := f x in go l'
    end.

Section runtime_setup.
Context `{lib : PyLib} `{consts : Constants}.

(** The other members of [constants.Action] and [constants.Direction]
    that [runtime_setup] names. *)
Variable Action_walk : Action.
Variables Direction_north Direction_east Direction_west : Direction.

(** [AnimatedSprite.convert_alpha]: the converted surfaces are not
    kept, so the sprite is left as it was; the call needs an object that
    has the method.  The display is taken to be running. *)
Definition convert_alpha (animation : Asset) : result unit :=
  match animation with
  | Sprite _ => Ok tt
  | _ => Raise AttributeError
  end.

(** The pairs [runtime_setup] visits, in the order of its two loops. *)
Definition setup_cells (animations : list (Action * list (Direction * Asset)))
    : list (Action * Direction) :=
  let '(actions, directions) :=
    if (length animations =? 1)%nat
    then ([Action_stand], [Direction_south])
    else ([Action_walk; Action_stand],
          [Direction_north; Direction_south; Direction_east; Direction_west]) in
  action ← actions; direction ← directions; [(action, direction)].

(** [self.animations[action][direction].convert_alpha()] *)
Definition convert_cell (animations : list (Action * list (Direction * Asset)))
    (cell : Action * Direction) : result unit :=
  match dict_get animations cell.1 with
  | None => Raise KeyError
  | Some by_direction =>
      match dict_get by_direction cell.2 with
      | None => Raise KeyError
      | Some animated_sprite => convert_alpha animated_sprite
      end
  end.

(** [Walkabout.runtime_setup] *)
Fixpoint runtime_setup (w : Walkabout) : result unit :=
  match w with
  | mkWalkabout animations _ _ _ _ _ _ _ child_walkabouts _ _ =>
      let* _ := for_each (convert_cell animations) (setup_cells animations) in
      for_each runtime_setup child_walkabouts
  end.
End runtime_setup.

(** The Walkabout built from [giant.zip]. *)
Definition giant_walkabout : Walkabout (lib := sample_lib) (consts := spec_constants) :=
  Eval vm_compute in
    match Walkabout_init (lib := sample_lib) (consts := spec_constants)
            giant_zip archive_keys "giant" None [] with
    | Ok w => w
    | Raise _ => mkWalkabout (lib := sample_lib) (consts := spec_constants)
                   [] [] [] (0, 0) (mkRect (0, 0) (0, 0)) (0, 0)
                   stand south [] (Raw "") ∅
    end.

(** ** Surfaces with all their pixels *)

Definition well_formed_surface (s : Surface) : Prop :=
  0 < surf_width s /\ 0 < surf_height s /\
  length (surf_pixels s) = Z.to_nat (surf_width s * surf_height s).

(** Where [get_at] and [set_at] find pixel [(x, y)] of a surface of the
    given width. *)
Definition offset_of (width : Z) (coordinate : Z * Z) : nat :=
  Z.to_nat (coordinate.2 * width + coordinate.1).

(** [deque.rotate(1)], [k] times over. *)
Definition rotate_n {A : Type} (k : nat) (l : list A) : list A :=
  Nat.iter k rotate1 l.

#[global] Instance Color_inhabited : Inhabited Color := populate (0, 0, 0, 0).

(** The pixels whose colours are the entries of [colors] at the
    positions [indices]. *)
Definition recolour (colors : list Color) (indices : list nat) : list Color :=
  (fun j => colors !!! j) <$> indices.

(** A 2x2 surface of two colours, and a surface without pixels
    ([pygame.Surface((0, 3))]). *)
Definition striped_surface : Surface := mkSurface 2 2 [red; blue; blue; red].
Definition empty_surface : Surface := mkSurface 0 3 [].

(** * Part II: properties *)

(** Closed equations are settled by evaluation. *)
Ltac vm_refl :=
  lazymatch goal with
  | |- ?x = ?y => exact (@eq_refl _ y <: x = y)
  end.

(** ** Python list indexing *)

Lemma py_getitem_nonneg {A : Type} (l : list A) (i : Z) :
  0 <= i -> py_getitem l i =
    match l !! Z.to_nat i with Some x => Ok x | None => Raise IndexError end.
Proof.
  intros Hi. unfold py_getitem.
  destruct (Z.ltb_spec i 0) as [?|_]; [lia|].
  destruct (Z.leb_spec 0 i) as [_|?]; [|lia]. simpl.
  destruct (Z.ltb_spec i (Z.of_nat (length l))) as [?|Hge]; [done|].
  rewrite lookup_ge_None_2; [done|lia].
Qed.

Lemma py_getitem_in_range {A : Type} (l : list A) (i : Z) :
  - Z.of_nat (length l) <= i < Z.of_nat (length l) ->
  exists x, py_getitem l i = Ok x.
Proof.
  intros Hi. unfold py_getitem.
  set (j := if i <? 0 then i + Z.of_nat (length l) else i).
  assert (0 <= j < Z.of_nat (length l)) as Hj.
  { subst j. destruct (Z.ltb_spec i 0); lia. }
  destruct (Z.leb_spec 0 j); [|lia].
  destruct (Z.ltb_spec j (Z.of_nat (length l))); [|lia]. simpl.
  destruct (lookup_lt_is_Some_2 l (Z.to_nat j)) as [x Hx]; [lia|].
  rewrite Hx. eauto.
Qed.

Lemma py_getitem_Ok_range {A : Type} (l : list A) (i : Z) (x : A) :
  py_getitem l i = Ok x ->
  - Z.of_nat (length l) <= i < Z.of_nat (length l).
Proof.
  unfold py_getitem.
  set (j := if i <? 0 then i + Z.of_nat (length l) else i).
  destruct (Z.leb_spec 0 j); [|discriminate].
  destruct (Z.ltb_spec j (Z.of_nat (length l))); [|discriminate].
  intros _. subst j. destruct (Z.ltb_spec i 0); lia.
Qed.

(** ** The frame-advance loop *)

Lemma advance_enough_fuel (fs : list AnimatedSpriteFrame) (position : Z) :
  forall (n m : nat) (index : Z),
    (advance_fuel fs index <= n)%nat ->
    (advance_fuel fs index <= m)%nat ->
    advance n fs position index = advance m fs position index.
Proof.
  induction n as [|n IH]; intros m index Hn Hm.
  - destruct m as [|m]; [done|]. simpl.
    destruct (py_getitem fs index) as [f|e] eqn:Hf; [|done].
    apply py_getitem_Ok_range in Hf. unfold advance_fuel in Hn. lia.
  - destruct m as [|m]; simpl.
    + destruct (py_getitem fs index) as [f|e] eqn:Hf; [|done].
      apply py_getitem_Ok_range in Hf. unfold advance_fuel in Hm. lia.
    + destruct (py_getitem fs index) as [f|e] eqn:Hf; [|done].
      destruct (position >? end_time f); [|done].
      apply IH; unfold advance_fuel in *; lia.
Qed.

Lemma timeline_last (fs : list AnimatedSpriteFrame) :
  forall t f, timeline t fs -> last fs = Some f ->
    end_time f = t + total_duration_of fs.
Proof.
  induction fs as [|g fs IH]; intros t f Htl Hlast; [done|].
  destruct Htl as (Hs & _ & He & Htl).
  destruct fs as [|h fs].
  - simpl in Hlast. injection Hlast as <-.
    unfold total_duration_of. simpl. lia.
  - change (last (g :: h :: fs)) with (last (h :: fs)) in Hlast.
    rewrite (IH _ _ Htl Hlast).
    unfold total_duration_of. simpl. lia.
Qed.

Lemma timeline_head_end (fs : list AnimatedSpriteFrame) (t : Z) (f : AnimatedSpriteFrame) :
  timeline t fs -> fs !! 0%nat = Some f -> t <= end_time f.
Proof.
  destruct fs as [|g fs]; [done|].
  intros (Hs & Hd & He & _) [= <-]. lia.
Qed.

(** From an index inside the list the loop stops inside the list, at a
    frame that ends no earlier than [position], as soon as the last
    frame ends no earlier than [position]. *)
Lemma advance_in_bounds (fs : list AnimatedSpriteFrame) (position : Z)
    (f_last : AnimatedSpriteFrame) :
  last fs = Some f_last -> position <= end_time f_last ->
  forall (n : nat) (index : Z),
    0 <= index < Z.of_nat (length fs) ->
    (advance_fuel fs index <= n)%nat ->
    exists index' f,
      advance n fs position index = Ok index' /\
      index <= index' < Z.of_nat (length fs) /\
      py_getitem fs index' = Ok f /\ position <= end_time f.
Proof.
  intros Hlast Hpos. induction n as [|n IH]; intros index Hidx Hn.
  - unfold advance_fuel in Hn. lia.
  - simpl. destruct (py_getitem_in_range fs index) as [f Hf]; [lia|].
    rewrite Hf. destruct (Z.gtb_spec position (end_time f)) as [Hgt|Hle].
    + assert (index + 1 < Z.of_nat (length fs)) as Hnext.
      { destruct (Z.eq_dec (index + 1) (Z.of_nat (length fs))) as [Heq|]; [|lia].
        exfalso. rewrite py_getitem_nonneg in Hf by lia.
        rewrite last_lookup in Hlast.
        replace (Z.to_nat index) with (pred (length fs)) in Hf by lia.
        rewrite Hlast in Hf. injection Hf as ->. lia. }
      destruct (IH (index + 1)) as (i' & f' & Hadv & Hi' & Hf' & Hle');
        [lia | unfold advance_fuel in *; lia |].
      exists i', f'. repeat split; [done | lia | lia | done | done].
    + exists index, f. repeat split; [lia | lia | done | lia].
Qed.

(** When the frame under the cursor already ends no earlier than
    [position] the loop does not move. *)
Lemma advance_stay (fs : list AnimatedSpriteFrame) (position index : Z)
    (f : AnimatedSpriteFrame) (n : nat) :
  py_getitem fs index = Ok f -> position <= end_time f ->
  advance n fs position index = Ok index.
Proof.
  intros Hf Hle. destruct n; simpl; rewrite Hf;
    destruct (Z.gtb_spec position (end_time f)); (lia || done).
Qed.

(** ** One tick *)

Lemma wf_sprite_last (s : AnimatedSprite) :
  wf_sprite s -> frames s <> [] ->
  exists f_last, last (frames s) = Some f_last /\
                 end_time f_last = total_duration s.
Proof.
  intros (Htl & Htot & _) Hne.
  destruct (last (frames s)) as [f|] eqn:Hlast.
  - exists f. split; [done|]. rewrite (timeline_last _ _ _ Htl Hlast). lia.
  - apply last_None in Hlast. done.
Qed.

(** On a well-formed sprite whose index is inside the frame list,
    [update] returns for every delta, negative ones included. *)
Lemma update_ok (s : AnimatedSprite) (delta : Z) :
  wf_sprite s ->
  0 <= active_frame_index s < Z.of_nat (length (frames s)) ->
  exists s' f,
    update s delta = Ok s' /\
    frames s' = frames s /\ total_duration s' = total_duration s /\
    animation_position s' = fst (wrapped_cursor s delta) /\
    snd (wrapped_cursor s delta) <= active_frame_index s'
      < Z.of_nat (length (frames s)) /\
    advance (advance_fuel (frames s) (snd (wrapped_cursor s delta)))
      (frames s) (fst (wrapped_cursor s delta))
      (snd (wrapped_cursor s delta)) = Ok (active_frame_index s') /\
    py_getitem (frames s) (active_frame_index s') = Ok f /\
    animation_position s' <= end_time f.
Proof.
  intros Hwf Hidx.
  assert (frames s <> []) as Hne.
  { intros Heq. rewrite Heq in Hidx. simpl in Hidx. lia. }
  destruct (wf_sprite_last s Hwf Hne) as (f_last & Hlast & Hend).
  destruct Hwf as (Htl & Htot & Hpos).
  unfold update, wrapped_cursor.
  set (p := animation_position s + delta).
  assert (exists p' i0,
    (if p >=? total_duration s
     then if total_duration s =? 0 then Raise ZeroDivisionError
          else Ok (p mod total_duration s, 0)
     else Ok (p, active_frame_index s)) = Ok (p', i0) /\
    (if p >=? total_duration s then (p mod total_duration s, 0)
     else (p, active_frame_index s)) = (p', i0) /\
    p' < total_duration s /\ 0 <= i0 < Z.of_nat (length (frames s)))
    as (p' & i0 & -> & -> & Hp' & Hi0).
  { destruct (Z.geb_spec p (total_duration s)) as [Hge|Hlt].
    - destruct (Z.eqb_spec (total_duration s) 0) as [?|_]; [lia|].
      exists (p mod total_duration s), 0. repeat split; try lia.
      apply Z.mod_pos_bound. lia.
    - exists p, (active_frame_index s). repeat split; lia. }
  simpl.
  destruct (advance_in_bounds (frames s) p' f_last Hlast ltac:(lia)
              (advance_fuel (frames s) i0) i0 Hi0 ltac:(lia))
    as (i' & f & Hadv & Hi' & Hf & Hle).
  rewrite Hadv. simpl.
  destruct (py_getitem_in_range (frames s) (i' - 1)) as [shown Hshown]; [lia|].
  rewrite Hshown. simpl.
  eexists _, f. repeat split; simpl; try done; lia.
Qed.

(** The cursor invariant is kept by non-negative deltas. *)
Lemma update_cursor_inv (s : AnimatedSprite) (delta : Z) :
  wf_sprite s -> cursor_inv s -> 0 <= delta ->
  exists s', update s delta = Ok s' /\ wf_sprite s' /\ cursor_inv s'.
Proof.
  intros Hwf [Hidx Hpos] Hdelta.
  destruct (update_ok s delta Hwf Hidx)
    as (s' & f & Hupd & Hfs & Htot & Hp & Hi & _ & _ & _).
  exists s'. split; [done|]. split.
  - unfold wf_sprite. rewrite Hfs, Htot. exact Hwf.
  - unfold cursor_inv. rewrite Hfs, Htot, Hp. split.
    + unfold wrapped_cursor in Hi.
      destruct (animation_position s + delta >=? total_duration s);
        simpl in Hi; lia.
    + unfold wrapped_cursor. destruct Hwf as (_ & _ & Htpos).
      destruct (Z.geb_spec (animation_position s + delta) (total_duration s));
        simpl; [apply Z.mod_pos_bound|]; lia.
Qed.

(** ** A full cycle *)

Lemma sum_nonneg (ds : list Z) :
  Forall (fun d => 0 <= d) ds -> 0 <= foldr Z.add 0 ds.
Proof. induction 1; simpl; lia. Qed.

Lemma sum_zero_all_zero (ds : list Z) :
  Forall (fun d => 0 <= d) ds -> foldr Z.add 0 ds = 0 ->
  Forall (fun d => d = 0) ds.
Proof.
  induction 1 as [|d ds Hd Hds IH]; simpl; intros Hsum; [constructor|].
  pose proof (sum_nonneg ds Hds). constructor; [lia|]. apply IH. lia.
Qed.

Lemma update_to_origin (s : AnimatedSprite) (delta : Z) :
  wf_sprite s ->
  0 <= active_frame_index s < Z.of_nat (length (frames s)) ->
  fst (wrapped_cursor s delta) = 0 -> snd (wrapped_cursor s delta) = 0 ->
  exists s', update s delta = Ok s' /\ wf_sprite s' /\
             frames s' = frames s /\
             active_frame_index s' = 0 /\ animation_position s' = 0.
Proof.
  intros Hwf Hidx Hp Hi.
  destruct (update_ok s delta Hwf Hidx)
    as (s' & f & Hupd & Hfs & Htot & Hpos & _ & Hadv & _ & _).
  exists s'. rewrite Hp, Hi in *.
  assert (exists f0, frames s !! 0%nat = Some f0) as [f0 Hf0].
  { apply lookup_lt_is_Some_2. lia. }
  rewrite (advance_stay _ _ _ f0) in Hadv.
  - injection Hadv as <-. repeat split; try done.
    all: unfold wf_sprite in *; rewrite ?Hfs, ?Htot; tauto.
  - rewrite py_getitem_nonneg by lia.
    change (Z.to_nat 0) with 0%nat. by rewrite Hf0.
  - destruct Hwf as (Htl & _). apply (timeline_head_end _ _ _ Htl Hf0).
Qed.

Lemma updates_zero_stay (ds : list Z) :
  Forall (fun d => d = 0) ds ->
  forall s, wf_sprite s -> frames s <> [] ->
    active_frame_index s = 0 -> animation_position s = 0 ->
    exists s', updates s ds = Ok s' /\ frames s' = frames s /\
               active_frame_index s' = 0 /\ animation_position s' = 0.
Proof.
  induction 1 as [|d ds -> Hds IH]; intros s Hwf Hne Hi Hp; simpl.
  - by exists s.
  - assert (0 < Z.of_nat (length (frames s))) by (destruct (frames s); simpl; [done|lia]).
    destruct (update_to_origin s 0 Hwf) as (s1 & -> & Hwf1 & Hfs1 & Hi1 & Hp1).
    + lia.
    + unfold wrapped_cursor. rewrite Hp. destruct Hwf as (_ & _ & ?).
      destruct (Z.geb_spec (0 + 0) (total_duration s)); [lia|done].
    + unfold wrapped_cursor. rewrite Hp, Hi. destruct Hwf as (_ & _ & ?).
      destruct (Z.geb_spec (0 + 0) (total_duration s)); done.
    + simpl. destruct (IH s1) as (s' & Hs' & Hfs' & ?); try done.
      * by rewrite Hfs1.
      * exists s'. rewrite Hfs' in *. by rewrite <- Hfs1.
Qed.

Lemma updates_full_cycle (ds : list Z) :
  Forall (fun d => 0 <= d) ds ->
  forall s, wf_sprite s -> cursor_inv s ->
    animation_position s + foldr Z.add 0 ds = total_duration s ->
    exists s', updates s ds = Ok s' /\ frames s' = frames s /\
               active_frame_index s' = 0 /\ animation_position s' = 0.
Proof.
  induction 1 as [|d ds Hd Hds IH]; intros s Hwf [Hidx Hpos] Hsum; simpl in *.
  - lia.
  - pose proof (sum_nonneg ds Hds) as Hrest.
    destruct (Z.eq_dec (animation_position s + d) (total_duration s)) as [Heq|Hne].
    + destruct (update_to_origin s d Hwf Hidx) as (s1 & -> & Hwf1 & Hfs1 & Hi1 & Hp1).
      * unfold wrapped_cursor. rewrite Heq.
        destruct (Z.geb_spec (total_duration s) (total_duration s)); [|lia].
        simpl. apply Z_mod_same_full.
      * unfold wrapped_cursor. rewrite Heq.
        destruct (Z.geb_spec (total_duration s) (total_duration s)); [done|lia].
      * simpl. destruct (updates_zero_stay ds) with (s := s1)
          as (s' & Hs' & Hfs' & ?); try done.
        -- apply sum_zero_all_zero; [done|lia].
        -- rewrite Hfs1. intros Hnil. rewrite Hnil in Hidx. simpl in Hidx. lia.
        -- exists s'. by rewrite Hfs', Hfs1.
    + destruct (update_cursor_inv s d Hwf (conj Hidx Hpos) Hd)
        as (s1 & Hupd & Hwf1 & Hinv1).
      destruct (update_ok s d Hwf Hidx)
        as (s1' & f & Hupd' & Hfs1 & Htot1 & Hp1 & _).
      rewrite Hupd in Hupd'. injection Hupd' as <-.
      rewrite Hupd. simpl.
      unfold wrapped_cursor in Hp1.
      destruct (Z.geb_spec (animation_position s + d) (total_duration s));
        [lia|]. simpl in Hp1.
      destruct (IH s1 Hwf1 Hinv1) as (s' & Hs' & Hfs' & ?); [lia|].
      exists s'. by rewrite Hfs', Hfs1.
Qed.

Lemma AnimatedSprite_init_Ok (fs : list AnimatedSpriteFrame) (s : AnimatedSprite) :
  AnimatedSprite_init fs = Ok s ->
  frames s = fs /\ total_duration s = total_duration_of fs /\
  active_frame_index s = 0 /\ animation_position s = 0 /\ fs <> [].
Proof.
  unfold AnimatedSprite_init.
  destruct (py_getitem fs 0) as [f0|e] eqn:Hf0; simpl; [|done].
  intros [= <-]. simpl. repeat split.
  intros ->. discriminate.
Qed.

(** ** Claims about the frame cursor *)


(** The [image] attribute is a different matter: [update] takes it from
    [frames[active_frame_index - 1]], so in the same scenario it holds
    the surface of frame 1, then frame 0, then frame 1 (index 0 - 1
    counts from the end of the list). *)
Lemma boundary_scenario_image (surf0 surf1 : Surface)
    (anch0 anch1 : option LabeledSurfaceAnchors) :
  exists s a b c,
    AnimatedSprite_init (boundary_frames surf0 surf1 anch0 anch1) = Ok s /\
    image s = surf0 /\
    update s 99 = Ok a /\ image a = surf1 /\
    update a 2 = Ok b /\ image b = surf0 /\
    update b 150 = Ok c /\ image c = surf1.
Proof.
  do 4 eexists.
  repeat match goal with |- _ /\ _ => split end; reflexivity.
Qed.

(** C10.  On a sprite whose frames form a timeline from 0 with a
    positive total duration, [update] with a non-negative delta returns
    and keeps [0 <= active_frame_index < len(frames)] and
    [0 <= animation_position < total_duration]; the frame under the
    cursor exists. *)
Theorem update_preserves_cursor_invariant (s : AnimatedSprite) (delta : Z) :
  wf_sprite s -> cursor_inv s -> 0 <= delta ->
  exists s' f,
    update s delta = Ok s' /\
    frames s' = frames s /\ total_duration s' = total_duration s /\
    0 <= active_frame_index s' < Z.of_nat (length (frames s')) /\
    0 <= animation_position s' < total_duration s' /\
    active_frame s' = Ok f.
Proof.
  intros Hwf Hinv Hdelta.
  destruct (update_cursor_inv s delta Hwf Hinv Hdelta) as (s' & Hupd & _ & Hinv').
  destruct (update_ok s delta Hwf (proj1 Hinv))
    as (s1 & f & Hupd1 & Hfs & Htot & _ & _ & _ & Hf & _).
  rewrite Hupd in Hupd1. injection Hupd1 as <-.
  exists s', f. unfold active_frame. rewrite Hfs.
  destruct Hinv' as [Hi Hp]. rewrite Hfs in Hi. tauto.
Qed.

Lemma update_preserves_cursor_invariant_witness :
  exists s' f,
    update boundary_sprite 101 = Ok s' /\
    frames s' = frames boundary_sprite /\
    total_duration s' = total_duration boundary_sprite /\
    0 <= active_frame_index s' < Z.of_nat (length (frames s')) /\
    0 <= animation_position s' < total_duration s' /\
    active_frame s' = Ok f.
Proof.
  apply (update_preserves_cursor_invariant boundary_sprite 101).
  - unfold wf_sprite; simpl; unfold total_duration_of; simpl; lia.
  - unfold cursor_inv; simpl; lia.
  - lia.
Defined.

(** C9.  From the initial state of a sprite whose frames form a
    timeline from 0 with a positive total duration, non-negative deltas
    that add up to the total duration bring the cursor back to index 0,
    elapsed 0, the frame it started on. *)
Theorem full_cycle_returns_to_start (fs : list AnimatedSpriteFrame)
    (s0 : AnimatedSprite) (deltas : list Z) :
  AnimatedSprite_init fs = Ok s0 ->
  timeline 0 fs -> 0 < total_duration s0 ->
  Forall (fun d => 0 <= d) deltas ->
  foldr Z.add 0 deltas = total_duration s0 ->
  exists s',
    updates s0 deltas = Ok s' /\
    active_frame_index s' = 0 /\ animation_position s' = 0 /\
    active_frame s' = active_frame s0.
Proof.
  intros Hinit Htl Hpos Hnonneg Hsum.
  destruct (AnimatedSprite_init_Ok fs s0 Hinit) as (Hfs & Htot & Hi & Hp & Hne).
  assert (wf_sprite s0) as Hwf by (unfold wf_sprite; rewrite Hfs; tauto).
  assert (cursor_inv s0) as Hinv.
  { unfold cursor_inv. rewrite Hi, Hp, Hfs.
    destruct fs; [done|]. simpl. lia. }
  destruct (updates_full_cycle deltas Hnonneg s0 Hwf Hinv)
    as (s' & Hs' & Hfs' & Hi' & Hp'); [lia|].
  exists s'. unfold active_frame. by rewrite Hfs', Hi', Hi.
Qed.

Lemma full_cycle_returns_to_start_witness :
  exists s',
    updates boundary_sprite [99; 2; 0; 149] = Ok s' /\
    active_frame_index s' = 0 /\ animation_position s' = 0 /\
    active_frame s' = active_frame boundary_sprite.
Proof.
  apply (full_cycle_returns_to_start
           (boundary_frames small_surface large_surface None None)).
  - reflexivity.
  - simpl; lia.
  - simpl; lia.
  - repeat constructor; lia.
  - reflexivity.
Defined.

(** C2, as the code has it.  [update] checks nothing: on a well-formed
    sprite it returns for every delta, and a delta that keeps the
    position below the total duration (every negative one does, from a
    position below it) is simply added to [animation_position].
    [AnimatedSprite.__init__] accepts every non-empty frame list,
    whatever its total duration, and a sprite whose total duration is 0
    fails at its first tick that does not go back in time, with
    [ZeroDivisionError]. *)
Theorem update_performs_no_validation (s : AnimatedSprite) (delta : Z)
    (f : AnimatedSpriteFrame) (fs : list AnimatedSpriteFrame) :
  wf_sprite s ->
  0 <= active_frame_index s < Z.of_nat (length (frames s)) ->
  (exists s',
     update s delta = Ok s' /\
     (animation_position s + delta < total_duration s ->
      animation_position s' = animation_position s + delta)) /\
  (exists z,
     AnimatedSprite_init (f :: fs) = Ok z /\
     total_duration z = total_duration_of (f :: fs) /\
     (total_duration z = 0 ->
      forall d, 0 <= d -> update z d = Raise ZeroDivisionError)).
Proof.
  intros Hwf Hidx. split.
  - destruct (update_ok s delta Hwf Hidx) as (s' & _ & Hupd & _ & _ & Hp & _).
    exists s'. split; [done|]. intros Hlt. rewrite Hp. unfold wrapped_cursor.
    destruct (Z.geb_spec (animation_position s + delta) (total_duration s));
      [lia|done].
  - eexists. split; [reflexivity|]. split; [reflexivity|].
    intros Hzero d Hd. unfold update. simpl in *. rewrite Hzero.
    destruct (Z.geb_spec (0 + d) 0); [done|lia].
Qed.

Lemma update_performs_no_validation_witness :
  (exists s',
     update boundary_sprite (-5) = Ok s' /\
     (animation_position boundary_sprite + -5 < total_duration boundary_sprite ->
      animation_position s' = animation_position boundary_sprite + -5)) /\
  (exists z,
     AnimatedSprite_init still_frames = Ok z /\
     total_duration z = total_duration_of still_frames /\
     (total_duration z = 0 ->
      forall d, 0 <= d -> update z d = Raise ZeroDivisionError)).
Proof.
  apply (update_performs_no_validation boundary_sprite (-5)
           (AnimatedSpriteFrame_init small_surface 0 0 None) []).
  - unfold wf_sprite; simpl; unfold total_duration_of; simpl; lia.
  - simpl; lia.
Defined.

(** C2 as stated fails: a tick of -5 is not rejected, it moves the
    cursor of the two-frame sprite to elapsed -5; and a single frame of
    duration 0 is constructed without complaint, total duration 0. *)
Lemma negative_delta_and_zero_duration_accepted :
  (exists s',
     update boundary_sprite (-5) = Ok s' /\
     animation_position boundary_sprite = 0 /\
     animation_position s' = -5) /\
  (exists z,
     AnimatedSprite_init still_frames = Ok z /\ total_duration z = 0).
Proof.
  split.
  - eexists. repeat split; reflexivity.
  - eexists. split; reflexivity.
Qed.

(** ** Palette cycling on two colours *)

Section two_colours.
Variables A B : Color.
Hypothesis distinct : A <> B.

Lemma two_colours_palette :
  discover_palette (mkSurface 2 1 [A; B]) (coordinates 2 1) [] ∅ = Ok [A; B].
Proof using distinct.
  change (coordinates 2 1) with [(0, 0); (1, 0)].
  cbn [discover_palette].
  change (get_at (mkSurface 2 1 [A; B]) (0, 0)) with (Ok A).
  cbn [rbind]. rewrite decide_False by set_solver.
  change (get_at (mkSurface 2 1 [A; B]) (1, 0)) with (Ok B).
  cbn [rbind]. rewrite decide_False; [reflexivity|].
  rewrite elem_of_union, elem_of_singleton, elem_of_empty.
  intros [?|[]]. by apply distinct.
Qed.

(** Both rotations use the same table: the two colours trade places. *)
Lemma two_colours_table_AB (c : Color) :
  dict_zip [A; B] (rotate1 [A; B]) !! c =
    if decide (c = A) then Some B else if decide (c = B) then Some A else None.
Proof using distinct.
  unfold dict_zip, rotate1. cbn [last removelast zip zip_with foldl fst snd].
  repeat case_decide; subst; simplify_map_eq; done.
Qed.

Lemma two_colours_table_BA (c : Color) :
  dict_zip [B; A] (rotate1 [B; A]) !! c =
    if decide (c = A) then Some B else if decide (c = B) then Some A else None.
Proof using distinct.
  unfold dict_zip, rotate1. cbn [last removelast zip zip_with foldl fst snd].
  repeat case_decide; subst; simplify_map_eq; done.
Qed.

Lemma two_colours_first_rotation :
  translate_pixels (dict_zip [A; B] (rotate1 [A; B])) (coordinates 2 1) (mkSurface 2 1 [A; B])
    = Ok (mkSurface 2 1 [B; A]).
Proof using distinct.
  change (coordinates 2 1) with [(0, 0); (1, 0)].
  cbn [translate_pixels].
  change (get_at (mkSurface 2 1 [A; B]) (0, 0)) with (Ok A). cbn [rbind].
  rewrite two_colours_table_AB, decide_True by done.
  change (set_at (mkSurface 2 1 [A; B]) (0, 0) B) with (Ok (mkSurface 2 1 [B; B])).
  cbn [rbind].
  change (get_at (mkSurface 2 1 [B; B]) (1, 0)) with (Ok B). cbn [rbind].
  rewrite two_colours_table_AB, decide_False, decide_True by done.
  reflexivity.
Qed.

Lemma two_colours_second_rotation :
  translate_pixels (dict_zip [B; A] (rotate1 [B; A])) (coordinates 2 1) (mkSurface 2 1 [B; A])
    = Ok (mkSurface 2 1 [A; B]).
Proof using distinct.
  change (coordinates 2 1) with [(0, 0); (1, 0)].
  cbn [translate_pixels].
  change (get_at (mkSurface 2 1 [B; A]) (0, 0)) with (Ok B). cbn [rbind].
  rewrite two_colours_table_BA, decide_False, decide_True by done.
  change (set_at (mkSurface 2 1 [B; A]) (0, 0) A) with (Ok (mkSurface 2 1 [A; A])).
  cbn [rbind].
  change (get_at (mkSurface 2 1 [A; A]) (1, 0)) with (Ok A). cbn [rbind].
  rewrite two_colours_table_BA, decide_True by done.
  reflexivity.
Qed.

Lemma two_colours_frames :
  cycle_frames 2 (coordinates 2 1) (mkSurface 2 1 [A; B]) [A; B] []
    = Ok [((mkSurface 2 1 [B; A]), 250); ((mkSurface 2 1 [A; B]), 250)].
Proof using distinct.
  cbn [cycle_frames].
  rewrite two_colours_first_rotation. cbn [rbind].
  change (rotate1 [A; B]) with [B; A].
  rewrite two_colours_second_rotation. reflexivity.
Qed.
End two_colours.

(** C8.  On a 2x1 surface with two distinct colours [palette_cycle]
    returns a sprite of exactly two frames of 250 ms each (starting at
    0 and 250, total 500).  Frame 0 is the surface with the two colours
    rotated one step, so it differs from the original in every pixel,
    and frame 1, the rotation applied twice, is the original again. *)
Theorem palette_cycle_two_colours (A B : Color) :
  A <> B ->
  exists sprite,
    palette_cycle (mkSurface 2 1 [A; B]) = Ok sprite /\
    frames sprite =
      [AnimatedSpriteFrame_init (mkSurface 2 1 [B; A]) 0 250 None;
       AnimatedSpriteFrame_init (mkSurface 2 1 [A; B]) 250 250 None] /\
    length (frames sprite) = 2%nat /\
    Forall (fun f => duration f = 250) (frames sprite) /\
    total_duration sprite = 500 /\
    get_at (mkSurface 2 1 [B; A]) (0, 0) = Ok B /\
    get_at (mkSurface 2 1 [B; A]) (1, 0) = Ok A /\
    mkSurface 2 1 [B; A] <> mkSurface 2 1 [A; B].
Proof.
  intros Hne. unfold palette_cycle. cbn [get_size surf_width surf_height].
  rewrite two_colours_palette by done. cbn [rbind length].
  rewrite two_colours_frames by done. cbn [rbind].
  eexists. split; [reflexivity|].
  repeat split; try reflexivity.
  - repeat constructor.
  - intros Heq. apply Hne. congruence.
Qed.

Lemma palette_cycle_two_colours_witness :
  exists sprite,
    palette_cycle (mkSurface 2 1 [red; blue]) = Ok sprite /\
    frames sprite =
      [AnimatedSpriteFrame_init (mkSurface 2 1 [blue; red]) 0 250 None;
       AnimatedSpriteFrame_init (mkSurface 2 1 [red; blue]) 250 250 None] /\
    length (frames sprite) = 2%nat /\
    Forall (fun f => duration f = 250) (frames sprite) /\
    total_duration sprite = 500 /\
    get_at (mkSurface 2 1 [blue; red]) (0, 0) = Ok blue /\
    get_at (mkSurface 2 1 [blue; red]) (1, 0) = Ok red /\
    mkSurface 2 1 [blue; red] <> mkSurface 2 1 [red; blue].
Proof.
  apply (palette_cycle_two_colours red blue). discriminate.
Defined.

(** ** Strings and paths *)

Lemma chars_str (cs : list ascii) : chars (str cs) = cs.
Proof. apply list_ascii_of_string_of_list_ascii. Qed.

Lemma str_chars (s : string) : str (chars s) = s.
Proof. apply string_of_list_ascii_of_string. Qed.

Lemma chars_app (s t : string) : chars (s +:+ t) = chars s ++ chars t.
Proof. induction s as [|c s IH]; simpl; [done|]. by rewrite <- IH. Qed.

Lemma rfind_bounds (c : ascii) (cs : list ascii) :
  -1 <= rfind c cs < Z.of_nat (length cs).
Proof.
  induction cs as [|x cs IH]; simpl; [lia|].
  destruct (Z.leb_spec 0 (rfind c cs)); [lia|].
  destruct (Ascii.eqb x c); lia.
Qed.

Lemma rfind_absent (c : ascii) (cs : list ascii) :
  c ∉ cs -> rfind c cs = -1.
Proof.
  induction cs as [|x cs IH]; simpl; [done|].
  intros Hnotin. apply not_elem_of_cons in Hnotin as [Hne Hnotin].
  rewrite IH by done. simpl.
  destruct (Ascii.eqb_spec x c); [congruence|done].
Qed.

Lemma rfind_app_absent (c : ascii) (cs ds : list ascii) :
  c ∉ ds -> rfind c (cs ++ ds) = rfind c cs.
Proof.
  intros Hnotin. induction cs as [|x cs IH]; simpl.
  - by apply rfind_absent.
  - by rewrite IH.
Qed.

Lemma rfind_app_last (c : ascii) (cs ds : list ascii) :
  c ∉ ds -> rfind c (cs ++ c :: ds) = Z.of_nat (length cs).
Proof.
  intros Hnotin. induction cs as [|x cs IH].
  - simpl. rewrite rfind_absent by done. simpl.
    by rewrite Ascii.eqb_refl.
  - cbn [app rfind length]. rewrite IH.
    destruct (Z.leb_spec 0 (Z.of_nat (length cs))); lia.
Qed.

(** Nothing after position [rfind c cs] is a [c]. *)
Lemma rfind_drop_absent (c : ascii) (cs : list ascii) (n : nat) :
  rfind c cs < Z.of_nat n -> c ∉ drop n cs.
Proof.
  revert n. induction cs as [|x cs IH]; intros n Hn.
  - rewrite drop_nil. apply not_elem_of_nil.
  - destruct n as [|n].
    + pose proof (rfind_bounds c (x :: cs)). simpl in *.
      destruct (Z.leb_spec 0 (rfind c cs)); [lia|].
      destruct (Ascii.eqb_spec x c); [lia|].
      pose proof (rfind_bounds c cs).
      assert (rfind c cs < Z.of_nat 0) as Hcs by lia.
      apply IH in Hcs. rewrite drop_0 in Hcs.
      change (drop 0 (x :: cs)) with (x :: cs).
      apply not_elem_of_cons. split; [congruence|done].
    + simpl in *. apply IH.
      destruct (Z.leb_spec 0 (rfind c cs)); [lia|].
      pose proof (rfind_bounds c cs). lia.
Qed.

Lemma rfind_take (c : ascii) (cs : list ascii) (n : nat) :
  rfind c cs < Z.of_nat n -> rfind c (take n cs) = rfind c cs.
Proof.
  intros Hn. rewrite <- (take_drop n cs) at 2.
  rewrite rfind_app_absent; [done|]. by apply rfind_drop_absent.
Qed.

Lemma splitext_ext_inv (file_name : string) :
  (splitext file_name).2 <> EmptyString ->
  rfind "/" (chars file_name) < rfind "." (chars file_name) /\
  existsb (fun c => negb (Ascii.eqb c "."))
    (slice (chars file_name) (rfind "/" (chars file_name) + 1)
       (rfind "." (chars file_name))) = true /\
  (splitext file_name).1 =
    str (take (Z.to_nat (rfind "." (chars file_name))) (chars file_name)).
Proof.
  unfold splitext.
  destruct (Z.gtb_spec (rfind "." (chars file_name)) (rfind "/" (chars file_name)));
    [|done]. simpl.
  destruct (existsb _ _); [|done]. simpl. intros _. by repeat split.
Qed.

Lemma not_in_ini (c : ascii) :
  c <> "i"%char -> c <> "n"%char -> c ∉ chars "ini".
Proof.
  intros Hi Hn Hin. simpl in Hin.
  repeat (apply elem_of_cons in Hin as [Hin|Hin]; [congruence|]).
  by apply elem_of_nil in Hin.
Qed.

(** The extension of [root + ".ini"], where [root] is what [splitext]
    leaves of a name that has an extension. *)
Lemma splitext_sidecar (file_name : string) :
  (splitext file_name).2 <> EmptyString ->
  splitext ((splitext file_name).1 +:+ ".ini") =
    ((splitext file_name).1, ".ini"%string).
Proof.
  intros (Hgt & Hex & ->)%splitext_ext_inv.
  set (cs := chars file_name) in *.
  set (sepIndex := rfind "/" cs) in *. set (dotIndex := rfind "." cs) in *.
  pose proof (rfind_bounds "/" cs) as Hsep. fold sepIndex in Hsep.
  pose proof (rfind_bounds "." cs) as Hdot. fold dotIndex in Hdot.
  set (root := take (Z.to_nat dotIndex) cs).
  assert (length root = Z.to_nat dotIndex) as Hlen.
  { subst root. rewrite length_take. lia. }
  unfold splitext. rewrite chars_app, chars_str.
  change (chars ".ini") with ("."%char :: chars "ini").
  assert (rfind "/" (root ++ "."%char :: chars "ini") = sepIndex) as ->.
  { rewrite rfind_app_absent.
    - subst root. apply rfind_take. fold sepIndex. lia.
    - intros Hin. apply elem_of_cons in Hin as [Hin|Hin]; [discriminate|].
      by apply not_in_ini in Hin. }
  assert (rfind "." (root ++ "."%char :: chars "ini") = dotIndex) as ->.
  { rewrite rfind_app_last; [lia|]. by apply not_in_ini. }
  assert (slice (root ++ "."%char :: chars "ini") (sepIndex + 1) dotIndex
          = slice cs (sepIndex + 1) dotIndex) as ->.
  { unfold slice. rewrite drop_app_le by lia.
    rewrite take_app_le by (rewrite length_drop; lia).
    subst root. apply list_eq. intros j.
    destruct (decide (j < Z.to_nat (dotIndex - (sepIndex + 1)))%nat).
    - rewrite !lookup_take_lt, !lookup_drop, lookup_take_lt by lia. done.
    - rewrite !lookup_take_ge by lia. done. }
  rewrite Hex.
  destruct (Z.gtb_spec dotIndex sepIndex); [|lia]. cbn [andb].
  rewrite <- Hlen, take_app_length, drop_app_length. done.
Qed.

(** ** The decode pass *)

Section decode_pass_properties.
Context `{lib : PyLib}.
Implicit Types raw files : gmap string Asset.

Lemma load_ini_entry files files' (file_name : string) :
  files !! file_name = files' !! file_name ->
  load_ini files file_name = load_ini files' file_name.
Proof. unfold load_ini, files_getitem. by intros ->. Qed.

(** What [load_gif] finds for an entry that the pass has already
    replaced is what it would have made of the entry as it was read:
    [load_ini] succeeds on bytes only, and the pass replaces them by
    the configuration it reads from them. *)
Lemma anchor_config_stable raw files (file_name : string) :
  partly_decoded raw files ->
  (splitext file_name).2 <> EmptyString ->
  anchor_config files file_name = anchor_config raw file_name.
Proof.
  intros Hpart Hext. unfold anchor_config.
  set (ini := (splitext file_name).1 +:+ ".ini").
  destruct (Hpart ini) as [Heq|(v & Hprep & Hv)].
  - rewrite Heq. by rewrite (load_ini_entry files raw ini Heq).
  - rewrite Hv. unfold prepare, files_getitem in Hprep.
    destruct (raw !! ini) as [r|] eqn:Hr; [|done]. simpl in Hprep.
    subst ini. rewrite (splitext_sidecar file_name Hext) in Hprep.
    simpl in Hprep.
    destruct (load_ini raw _) as [c|e] eqn:Hini; [|done].
    simpl in Hprep. injection Hprep as <-.
    unfold load_ini, files_getitem in Hini. rewrite Hr in Hini.
    by destruct r.
Qed.

(** The loop body gives the same value on a partly decoded dictionary
    as on the one that was read, for an entry that the pass has not
    reached. *)
Lemma prepare_stable raw files (file_name : string) :
  partly_decoded raw files ->
  files !! file_name = raw !! file_name ->
  prepare files file_name = prepare raw file_name.
Proof.
  intros Hpart Heq. unfold prepare, files_getitem. rewrite Heq.
  destruct (raw !! file_name) as [r|] eqn:Hr; [|done]. simpl.
  assert (files !! file_name = raw !! file_name) as Heq' by (by rewrite Hr).
  unfold FROM_EXTENSION.
  destruct (String.eqb_spec (splitext file_name).2 ".ini") as [|_].
  { by rewrite (load_ini_entry files raw file_name Heq'). }
  destruct (String.eqb_spec (splitext file_name).2 ".gif") as [Hgif|_].
  { unfold load_gif, files_getitem. rewrite Heq, Hr. simpl.
    rewrite (anchor_config_stable raw files); [done..|].
    by rewrite Hgif. }
  destruct (String.eqb_spec (splitext file_name).2 ".png") as [|_].
  { unfold load_png, files_getitem. by rewrite Heq, Hr. }
  destruct (String.eqb_spec (splitext file_name).2 ".txt") as [|_].
  { unfold load_txt, files_getitem. by rewrite Heq, Hr. }
  done.
Qed.

Lemma partly_decoded_insert raw files (file_name : string) (file_data : Asset) :
  partly_decoded raw files ->
  prepare raw file_name = Ok file_data ->
  partly_decoded raw (<[file_name := file_data]> files).
Proof.
  intros Hpart Hprep k. destruct (decide (file_name = k)) as [<-|Hne].
  - right. exists file_data. by rewrite lookup_insert_eq.
  - rewrite lookup_insert_ne by done. apply Hpart.
Qed.

Lemma partly_decoded_refl raw : partly_decoded raw raw.
Proof. intros k. by left. Qed.

(** The pass does not depend on the order of the keys. *)
Lemma decode_pass_permutation raw (keys keys' : list string) :
  keys ≡ₚ keys' ->
  forall files,
    NoDup keys -> partly_decoded raw files ->
    (forall k, k ∈ keys -> files !! k = raw !! k) ->
    to_option (decode_pass keys files) = to_option (decode_pass keys' files).
Proof.
  intros Hperm.
  induction Hperm as [|x l l' Hperm IH|x y l|l l' l'' Hperm1 IH1 Hperm2 IH2];
    intros files Hnodup Hpart Hkeys.
  - done.
  - simpl. destruct (prepare files x) as [v|e] eqn:Hprep; [|done]. simpl.
    apply NoDup_cons in Hnodup as [Hx Hnodup].
    apply IH; [done| |].
    + apply partly_decoded_insert; [done|].
      rewrite <- Hprep. symmetry. apply prepare_stable; [done..|].
      apply Hkeys. by left.
    + intros k Hk. rewrite lookup_insert_ne by (intros ->; done).
      apply Hkeys. by right.
  - apply NoDup_cons in Hnodup as [Hy Hnodup].
    apply NoDup_cons in Hnodup as [Hx Hnodup].
    assert (x <> y) as Hne.
    { intros ->. apply Hy. by left. }
    assert (prepare files x = prepare raw x) as Hpx.
    { apply prepare_stable; [done..|]. apply Hkeys. right. by left. }
    assert (prepare files y = prepare raw y) as Hpy.
    { apply prepare_stable; [done..|]. apply Hkeys. by left. }
    simpl. rewrite Hpx, Hpy.
    destruct (prepare raw y) as [vy|ey] eqn:Hy'; simpl.
    + rewrite (prepare_stable raw (<[y:=vy]> files) x); [| |].
      * destruct (prepare raw x) as [vx|ex] eqn:Hx'; simpl; [|done].
        rewrite (prepare_stable raw (<[x:=vx]> files) y); [| |].
        -- rewrite Hy'. simpl. by rewrite insert_insert_ne.
        -- by apply partly_decoded_insert.
        -- rewrite lookup_insert_ne by done. apply Hkeys. by left.
      * by apply partly_decoded_insert.
      * rewrite lookup_insert_ne by done. apply Hkeys. right. by left.
    + destruct (prepare raw x) as [vx|ex] eqn:Hx'; simpl; [|done].
      rewrite (prepare_stable raw (<[x:=vx]> files) y); [| |].
      * by rewrite Hy'.
      * by apply partly_decoded_insert.
      * rewrite lookup_insert_ne by done. apply Hkeys. by left.
  - rewrite IH1 by done. apply IH2; [by rewrite <- Hperm1|done|].
    intros k Hk. apply Hkeys. by rewrite Hperm1.
Qed.
End decode_pass_properties.

(** ** Reading a container *)

Section containers.
Context `{lib : PyLib}.
Implicit Types raw files : gmap string Asset.

Lemma key_order_permutation (keys_of keys_of' : gmap string Asset -> list string)
    files :
  key_order keys_of -> key_order keys_of' ->
  keys_of files ≡ₚ keys_of' files.
Proof.
  intros Hk Hk'. destruct (Hk files) as [Hnd Hin].
  destruct (Hk' files) as [Hnd' Hin'].
  apply NoDup_Permutation; [done..|].
  intros k. by rewrite Hin, Hin'.
Qed.

Lemma sorted_keys_order : key_order sorted_keys.
Proof.
  intros files. unfold sorted_keys. split.
  - apply NoDup_fst_map_to_list.
  - intros k. rewrite list_elem_of_fmap. split.
    + intros ([k' v] & -> & Hin). apply elem_of_map_to_list in Hin. by eexists.
    + intros [v Hv]. exists (k, v). split; [done|].
      by apply elem_of_map_to_list.
Qed.

(** In every state of the pass the entry being handled is as it was
    read and the rest is partly decoded. *)
Lemma pass_states_invariant raw (keys : list string) :
  forall files,
    NoDup keys -> partly_decoded raw files ->
    (forall k, k ∈ keys -> files !! k = raw !! k) ->
    forall file_name files',
      (file_name, files') ∈ pass_states keys files ->
      partly_decoded raw files' /\ files' !! file_name = raw !! file_name.
Proof.
  induction keys as [|x keys IH];
    intros files Hnodup Hpart Hkeys file_name files' Hin; simpl in Hin.
  - by apply elem_of_nil in Hin.
  - apply NoDup_cons in Hnodup as [Hx Hnodup].
    apply elem_of_cons in Hin as [[= -> ->]|Hin].
    + split; [done|]. apply Hkeys. by left.
    + destruct (prepare files x) as [v|e] eqn:Hprep;
        [|by apply elem_of_nil in Hin].
      apply (IH (<[x:=v]> files)); [done| | |done].
      * apply partly_decoded_insert; [done|].
        rewrite <- Hprep. symmetry. apply prepare_stable; [done..|].
        apply Hkeys. by left.
      * intros k Hk. rewrite lookup_insert_ne by (intros ->; done).
        apply Hkeys. by right.
Qed.
Lemma archive_keys_order : key_order archive_keys.
Proof.
  intros files. destruct (sorted_keys_order files) as [Hnd Hin].
  unfold archive_keys. split.
  - by rewrite reverse_Permutation.
  - intros k. rewrite elem_of_reverse. apply Hin.
Qed.

(** The directory branch stores the [str] of every listed name. *)
Lemma read_directory_lookup (fs : FileSystem) (path : string)
    (names : list string) :
  forall files raw,
    read_directory fs path names files = Ok raw ->
    forall k,
      (k ∈ names ->
       exists text, open_read fs (path_join path k) = Ok text /\
                    raw !! k = Some (Text text)) /\
      (k ∉ names -> raw !! k = files !! k).
Proof.
  induction names as [|n names IH]; intros files raw Hread k.
  - simpl in Hread. injection Hread as <-. split; [|done].
    intros Hin. by apply elem_of_nil in Hin.
  - cbn [read_directory] in Hread.
    destruct (open_read fs (path_join path n)) as [data|e] eqn:Hopen; [|done].
    cbn [rbind] in Hread. destruct (IH _ _ Hread k) as [Hin Hnotin]. split.
    + intros Hk. destruct (decide (k ∈ names)) as [Hnames|Hnames];
        [by apply Hin|].
      apply elem_of_cons in Hk as [->|Hk]; [|done].
      exists data. split; [done|]. rewrite (Hnotin Hnames).
      apply lookup_insert_eq.
    + intros [Hne Hk]%not_elem_of_cons. rewrite (Hnotin Hk).
      by apply lookup_insert_ne.
Qed.

Lemma read_directory_succeeds (fs : FileSystem) (path : string)
    (names : list string) :
  (forall n, n ∈ names ->
     exists text, open_read fs (path_join path n) = Ok text) ->
  forall files, exists raw, read_directory fs path names files = Ok raw.
Proof.
  induction names as [|n names IH]; intros Hread files; [by eexists|].
  cbn [read_directory]. destruct (Hread n) as [text ->]; [by left|].
  cbn [rbind]. apply IH. intros n' Hn'. apply Hread. by right.
Qed.

(** The zip branch stores the bytes of every name but the empty one,
    directory entries included. *)
Lemma read_zip_lookup (fs : FileSystem) (zip_path : string)
    (names : list string) :
  forall files raw,
    read_zip fs zip_path names files = Ok raw ->
    forall k,
      (k ∈ names -> k <> EmptyString ->
       exists data, zip_open_read fs zip_path k = Ok data /\
                    raw !! k = Some (Raw data)) /\
      (k ∉ names \/ k = EmptyString -> raw !! k = files !! k).
Proof.
  induction names as [|n names IH]; intros files raw Hread k.
  - simpl in Hread. injection Hread as <-. split; [|done].
    intros Hin. by apply elem_of_nil in Hin.
  - cbn [read_zip] in Hread.
    destruct (String.eqb_spec n "") as [->|Hn].
    { destruct (IH _ _ Hread k) as [Hin Hnotin]. split.
      - intros [->|Hk]%elem_of_cons Hne; [done|by apply Hin].
      - intros [Hk| ->]; [|apply Hnotin; by right].
        apply not_elem_of_cons in Hk as [_ Hk]. apply Hnotin. by left. }
    destruct (zip_open_read fs zip_path n) as [data|e] eqn:Hopen; [|done].
    cbn [rbind] in Hread. destruct (IH _ _ Hread k) as [Hin Hnotin]. split.
    + intros Hk Hne. destruct (decide (k ∈ names)) as [Hnames|Hnames];
        [by apply Hin|].
      apply elem_of_cons in Hk as [->|Hk]; [|done].
      exists data. split; [done|]. rewrite Hnotin by (by left).
      apply lookup_insert_eq.
    + intros [Hk| ->].
      * apply not_elem_of_cons in Hk as [Hne Hk].
        rewrite Hnotin by (by left). by apply lookup_insert_ne.
      * rewrite Hnotin by (by right). by apply lookup_insert_ne.
Qed.


Lemma read_zip_all_raw (fs : FileSystem) (zip_path : string)
    (names : list string) :
  forall files raw,
    all_raw files -> read_zip fs zip_path names files = Ok raw ->
    all_raw raw.
Proof.
  induction names as [|n names IH]; intros files raw Hfiles Hread.
  - simpl in Hread. by injection Hread as <-.
  - cbn [read_zip] in Hread.
    destruct (String.eqb n ""); [by apply (IH files)|].
    destruct (zip_open_read fs _ _) as [data|e]; [|done]. cbn [rbind] in Hread.
    apply (IH (<[n:=Raw data]> files) raw); [|done].
    intros k v Hkv. destruct (decide (n = k)) as [->|Hne].
    + rewrite lookup_insert_eq in Hkv. injection Hkv as <-. by eexists.
    + rewrite lookup_insert_ne in Hkv by done. by apply (Hfiles k).
Qed.

Lemma all_raw_empty : all_raw (∅ : gmap string Asset).
Proof. intros k v Hkv. by rewrite lookup_empty in Hkv. Qed.

(** What step 1 leaves in the dictionary: a [str] under every key when
    it read a directory, bytes under every key when it read an
    archive. *)
Lemma read_container_entries (fs : FileSystem)
    (resource_category resource_name : string) raw :
  read_container fs resource_category resource_name = Ok raw ->
  if isdir fs (path_join (path_join "resources" resource_category)
                 resource_name)
  then forall k v, raw !! k = Some v -> exists text, v = Text text
  else all_raw raw.
Proof.
  unfold read_container. destruct (isdir fs _).
  - intros Hread k v Hkv.
    destruct (read_directory_lookup fs _ _ _ _ Hread k) as [Hin Hnotin].
    destruct (decide (k ∈ listdir fs
                (path_join (path_join "resources" resource_category)
                   resource_name))) as [Hk|Hk].
    + destruct (Hin Hk) as (text & _ & Hlook). exists text. congruence.
    + rewrite (Hnotin Hk), lookup_empty in Hkv. done.
  - destruct (zip_namelist fs _) as [names|e]; [|done]. cbn [rbind].
    apply read_zip_all_raw, all_raw_empty.
Qed.

(** A handler that is handed a [str] fails: [BytesIO(str)] raises
    [TypeError] and a [str] has no [decode]. *)
Lemma prepare_text raw (file_name text : string) :
  raw !! file_name = Some (Text text) ->
  match FROM_EXTENSION (splitext file_name).2 with
  | Some _ =>
      exists e, prepare raw file_name = Raise e /\
                (e = TypeError \/ e = AttributeError)
  | None => prepare raw file_name = Ok (Text text)
  end.
Proof.
  intros Hlook. unfold prepare, files_getitem. rewrite Hlook. cbn [rbind].
  unfold FROM_EXTENSION.
  destruct (String.eqb (splitext file_name).2 ".ini").
  { exists AttributeError. unfold load_ini, files_getitem. rewrite Hlook.
    split; [done|by right]. }
  destruct (String.eqb (splitext file_name).2 ".gif").
  { exists TypeError. unfold load_gif, files_getitem. rewrite Hlook.
    split; [done|by left]. }
  destruct (String.eqb (splitext file_name).2 ".png").
  { exists TypeError. unfold load_png, files_getitem. rewrite Hlook.
    split; [done|by left]. }
  destruct (String.eqb (splitext file_name).2 ".txt").
  { exists AttributeError. unfold load_txt, files_getitem. rewrite Hlook.
    split; [done|by right]. }
  done.
Qed.

Lemma prepare_unhandled raw (file_name : string) (file_data : Asset) :
  raw !! file_name = Some file_data ->
  FROM_EXTENSION (splitext file_name).2 = None ->
  prepare raw file_name = Ok file_data.
Proof.
  intros Hlook Hnone. unfold prepare, files_getitem.
  rewrite Hlook. cbn [rbind]. by rewrite Hnone.
Qed.

(** What a pass that succeeds leaves under every key. *)
Lemma decode_pass_lookup raw (keys : list string) :
  forall files result,
    NoDup keys -> partly_decoded raw files ->
    (forall k, k ∈ keys -> files !! k = raw !! k) ->
    decode_pass keys files = Ok result ->
    forall k,
      (k ∈ keys ->
       exists v, prepare raw k = Ok v /\ result !! k = Some v) /\
      (k ∉ keys -> result !! k = files !! k).
Proof.
  induction keys as [|x keys IH];
    intros files result Hnodup Hpart Hkeys Hpass k.
  - simpl in Hpass. injection Hpass as <-. split; [|done].
    intros Hin. by apply elem_of_nil in Hin.
  - apply NoDup_cons in Hnodup as [Hx Hnodup].
    cbn [decode_pass] in Hpass.
    assert (prepare files x = prepare raw x) as Hstable.
    { apply prepare_stable; [done|]. apply Hkeys. by left. }
    rewrite Hstable in Hpass.
    destruct (prepare raw x) as [v|e] eqn:Hprep; [|done]. cbn [rbind] in Hpass.
    destruct (IH (<[x:=v]> files) result Hnodup) with (k := k) as [Hin Hnotin].
    + by apply partly_decoded_insert.
    + intros k' Hk'. rewrite lookup_insert_ne by (intros ->; done).
      apply Hkeys. by right.
    + done.
    + split.
      * intros [->|Hk]%elem_of_cons; [|by apply Hin].
        exists v. split; [done|]. rewrite (Hnotin Hx). apply lookup_insert_eq.
      * intros [Hne Hk]%not_elem_of_cons. rewrite (Hnotin Hk).
        by apply lookup_insert_ne.
Qed.

Lemma decode_pass_succeeds raw (keys : list string) :
  forall files,
    NoDup keys -> partly_decoded raw files ->
    (forall k, k ∈ keys -> files !! k = raw !! k) ->
    (forall k, k ∈ keys -> exists v, prepare raw k = Ok v) ->
    exists result, decode_pass keys files = Ok result.
Proof.
  induction keys as [|x keys IH];
    intros files Hnodup Hpart Hkeys Hall; [by eexists|].
  apply NoDup_cons in Hnodup as [Hx Hnodup]. cbn [decode_pass].
  rewrite (prepare_stable raw files x) by (done || apply Hkeys; by left).
  destruct (Hall x) as [v Hv]; [by left|]. rewrite Hv. cbn [rbind].
  apply IH; [done| | |].
  - by apply partly_decoded_insert.
  - intros k Hk. rewrite lookup_insert_ne by (intros ->; done).
    apply Hkeys. by right.
  - intros k Hk. apply Hall. by right.
Qed.

(** A pass that fails raises what the handler of one of its keys
    raises on the dictionary as it was read. *)
Lemma decode_pass_error raw (keys : list string) :
  forall files e,
    NoDup keys -> partly_decoded raw files ->
    (forall k, k ∈ keys -> files !! k = raw !! k) ->
    decode_pass keys files = Raise e ->
    exists k, k ∈ keys /\ prepare raw k = Raise e.
Proof.
  induction keys as [|x keys IH]; intros files e Hnodup Hpart Hkeys Hpass;
    [done|].
  apply NoDup_cons in Hnodup as [Hx Hnodup]. cbn [decode_pass] in Hpass.
  rewrite (prepare_stable raw files x) in Hpass
    by (done || apply Hkeys; by left).
  destruct (prepare raw x) as [v|e'] eqn:Hprep; cbn [rbind] in Hpass.
  - destruct (IH (<[x:=v]> files) e Hnodup) as (k & Hk & Hfail).
    + by apply partly_decoded_insert.
    + intros k Hk. rewrite lookup_insert_ne by (intros ->; done).
      apply Hkeys. by right.
    + done.
    + exists k. split; [by right|done].
  - injection Hpass as ->. exists x. split; [by left|done].
Qed.

(** What a load that succeeds leaves under every key. *)
Lemma resource_load_all_or_nothing_lookup (fs : FileSystem)
    (keys_of : gmap string Asset -> list string)
    (resource_category resource_name : string)
    (raw files : gmap string Asset) :
  key_order keys_of ->
  read_container fs resource_category resource_name = Ok raw ->
  Resource_init fs keys_of resource_category resource_name = Ok files ->
  forall k,
    (raw !! k = None -> files !! k = None) /\
    (is_Some (raw !! k) ->
     exists v, prepare raw k = Ok v /\ files !! k = Some v).
Proof.
  intros Hkeys Hread. unfold Resource_init. rewrite Hread. cbn [rbind].
  destruct (Hkeys raw) as [Hnodup Hin].
  intros Hpass k.
  destruct (decode_pass_lookup raw (keys_of raw) raw files Hnodup
              (partly_decoded_refl raw) ltac:(done) Hpass k) as [Hk Hnk].
  split.
  - intros Hnone. rewrite Hnk; [done|]. rewrite Hin, Hnone.
    by intros [? ?].
  - intros Hsome. apply Hk. by apply Hin.
Qed.

(** A directory that lists a file with a registered handler does not
    load: the handler is handed a [str].  One that does load keeps the
    [str] of every file. *)
Lemma directory_load (fs : FileSystem)
    (keys_of : gmap string Asset -> list string)
    (resource_category resource_name : string) raw :
  key_order keys_of ->
  isdir fs (path_join (path_join "resources" resource_category)
              resource_name) = true ->
  read_container fs resource_category resource_name = Ok raw ->
  ((exists k, is_Some (raw !! k) /\
              is_Some (FROM_EXTENSION (splitext k).2)) ->
   exists e,
     Resource_init fs keys_of resource_category resource_name = Raise e /\
     (e = TypeError \/ e = AttributeError)) /\
  (forall files,
     Resource_init fs keys_of resource_category resource_name = Ok files ->
     files = raw /\
     forall k, is_Some (raw !! k) -> FROM_EXTENSION (splitext k).2 = None).
Proof.
  intros Hkeys Hdir Hread.
  pose proof (read_container_entries fs resource_category resource_name raw
                Hread) as Htext.
  rewrite Hdir in Htext.
  assert (forall files,
            Resource_init fs keys_of resource_category resource_name
              = Ok files ->
            forall k, is_Some (raw !! k) ->
              FROM_EXTENSION (splitext k).2 = None) as Hunhandled.
  { intros files Hinit k [v Hv].
    destruct (resource_load_all_or_nothing_lookup fs keys_of
                resource_category resource_name raw files Hkeys Hread Hinit k)
      as [_ Hsome].
    destruct Hsome as (v' & Hprep & _); [by eexists|].
    destruct (Htext k v Hv) as [text ->].
    pose proof (prepare_text raw k text Hv) as Hcase.
    destruct (FROM_EXTENSION (splitext k).2); [|done].
    destruct Hcase as (e & He & _). congruence. }
  split.
  - intros (k & Hk & Hhandled).
    destruct (Resource_init fs keys_of resource_category resource_name)
      as [files|e] eqn:Hinit.
    + rewrite (Hunhandled files eq_refl k Hk) in Hhandled.
      by destruct Hhandled.
    + exists e. split; [done|].
      unfold Resource_init in Hinit. rewrite Hread in Hinit.
      cbn [rbind] in Hinit. destruct (Hkeys raw) as [Hnodup Hin].
      destruct (decode_pass_error raw (keys_of raw) raw e Hnodup
                  (partly_decoded_refl raw) ltac:(done) Hinit)
        as (k' & Hk' & Hfail).
      apply Hin in Hk' as [v Hv]. destruct (Htext k' v Hv) as [text ->].
      pose proof (prepare_text raw k' text Hv) as Hcase.
      destruct (FROM_EXTENSION (splitext k').2).
      * destruct Hcase as (e' & He' & Hkind). congruence.
      * congruence.
  - intros files Hinit. split; [|by apply (Hunhandled files)].
    apply map_eq. intros k.
    destruct (resource_load_all_or_nothing_lookup fs keys_of
                resource_category resource_name raw files Hkeys Hread Hinit k)
      as [Hnone Hsome].
    destruct (raw !! k) as [v|] eqn:Hv; [|by apply Hnone].
    destruct Hsome as (v' & Hprep & ->); [by eexists|].
    rewrite (prepare_unhandled raw k v Hv) in Hprep
      by (apply (Hunhandled files Hinit); by eexists).
    congruence.
Qed.
End containers.

(** C3, against the code.  A directory and a zip archive that hold the
    same files do not load into the same [Resource.files].  The
    directory branch reads every file with [open(path).read()], in text
    mode, and stores a [str]; the zip branch stores bytes.  So when one
    of the files has a registered handler ([.ini], [.gif], [.png],
    [.txt]) the directory fails to load, with the [TypeError] of
    [BytesIO(str)] or the [AttributeError] of [str.decode], whatever
    the archive does; and when the directory does load, every file in
    it is the [str] that was read, which is not what the archive
    holds under that name. *)
Theorem directory_is_read_as_text `{lib : PyLib}
    (fs_dir fs_zip : FileSystem)
    (keys_dir keys_zip : gmap string Asset -> list string)
    (resource_category resource_name : string)
    (names : list string) (content : string -> string) :
  let path := path_join (path_join "resources" resource_category) resource_name in
  isdir fs_dir path = true ->
  isdir fs_zip path = false ->
  zip_namelist fs_zip (path +:+ ".zip") = Ok names ->
  (forall n, n ∈ listdir fs_dir path <-> n ∈ names) ->
  EmptyString ∉ names ->
  (forall n, n ∈ names ->
     open_read fs_dir (path_join path n) = Ok (content n) /\
     zip_open_read fs_zip (path +:+ ".zip") n = Ok (content n)) ->
  key_order keys_dir -> key_order keys_zip ->
  ((exists n, n ∈ names /\ is_Some (FROM_EXTENSION (splitext n).2)) ->
   exists e,
     Resource_init fs_dir keys_dir resource_category resource_name = Raise e /\
     (e = TypeError \/ e = AttributeError)) /\
  (forall files_dir n,
     Resource_init fs_dir keys_dir resource_category resource_name
       = Ok files_dir ->
     n ∈ names ->
     files_dir !! n = Some (Text (content n))) /\
  (forall files_zip n,
     Resource_init fs_zip keys_zip resource_category resource_name
       = Ok files_zip ->
     n ∈ names ->
     files_zip !! n <> Some (Text (content n)) \/
     is_Some (FROM_EXTENSION (splitext n).2)) /\
  (names <> [] ->
   forall files_zip,
     Resource_init fs_zip keys_zip resource_category resource_name
       = Ok files_zip ->
     Resource_init fs_dir keys_dir resource_category resource_name
       <> Ok files_zip).
Proof.
  intros path Hdir Hzip Hnames Hsame Hnonempty Hcontent Hkd Hkz.
  destruct (read_directory_succeeds fs_dir path (listdir fs_dir path))
    with (files := (∅ : gmap string Asset)) as [raw_dir Hread_dir].
  { intros n Hn. exists (content n). by apply Hcontent, Hsame. }
  assert (read_container fs_dir resource_category resource_name = Ok raw_dir)
    as Hcontainer_dir.
  { unfold read_container. fold path. by rewrite Hdir. }
  assert (forall n, n ∈ names -> raw_dir !! n = Some (Text (content n)))
    as Hraw_dir.
  { intros n Hn.
    destruct (read_directory_lookup fs_dir path _ _ _ Hread_dir n) as [Hin _].
    destruct Hin as (text & Hopen & Hlook); [by apply Hsame|].
    destruct (Hcontent n Hn) as [Hopen' _]. congruence. }
  destruct (directory_load fs_dir keys_dir resource_category resource_name
              raw_dir Hkd Hdir Hcontainer_dir) as [Hfails Hloads].
  assert (forall files_zip n,
            Resource_init fs_zip keys_zip resource_category resource_name
              = Ok files_zip ->
            n ∈ names ->
            FROM_EXTENSION (splitext n).2 = None ->
            files_zip !! n = Some (Raw (content n))) as Hzip_raw.
  { intros files_zip n Hinit Hn Hnone.
    destruct (read_container fs_zip resource_category resource_name)
      as [raw_zip|e] eqn:Hcontainer_zip;
      [|unfold Resource_init in Hinit; by rewrite Hcontainer_zip in Hinit].
    assert (raw_zip !! n = Some (Raw (content n))) as Hlook.
    { unfold read_container in Hcontainer_zip. fold path in Hcontainer_zip.
      rewrite Hzip, Hnames in Hcontainer_zip. cbn [rbind] in Hcontainer_zip.
      destruct (read_zip_lookup fs_zip _ _ _ _ Hcontainer_zip n) as [Hin _].
      destruct Hin as (data & Hopen & Hlook); [done|by intros ->|].
      destruct (Hcontent n Hn) as [_ Hopen']. congruence. }
    destruct (resource_load_all_or_nothing_lookup fs_zip keys_zip
                resource_category resource_name raw_zip files_zip Hkz
                Hcontainer_zip Hinit n) as [_ Hsome].
    destruct Hsome as (v & Hprep & ->); [by eexists|].
    rewrite (prepare_unhandled raw_zip n _ Hlook Hnone) in Hprep.
    congruence. }
  split; [|split; [|split]].
  - intros (n & Hn & Hhandled). apply Hfails. exists n.
    split; [|done]. rewrite (Hraw_dir n Hn). by eexists.
  - intros files_dir n Hinit Hn.
    destruct (Hloads files_dir Hinit) as [-> _]. by apply Hraw_dir.
  - intros files_zip n Hinit Hn.
    destruct (FROM_EXTENSION (splitext n).2) as [handler|] eqn:Hext;
      [right; by eexists|].
    left. rewrite (Hzip_raw files_zip n Hinit Hn Hext). discriminate.
  - intros Hne files_zip Hinit_zip Hinit_dir.
    destruct names as [|n names']; [done|].
    assert (n ∈ n :: names') as Hn by (by left).
    destruct (Hloads files_zip Hinit_dir) as [-> Hnone].
    assert (FROM_EXTENSION (splitext n).2 = None) as Hext.
    { apply Hnone. rewrite (Hraw_dir n Hn). by eexists. }
    pose proof (Hzip_raw raw_dir n Hinit_zip Hn Hext) as Hraw.
    rewrite (Hraw_dir n Hn) in Hraw. discriminate.
Qed.

(** The hat: the archive loads, the directory with the same two files
    does not. *)
Lemma directory_is_read_as_text_witness :
  read_container (lib := sample_lib) hat_directory "walkabouts" "hat"
    = Ok hat_text /\
  read_container (lib := sample_lib) hat_zip "walkabouts" "hat" = Ok hat_raw /\
  Resource_init (lib := sample_lib) hat_zip archive_keys "walkabouts" "hat"
    = Ok hat_after_ini_and_gif /\
  (exists e,
     Resource_init (lib := sample_lib) hat_directory sorted_keys
       "walkabouts" "hat" = Raise e /\
     (e = TypeError \/ e = AttributeError)) /\
  Resource_init (lib := sample_lib) hat_directory sorted_keys
    "walkabouts" "hat" <> Ok hat_after_ini_and_gif.
Proof.
  split; [vm_refl|]. split; [vm_refl|]. split; [vm_refl|].
  destruct (directory_is_read_as_text (lib := sample_lib)
              hat_directory hat_zip sorted_keys archive_keys
              "walkabouts" "hat" ["only.gif"; "only.ini"]%string hat_content)
    as (Hfails & _ & _ & Hdiffer).
  - reflexivity.
  - reflexivity.
  - reflexivity.
  - intros n. simpl. rewrite !elem_of_cons, !elem_of_nil. tauto.
  - rewrite !elem_of_cons, elem_of_nil. intros [?|[?|[]]]; discriminate.
  - intros n. rewrite !elem_of_cons, elem_of_nil.
    intros [->|[->|[]]]; split; reflexivity.
  - apply sorted_keys_order.
  - apply archive_keys_order.
  - split.
    + apply Hfails. exists "only.gif"%string. split; [by left|].
      by eexists.
    + apply Hdiffer; [done|vm_refl].
Defined.

(** C4.  The zip branch skips a name only when it is empty, so the
    directory entry [sub/] of [hero.zip] is read like a file and is
    stored under its own name, with empty contents, in the raw
    dictionary and in the finished [Resource.files]. *)
Theorem zip_directory_entry_is_stored :
  is_dir_entry "sub/" = true /\
  read_container (lib := sample_lib) hero_zip "walkabouts" "hero" = Ok hero_raw /\
  hero_raw !! "sub/"%string = Some (Raw ""%string) /\
  (let* files :=
     Resource_init (lib := sample_lib) hero_zip sorted_keys "walkabouts" "hero" in
   files_getitem files "sub/"%string) = Ok (Raw ""%string).
Proof. repeat split; vm_refl. Qed.

(** ** Which entries the decoders read *)

Section sidecar.
Context `{lib : PyLib}.
Implicit Types raw files : gmap string Asset.

(** What the pass makes of the anchors entry is a configuration
    object, the one [load_ini] reads from the raw bytes. *)
Lemma sidecar_entry_decoded raw (file_name : string) (file_data : Asset) :
  (splitext file_name).2 <> EmptyString ->
  prepare raw ((splitext file_name).1 +:+ ".ini") = Ok file_data ->
  exists config,
    file_data = Config config /\
    load_ini raw ((splitext file_name).1 +:+ ".ini") = Ok config.
Proof.
  intros Hext. unfold prepare.
  destruct (files_getitem raw _) as [r|]; [|done]. simpl.
  rewrite (splitext_sidecar file_name Hext). simpl.
  destruct (load_ini raw _) as [c|e]; [|done]. simpl.
  intros [= <-]. by exists c.
Qed.

Lemma anchor_config_decoded files (file_name : string) (config : ConfigParser) :
  files !! ((splitext file_name).1 +:+ ".ini") = Some (Config config) ->
  anchor_config files file_name = Ok (Some config).
Proof. unfold anchor_config. by intros ->. Qed.
End sidecar.

(** C5, as the code has it.  In every state of the decode pass the
    entry being handled is still raw, and what the handler returns is
    what it returns on the raw dictionary.  [load_gif] also looks up the
    anchors entry [<root>.ini]: that entry is either still raw, and then
    [load_ini] decodes it on demand, or the pass has already replaced it
    by the configuration object that [load_ini] makes of the raw bytes,
    and then [load_gif] uses that object as it is.  Either way the
    anchors are the same, and the outcome of the pass does not depend on
    the order of the keys. *)
Theorem gif_sidecar_raw_or_decoded `{lib : PyLib}
    (raw : gmap string Asset) (keys keys' : list string) :
  all_raw raw -> NoDup keys -> keys ≡ₚ keys' ->
  to_option (decode_pass keys raw) = to_option (decode_pass keys' raw) /\
  forall file_name files,
    (file_name, files) ∈ pass_states keys raw ->
    files !! file_name = raw !! file_name /\
    prepare files file_name = prepare raw file_name /\
    ((splitext file_name).2 = ".gif"%string ->
     let anchor_ini_name := (splitext file_name).1 +:+ ".ini" in
     (files !! anchor_ini_name = raw !! anchor_ini_name \/
      exists config,
        files !! anchor_ini_name = Some (Config config) /\
        load_ini raw anchor_ini_name = Ok config /\
        anchor_config files file_name = Ok (Some config)) /\
     anchor_config files file_name = anchor_config raw file_name).
Proof.
  intros Hraw Hnodup Hperm. split.
  - by apply (decode_pass_permutation raw); [..|apply partly_decoded_refl|].
  - intros file_name files Hin.
    destruct (pass_states_invariant raw keys raw Hnodup
                (partly_decoded_refl raw) ltac:(done) file_name files Hin)
      as [Hpart Hown].
    split; [done|]. split; [by apply prepare_stable|].
    intros Hgif anchor_ini_name.
    assert ((splitext file_name).2 <> EmptyString) as Hext by (by rewrite Hgif).
    split; [|by apply anchor_config_stable].
    destruct (Hpart anchor_ini_name) as [Heq|(v & Hprep & Hv)]; [by left|].
    right. destruct (sidecar_entry_decoded raw file_name v Hext Hprep)
      as (config & -> & Hini).
    exists config. split; [done|]. split; [done|].
    by apply anchor_config_decoded.
Qed.

Lemma hat_raw_all_raw : all_raw (lib := sample_lib) hat_raw.
Proof.
  unfold hat_raw.
  apply (map_Forall_insert_2 (fun _ v => is_raw v)); [by eexists|].
  apply (map_Forall_insert_2 (fun _ v => is_raw v)); [by eexists|].
  apply map_Forall_empty.
Qed.

Lemma gif_sidecar_raw_or_decoded_witness :
  to_option (decode_pass (lib := sample_lib)
               ["only.ini"; "only.gif"]%string hat_raw) =
  to_option (decode_pass (lib := sample_lib)
               ["only.gif"; "only.ini"]%string hat_raw) /\
  forall file_name files,
    (file_name, files) ∈ pass_states ["only.ini"; "only.gif"]%string hat_raw ->
    files !! file_name = hat_raw !! file_name /\
    prepare files file_name = prepare hat_raw file_name /\
    ((splitext file_name).2 = ".gif"%string ->
     let anchor_ini_name := (splitext file_name).1 +:+ ".ini" in
     (files !! anchor_ini_name = hat_raw !! anchor_ini_name \/
      exists config,
        files !! anchor_ini_name = Some (Config config) /\
        load_ini hat_raw anchor_ini_name = Ok config /\
        anchor_config files file_name = Ok (Some config)) /\
     anchor_config files file_name = anchor_config hat_raw file_name).
Proof.
  apply (gif_sidecar_raw_or_decoded (lib := sample_lib) hat_raw
           ["only.ini"; "only.gif"]%string ["only.gif"; "only.ini"]%string).
  - apply hat_raw_all_raw.
  - apply NoDup_cons. split.
    + rewrite elem_of_cons, elem_of_nil. intros [?|[]]. discriminate.
    + apply NoDup_cons. split; [apply not_elem_of_nil|apply NoDup_nil_2].
  - apply perm_swap.
Defined.

(** C5 as stated fails: when the dictionary yields [only.ini] before
    [only.gif], the entry that [load_gif] looks up for the anchors is
    already a configuration object, not raw bytes. *)
Lemma gif_reads_decoded_sidecar :
  ~ reads_only_raw (lib := sample_lib) ["only.ini"; "only.gif"]%string hat_raw.
Proof.
  intros Honly.
  assert (pass_states (lib := sample_lib) ["only.ini"; "only.gif"]%string hat_raw
          = [("only.ini"%string, hat_raw); ("only.gif"%string, hat_after_ini)])
    as Hstates by vm_refl.
  assert (entries_read "only.gif" = ["only.gif"; "only.ini"]%string)
    as Hread by vm_refl.
  assert (hat_after_ini !! "only.ini"%string
          = Some (Config (lib := sample_lib) hat_document))
    as Hlookup by vm_refl.
  destruct (Honly "only.gif"%string hat_after_ini "only.ini"%string
              (Config (lib := sample_lib) hat_document)) as [data Hdata].
  - rewrite Hstates. right. left.
  - rewrite Hread. right. left.
  - exact Hlookup.
  - discriminate.
Qed.

(** ** Walkabout construction *)

Lemma largest_fold_spec (fs : list AnimatedSpriteFrame) :
  forall acc : Z * Z,
    let step := fun (largest : Z * Z) (frame : AnimatedSpriteFrame) =>
      let '(largest_x, largest_y) := largest in
      let largest_area := largest_x * largest_y in
      let frame_size := get_size (surface frame) in
      let '(frame_x, frame_y) := frame_size in
      let frame_area := frame_x * frame_y in
      if frame_area >? largest_area then frame_size else largest in
    let r := foldl step acc fs in
    size_area acc <= size_area r /\
    (forall f, f ∈ fs -> frame_area f <= size_area r) /\
    (r = acc \/
     exists f, f ∈ fs /\ r = get_size (surface f) /\ size_area acc < frame_area f).
Proof.
  induction fs as [|g fs IH]; intros acc step r.
  - subst r. simpl. split; [lia|]. split; [|by left].
    intros f Hf. by apply elem_of_nil in Hf.
  - subst r. cbn [foldl].
    destruct (IH (step acc g)) as (Hle & Hall & Hr). fold step in Hle, Hall, Hr.
    assert (size_area acc <= size_area (step acc g) /\
            frame_area g <= size_area (step acc g) /\
            (step acc g = acc \/
             step acc g = get_size (surface g) /\ size_area acc < frame_area g))
      as (Hacc & Hg & Hstep).
    { subst step. destruct acc as [lx ly]. unfold size_area, frame_area, get_size.
      cbn [fst snd].
      destruct (Z.gtb_spec (surf_width (surface g) * surf_height (surface g)) (lx * ly));
        cbn [fst snd]; repeat split; (lia || (by left) || (right; split; [done|lia])). }
    split; [lia|]. split.
    + intros f [->|Hf]%elem_of_cons; [lia|by apply Hall].
    + destruct Hr as [Hr|(f & Hf & Hr & Hlt)].
      * rewrite Hr. destruct Hstep as [->|[-> Hlt]]; [by left|].
        right. exists g. split; [by left|done].
      * right. exists f. split; [by right|]. split; [done|lia].
Qed.

(** [largest_frame_size] is [(0, 0)] when no frame has a positive
    area, and otherwise the size of a frame whose area no other frame
    exceeds. *)
Lemma largest_frame_size_spec (s : AnimatedSprite) :
  (forall f, f ∈ frames s -> frame_area f <= size_area (largest_frame_size s)) /\
  (largest_frame_size s = (0, 0) \/
   exists f, f ∈ frames s /\ largest_frame_size s = get_size (surface f)).
Proof.
  destruct (largest_fold_spec (frames s) (0, 0)) as (_ & Hall & Hr).
  split; [exact Hall|].
  destruct Hr as [Hr|(f & Hf & Hr & _)]; [by left|].
  right. by exists f.
Qed.

Section walkabout_properties.
Context `{lib : PyLib} `{consts : Constants}.




(** After the loop, [animation] is the entry of the last key. *)
Lemma load_sprites_last (sprite_files : gmap string Asset)
    (sprite_paths : list string) :
  forall animations actions directions animation out,
    load_sprites sprite_files sprite_paths animations actions directions
      animation = Ok out ->
    out.2 = match last sprite_paths with
            | Some p => sprite_files !! p
            | None => animation
            end.
Proof.
  induction sprite_paths as [|p paths IH];
    intros animations actions directions animation out Hload.
  - simpl in Hload. by injection Hload as <-.
  - cbn [load_sprites] in Hload.
    destruct (parse_sprite_path p) as [[a d]|e]; [|done]. cbn [rbind] in Hload.
    unfold files_getitem in Hload.
    destruct (sprite_files !! p) as [v|] eqn:Hv; [|done]. cbn [rbind] in Hload.
    rewrite (IH _ _ _ _ _ Hload).
    destruct paths as [|p' paths]; [simpl; by rewrite Hv|].
    change (last (p :: p' :: paths)) with (last (p' :: paths)).
    destruct (last (p' :: paths)) eqn:Hl; [done|].
    by apply last_None in Hl.
Qed.


End walkabout_properties.




(** C7, as the code has it.  When construction succeeds the size of
    the Walkabout is [largest_frame_size()] of one animation only: the
    one stored under the last key that the dictionary of GIFs yields.
    Within that animation no frame has a larger area than the size,
    which is the size of one of its frames unless no frame has a
    positive area, when it is (0, 0). *)
Theorem walkabout_size_is_last_animation
    `{lib : PyLib} `{consts : Constants}
    (keys_of : gmap string Asset -> list string)
    (files : gmap string Asset) (directory : string)
    (position : option (Z * Z)) (topleft_float : Float * Float)
    (children : list Walkabout) (w : Walkabout) :
  Walkabout_of_resource keys_of files directory position topleft_float
    children = Ok w ->
  exists sprite_files last_path sprite,
    get_type files ".gif" = Some sprite_files /\
    last (keys_of sprite_files) = Some last_path /\
    sprite_files !! last_path = Some (Sprite sprite) /\
    size_of w = largest_frame_size sprite /\
    (forall f, f ∈ frames sprite -> frame_area f <= size_area (size_of w)) /\
    (size_of w = (0, 0) \/
     exists f, f ∈ frames sprite /\ size_of w = get_size (surface f)).
Proof.
  unfold Walkabout_of_resource.
  destruct (get_type files ".gif") as [sprite_files|]; [|done].
  destruct (load_sprites _ _ _ _ _ _) as [[[[animations actions] directions] animation]|e]
    eqn:Hload; [|done].
  cbn [rbind].
  apply load_sprites_last in Hload. cbn [snd] in Hload.
  destruct (asset_largest_frame_size animation) as [size|e] eqn:Hsize; [|done].
  cbn [rbind].
  destruct (pygame_Rect _ size) as [rect|]; [|done].
  destruct (dict_get animations Action_stand) as [by_direction|]; [|done].
  destruct (dict_get by_direction Direction_south) as [img|]; [|done].
  intros [= <-]. cbn [size_of].
  destruct animation as [[| | | |sprite]|]; try done.
  simpl in Hsize. injection Hsize as <-.
  destruct (last (keys_of sprite_files)) as [last_path|] eqn:Hlast; [|done].
  exists sprite_files, last_path, sprite.
  destruct (largest_frame_size_spec sprite) as [Hall Hsome].
  by repeat split.
Qed.

Lemma walkabout_size_is_last_animation_witness :
  exists sprite_files last_path sprite,
    get_type (lib := sample_lib) hat_after_ini_and_gif ".gif" = Some sprite_files /\
    last (sorted_keys sprite_files) = Some last_path /\
    sprite_files !! last_path = Some (Sprite sprite) /\
    size_of hat_walkabout = largest_frame_size sprite /\
    (forall f, f ∈ frames sprite -> frame_area f <= size_area (size_of hat_walkabout)) /\
    (size_of hat_walkabout = (0, 0) \/
     exists f, f ∈ frames sprite /\ size_of hat_walkabout = get_size (surface f)).
Proof.
  apply (walkabout_size_is_last_animation (lib := sample_lib)
           (consts := spec_constants) sorted_keys hat_after_ini_and_gif
           "hat" None (0, 0) [] hat_walkabout).
  vm_refl.
Defined.

(** C7 as stated fails: [giant.zip] holds a standing animation with a
    7x7 frame and a walking animation whose frames are 3x3 and 4x4.
    The dictionary yields the walking animation last, and the size of
    the Walkabout is (4, 4), not (7, 7). *)
Lemma walkabout_size_ignores_larger_animation :
  (let* files := Resource_init (lib := sample_lib) giant_zip archive_keys
                   "walkabouts" "giant" in
   Ok (option_map archive_keys (get_type files ".gif")))
    = Ok (Some ["stand_south.gif"; "walk_south.gif"]%string) /\
  (let* files := Resource_init (lib := sample_lib) giant_zip archive_keys
                   "walkabouts" "giant" in
   let* animation := files_getitem files "stand_south.gif" in
   asset_largest_frame_size (Some animation)) = Ok (7, 7) /\
  (let* w := Walkabout_init (lib := sample_lib) (consts := spec_constants)
               giant_zip archive_keys "giant" None [] in
   Ok (size_of w)) = Ok (4, 4).
Proof. repeat split; vm_refl. Qed.

(** * Part III: further properties *)

(** ** Timelines built by the constructors *)

Lemma frames_of_surface_durations_timeline (l : list (Surface * Z)) :
  forall t,
    Forall (fun sd => 0 <= sd.2) l ->
    timeline t (frames_of_surface_durations t l).
Proof.
  induction l as [|[surf dur] l IH]; intros t Hnonneg; simpl; [done|].
  apply Forall_cons in Hnonneg as [Hdur Hnonneg]. simpl in Hdur.
  repeat split; [done|]. by apply IH.
Qed.

Lemma frames_of_surface_durations_durations (l : list (Surface * Z)) :
  forall t,
    map duration (frames_of_surface_durations t l) = map snd l /\
    map surface (frames_of_surface_durations t l) = map fst l.
Proof.
  induction l as [|[surf dur] l IH]; intros t; simpl; [done|].
  destruct (IH (t + dur)) as [-> ->]. done.
Qed.

(** X1.  [from_surface_duration_list] fails with [IndexError] exactly
    on the empty list.  On a non-empty list it returns a sprite at index
    0, elapsed 0, showing the first surface, with one frame per pair, in
    order, with the given surfaces and durations; its total duration is
    the sum of the durations, and when no duration is negative the
    frames follow one another from time 0 and the last one ends at the
    total duration. *)
Theorem from_surface_duration_list_timeline (l : list (Surface * Z)) :
  (l = [] -> from_surface_duration_list l = Raise IndexError) /\
  (l <> [] ->
   exists s,
     from_surface_duration_list l = Ok s /\
     map surface (frames s) = map fst l /\
     map duration (frames s) = map snd l /\
     total_duration s = foldr Z.add 0 (map snd l) /\
     active_frame_index s = 0 /\ animation_position s = 0 /\
     Some (image s) = head (map fst l) /\
     (Forall (fun sd => 0 <= sd.2) l ->
      timeline 0 (frames s) /\
      exists f_last, last (frames s) = Some f_last /\
                     end_time f_last = total_duration s)).
Proof.
  split.
  - intros ->. reflexivity.
  - intros Hne. unfold from_surface_duration_list.
    destruct (frames_of_surface_durations_durations l 0) as [Hdur Hsurf].
    destruct l as [|[surf dur] l]; [done|].
    eexists. split; [reflexivity|]. cbn [frames total_duration
      active_frame_index animation_position image].
    split; [exact Hsurf|]. split; [exact Hdur|].
    split; [unfold total_duration_of; by rewrite Hdur|].
    do 3 (split; [reflexivity|]).
    intros Hnonneg.
    pose proof (frames_of_surface_durations_timeline _ 0 Hnonneg) as Htl.
    split; [exact Htl|].
    destruct (last (frames_of_surface_durations 0 ((surf, dur) :: l)))
      as [f_last|] eqn:Hlast.
    + exists f_last. split; [done|].
      rewrite (timeline_last _ _ _ Htl Hlast). lia.
    + by apply last_None in Hlast.
Qed.

Lemma from_surface_duration_list_timeline_witness :
  exists s,
    from_surface_duration_list [(small_surface, 100); (large_surface, 150)] = Ok s /\
    map duration (frames s) = [100; 150] /\
    total_duration s = 250 /\
    timeline 0 (frames s) /\
    exists f_last, last (frames s) = Some f_last /\
                   end_time f_last = total_duration s.
Proof.
  destruct (from_surface_duration_list_timeline
              [(small_surface, 100); (large_surface, 150)]) as [_ Hsome].
  destruct Hsome as (s & Hs & _ & Hdur & Htot & _ & _ & _ & Htl);
    [discriminate|].
  exists s. split; [exact Hs|]. split; [exact Hdur|]. split; [exact Htot|].
  apply Htl. repeat constructor; simpl; lia.
Defined.

(** ** The cursor as a function of the elapsed time *)

Lemma timeline_adjacent (fs : list AnimatedSpriteFrame) :
  forall t (i : nat) f g,
    timeline t fs -> fs !! i = Some f -> fs !! S i = Some g ->
    start_time g = end_time f.
Proof.
  induction fs as [|h fs IH]; intros t i f g Htl Hf Hg; [done|].
  destruct Htl as (_ & _ & _ & Htl).
  destruct i as [|i].
  - injection Hf as <-. destruct fs as [|g' fs]; [done|].
    injection Hg as <-. by destruct Htl as (-> & _).
  - by apply (IH _ i f g Htl).
Qed.

Lemma timeline_head_start (fs : list AnimatedSpriteFrame) (t : Z)
    (f : AnimatedSpriteFrame) :
  timeline t fs -> fs !! 0%nat = Some f -> start_time f = t.
Proof.
  destruct fs as [|g fs]; [done|]. by intros (Hs & _) [= <-].
Qed.

(** From an index before which every frame ends too early, the loop
    stops at the first frame of the whole list that ends no earlier
    than [position]. *)
Lemma advance_first (fs : list AnimatedSpriteFrame) (position : Z)
    (f_last : AnimatedSpriteFrame) :
  last fs = Some f_last -> position <= end_time f_last ->
  forall (n : nat) (index : Z),
    0 <= index < Z.of_nat (length fs) ->
    (advance_fuel fs index <= n)%nat ->
    (forall (j : nat) g, fs !! j = Some g -> Z.of_nat j < index ->
                         end_time g < position) ->
    exists index' f,
      advance n fs position index = Ok index' /\
      0 <= index' < Z.of_nat (length fs) /\
      frame_at fs position = Some (Z.to_nat index', f).
Proof.
  intros Hlast Hpos. induction n as [|n IH]; intros index Hidx Hn Hbefore.
  - unfold advance_fuel in Hn. lia.
  - simpl. destruct (py_getitem_in_range fs index) as [f Hf]; [lia|].
    rewrite Hf. rewrite py_getitem_nonneg in Hf by lia.
    destruct (fs !! Z.to_nat index) as [f'|] eqn:Hlook; [|done].
    injection Hf as ->.
    destruct (Z.gtb_spec position (end_time f)) as [Hgt|Hle].
    + assert (index + 1 < Z.of_nat (length fs)) as Hnext.
      { destruct (Z.eq_dec (index + 1) (Z.of_nat (length fs))) as [Heq|]; [|lia].
        exfalso. rewrite last_lookup in Hlast.
        replace (pred (length fs)) with (Z.to_nat index) in Hlast by lia.
        rewrite Hlook in Hlast. injection Hlast as ->. lia. }
      apply IH; [lia | unfold advance_fuel in *; lia |].
      intros j g Hg Hj.
      destruct (Z.eq_dec (Z.of_nat j) index) as [Heq|Hne].
      * replace (Z.to_nat index) with j in Hlook by lia.
        rewrite Hlook in Hg. injection Hg as <-. lia.
      * apply (Hbefore j g Hg). lia.
    + exists index, f. split; [done|]. split; [lia|].
      unfold frame_at. apply list_find_Some. split; [done|]. split; [lia|].
      intros j g Hg Hj. specialize (Hbefore j g Hg). lia.
Qed.

Lemma frame_at_Some (fs : list AnimatedSpriteFrame) (position : Z)
    (i : nat) (f : AnimatedSpriteFrame) :
  frame_at fs position = Some (i, f) ->
  fs !! i = Some f /\ position <= end_time f /\
  forall (j : nat) g, fs !! j = Some g -> (j < i)%nat -> end_time g < position.
Proof.
  unfold frame_at. intros (Hf & Hle & Hbefore)%list_find_Some.
  split; [done|]. split; [done|].
  intros j g Hg Hj. specialize (Hbefore j g Hg Hj). lia.
Qed.

(** One tick keeps the cursor on the first frame that ends no earlier
    than the position, and the position is the elapsed time modulo the
    total duration. *)
Lemma update_cursor_first (s : AnimatedSprite) (delta : Z) :
  wf_sprite s -> cursor_inv s -> cursor_first s -> 0 <= delta ->
  exists s',
    update s delta = Ok s' /\ wf_sprite s' /\ cursor_inv s' /\
    cursor_first s' /\ frames s' = frames s /\
    total_duration s' = total_duration s /\
    animation_position s' =
      (animation_position s + delta) mod total_duration s.
Proof.
  intros Hwf Hinv [f0 Hfirst] Hdelta.
  destruct (update_cursor_inv s delta Hwf Hinv Hdelta) as (s' & Hupd & Hwf' & Hinv').
  destruct (update_ok s delta Hwf (proj1 Hinv))
    as (s1 & f & Hupd1 & Hfs & Htot & Hp & Hi & Hadv & _ & _).
  rewrite Hupd in Hupd1. injection Hupd1 as <-.
  exists s'. do 3 (split; [done|]).
  assert (frames s <> []) as Hne.
  { intros Heq. destruct Hinv as [Hidx _]. rewrite Heq in Hidx. simpl in Hidx. lia. }
  destruct (wf_sprite_last s Hwf Hne) as (f_last & Hlast & Hend).
  destruct Hinv as [Hidx Hpos]. destruct Hwf as (Htl & Htotal & Htpos).
  apply frame_at_Some in Hfirst as (Hf0 & Hle0 & Hbefore0).
  assert (fst (wrapped_cursor s delta)
          = (animation_position s + delta) mod total_duration s /\
          (forall (j : nat) g, frames s !! j = Some g ->
             Z.of_nat j < snd (wrapped_cursor s delta) ->
             end_time g < fst (wrapped_cursor s delta)) /\
          fst (wrapped_cursor s delta) < total_duration s /\
          0 <= snd (wrapped_cursor s delta) < Z.of_nat (length (frames s)))
    as (Hmod & Hbefore & Hlt & Hrange).
  { unfold wrapped_cursor.
    destruct (Z.geb_spec (animation_position s + delta) (total_duration s)); simpl.
    - split; [done|]. split; [intros; lia|].
      split; [apply Z.mod_pos_bound; lia|lia].
    - split; [symmetry; apply Z.mod_small; lia|].
      split; [|lia]. intros j g Hg Hj.
      assert (end_time g < animation_position s) by (apply (Hbefore0 j g Hg); lia).
      lia. }
  destruct (advance_first (frames s) (fst (wrapped_cursor s delta)) f_last Hlast
              ltac:(lia) (advance_fuel (frames s) (snd (wrapped_cursor s delta)))
              (snd (wrapped_cursor s delta)) Hrange ltac:(lia) Hbefore)
    as (i' & f' & Hadv' & Hi' & Hfind).
  rewrite Hadv in Hadv'. injection Hadv' as <-.
  split; [exists f'; by rewrite Hfs, Hp|].
  split; [done|]. split; [done|]. by rewrite Hp.
Qed.

Lemma updates_cursor_first (deltas : list Z) :
  Forall (fun d => 0 <= d) deltas ->
  forall s, wf_sprite s -> cursor_inv s -> cursor_first s ->
    exists s',
      updates s deltas = Ok s' /\ wf_sprite s' /\ cursor_inv s' /\
      cursor_first s' /\ frames s' = frames s /\
      total_duration s' = total_duration s /\
      animation_position s' =
        (animation_position s + foldr Z.add 0 deltas) mod total_duration s.
Proof.
  induction 1 as [|d ds Hd Hds IH]; intros s Hwf Hinv Hfirst; simpl.
  - exists s. do 6 (split; [done|]).
    rewrite Z.add_0_r. symmetry. apply Z.mod_small. apply Hinv.
  - destruct (update_cursor_first s d Hwf Hinv Hfirst Hd)
      as (s1 & -> & Hwf1 & Hinv1 & Hfirst1 & Hfs1 & Htot1 & Hp1).
    simpl. destruct (IH s1 Hwf1 Hinv1 Hfirst1)
      as (s' & Hs' & Hwf' & Hinv' & Hfirst' & Hfs' & Htot' & Hp').
    exists s'. do 4 (split; [done|]).
    split; [by rewrite Hfs'|]. split; [by rewrite Htot'|].
    rewrite Hp', Hp1, Htot1.
    rewrite Z.add_mod_idemp_l by (destruct Hwf as (_ & _ & ?); lia).
    f_equal. lia.
Qed.

(** X2.  From the initial state of a sprite whose frames form a
    timeline from 0 with a positive total duration, any sequence of
    non-negative ticks leaves the cursor where the elapsed time alone
    puts it: the position is the sum of the ticks modulo the total
    duration, and the index is that of the first frame that ends no
    earlier than the position, a frame whose time span holds the
    position. *)
Theorem cursor_follows_elapsed_time (fs : list AnimatedSpriteFrame)
    (s0 : AnimatedSprite) (deltas : list Z) :
  AnimatedSprite_init fs = Ok s0 ->
  timeline 0 fs -> 0 < total_duration s0 ->
  Forall (fun d => 0 <= d) deltas ->
  exists s' f,
    updates s0 deltas = Ok s' /\
    animation_position s' = foldr Z.add 0 deltas mod total_duration s0 /\
    frame_at fs (animation_position s')
      = Some (Z.to_nat (active_frame_index s'), f) /\
    active_frame s' = Ok f /\
    start_time f <= animation_position s' <= end_time f.
Proof.
  intros Hinit Htl Hpos Hnonneg.
  destruct (AnimatedSprite_init_Ok fs s0 Hinit) as (Hfs & Htot & Hi & Hp & Hne).
  assert (wf_sprite s0) as Hwf by (unfold wf_sprite; rewrite Hfs; tauto).
  assert (cursor_inv s0) as Hinv.
  { unfold cursor_inv. rewrite Hi, Hp, Hfs. destruct fs; [done|]. simpl. lia. }
  assert (cursor_first s0) as Hfirst.
  { unfold cursor_first. rewrite Hi, Hp, Hfs.
    destruct fs as [|f fs']; [done|]. exists f.
    unfold frame_at. apply list_find_Some. split; [done|]. split.
    - destruct Htl as (Hs & Hd & He & _). lia.
    - intros j g _ Hj. simpl in Hj. lia. }
  destruct (updates_cursor_first deltas Hnonneg s0 Hwf Hinv Hfirst)
    as (s' & Hs' & Hwf' & Hinv' & [f Hfind] & Hfs' & Htot' & Hp').
  exists s', f. split; [done|]. rewrite Hp in Hp'. simpl in Hp'.
  split; [done|]. rewrite Hfs', Hfs in Hfind. split; [done|].
  apply frame_at_Some in Hfind as (Hf & Hle & Hbefore).
  destruct Hinv' as [Hidx' _].
  split.
  - unfold active_frame. rewrite py_getitem_nonneg by lia.
    by rewrite Hfs', Hfs, Hf.
  - split; [|done].
    destruct (Z.to_nat (active_frame_index s')) as [|i] eqn:Hi'.
    + rewrite (timeline_head_start fs 0 f Htl Hf).
      rewrite Hp'. apply Z.mod_pos_bound. lia.
    + destruct (lookup_lt_is_Some_2 fs i) as [g Hg].
      { apply lookup_lt_Some in Hf. lia. }
      rewrite (timeline_adjacent fs 0 i g f Htl Hg Hf).
      specialize (Hbefore i g Hg). lia.
Qed.

Lemma cursor_follows_elapsed_time_witness :
  exists s' f,
    updates boundary_sprite [99; 2; 150; 250; 30] = Ok s' /\
    animation_position s' =
      foldr Z.add 0 [99; 2; 150; 250; 30] mod total_duration boundary_sprite /\
    frame_at (boundary_frames small_surface large_surface None None)
        (animation_position s')
      = Some (Z.to_nat (active_frame_index s'), f) /\
    active_frame s' = Ok f /\
    start_time f <= animation_position s' <= end_time f.
Proof.
  apply (cursor_follows_elapsed_time
           (boundary_frames small_surface large_surface None None)).
  - reflexivity.
  - simpl; lia.
  - simpl; lia.
  - repeat constructor; lia.
Defined.

(** ** The image attribute *)

Lemma update_Ok_image (s s' : AnimatedSprite) (delta : Z) :
  update s delta = Ok s' ->
  exists shown,
    py_getitem (frames s) (active_frame_index s' - 1) = Ok shown /\
    image s' = surface shown /\
    rect s' = mkRect (0, 0) (get_size (surface shown)).
Proof.
  unfold update.
  destruct (if animation_position s + delta >=? total_duration s then _ else _)
    as [[p i]|e]; [|done]. cbn [rbind].
  destruct (advance _ _ _ _) as [i'|e]; [|done]. cbn [rbind].
  destruct (py_getitem (frames s) (i' - 1)) as [shown|e] eqn:Hshown; [|done].
  cbn [rbind]. intros [= <-]. by exists shown.
Qed.

Lemma py_getitem_Ok_lookup {A : Type} (l : list A) (i : Z) (x : A) :
  py_getitem l i = Ok x ->
  l !! Z.to_nat (if i <? 0 then i + Z.of_nat (length l) else i) = Some x.
Proof.
  unfold py_getitem.
  set (j := if i <? 0 then i + Z.of_nat (length l) else i).
  destruct ((0 <=? j) && (j <? Z.of_nat (length l))); [|done].
  by destruct (l !! Z.to_nat j) as [y|]; [intros [= ->]|].
Qed.

(** X3.  After a tick the [image] of the sprite is not the surface of
    the frame under the cursor but of the frame before it in the list,
    and of the last frame of the list when the cursor is on frame 0;
    [rect] is that surface's size at (0, 0). *)
Theorem update_image_is_previous_frame (s s' : AnimatedSprite) (delta : Z) :
  wf_sprite s ->
  0 <= active_frame_index s < Z.of_nat (length (frames s)) ->
  update s delta = Ok s' ->
  exists shown,
    image s' = surface shown /\
    rect s' = mkRect (0, 0) (get_size (image s')) /\
    (active_frame_index s' = 0 -> last (frames s') = Some shown) /\
    (active_frame_index s' <> 0 ->
     frames s' !! (Z.to_nat (active_frame_index s') - 1)%nat = Some shown).
Proof.
  intros Hwf Hidx Hupd.
  destruct (update_ok s delta Hwf Hidx)
    as (s1 & f & Hupd1 & Hfs & _ & _ & Hi & _).
  rewrite Hupd in Hupd1. injection Hupd1 as <-.
  destruct (update_Ok_image s s' delta Hupd) as (shown & Hshown & Himg & Hrect).
  exists shown. split; [done|]. split; [by rewrite Himg|].
  assert (0 <= active_frame_index s') as Hnonneg.
  { unfold wrapped_cursor in Hi.
    destruct (animation_position s + delta >=? total_duration s); simpl in Hi; lia. }
  rewrite Hfs. apply py_getitem_Ok_lookup in Hshown. split.
  - intros Hzero. rewrite Hzero in Hshown.
    change (0 - 1 <? 0) with true in Hshown. cbv iota in Hshown.
    rewrite last_lookup. rewrite <- Hshown. f_equal. lia.
  - intros Hpos.
    destruct (Z.ltb_spec (active_frame_index s' - 1) 0); [lia|].
    rewrite <- Hshown. f_equal. lia.
Qed.

Lemma update_image_is_previous_frame_witness :
  exists shown,
    image boundary_after_101 = surface shown /\
    rect boundary_after_101 = mkRect (0, 0) (get_size (image boundary_after_101)) /\
    (active_frame_index boundary_after_101 = 0 ->
     last (frames boundary_after_101) = Some shown) /\
    (active_frame_index boundary_after_101 <> 0 ->
     frames boundary_after_101
       !! (Z.to_nat (active_frame_index boundary_after_101) - 1)%nat
       = Some shown).
Proof.
  apply (update_image_is_previous_frame boundary_sprite boundary_after_101 101).
  - unfold wf_sprite; simpl; unfold total_duration_of; simpl; lia.
  - simpl; lia.
  - reflexivity.
Defined.

(** ** Anchors and GIF frames *)

Section gif_properties.
Context `{lib : PyLib}.

Lemma labeled_anchors_spec (anchors_config : ConfigParser) (frame_index : Z)
    (todo : list string) :
  forall labeled result,
    labeled_anchors anchors_config frame_index todo labeled = Ok result ->
    forall label,
      (label ∈ todo ->
       exists text xs ys x y,
         config_get anchors_config label (pretty frame_index) = Ok text /\
         py_split "," text = [xs; ys] /\
         py_int xs = Ok x /\ py_int ys = Ok y /\
         result !! label = Some (mkAnchor x y)) /\
      (label ∉ todo -> result !! label = labeled !! label).
Proof.
  induction todo as [|section todo IH]; intros labeled result Hres label.
  - simpl in Hres. injection Hres as <-. split; [|done].
    intros Hin. by apply elem_of_nil in Hin.
  - cbn [labeled_anchors] in Hres.
    destruct (config_get anchors_config section (pretty frame_index))
      as [text|e] eqn:Htext; [|done]. cbn [rbind] in Hres.
    destruct (py_split "," text) as [|xs [|ys [|? ?]]] eqn:Hsplit; try done.
    destruct (py_int xs) as [x|e] eqn:Hx; [|done]. cbn [rbind] in Hres.
    destruct (py_int ys) as [y|e] eqn:Hy; [|done]. cbn [rbind] in Hres.
    destruct (IH _ _ Hres label) as [Hin Hnotin]. split.
    + intros Hlabel. destruct (decide (label ∈ todo)) as [Htodo|Htodo];
        [by apply Hin|].
      apply elem_of_cons in Hlabel as [->|Hlabel]; [|done].
      exists text, xs, ys, x, y. do 4 (split; [done|]).
      rewrite (Hnotin Htodo). apply lookup_insert_eq.
    + intros Hlabel. apply not_elem_of_cons in Hlabel as [Hne Hlabel].
      rewrite (Hnotin Hlabel). by apply lookup_insert_ne.
Qed.

Lemma gif_frames_spec (anchors_config : option ConfigParser)
    (pil_gif : list (Surface * Z)) :
  forall frame_index time_position frames,
    gif_frames anchors_config frame_index time_position pil_gif = Ok frames ->
    map surface frames = map fst pil_gif /\
    map duration frames = map snd pil_gif /\
    (Forall (fun sd => 0 <= sd.2) pil_gif -> timeline time_position frames) /\
    forall (k : nat) f,
      frames !! k = Some f ->
      match anchors_config with
      | None => anchors f = None
      | Some config =>
          exists labeled,
            LabeledSurfaceAnchors_init config (frame_index + Z.of_nat k)
              = Ok labeled /\
            anchors f = Some labeled
      end.
Proof.
  induction pil_gif as [|[frame_sprite dur] pil_gif IH];
    intros frame_index time_position frames Hframes.
  - simpl in Hframes. injection Hframes as <-. by repeat split.
  - cbn [gif_frames] in Hframes.
    destruct (match anchors_config with Some _ => _ | None => _ end)
      as [frame_anchors|e] eqn:Hanch; [|done]. cbn [rbind] in Hframes.
    destruct (gif_frames anchors_config (frame_index + 1)
                (time_position + dur) pil_gif) as [rest|e] eqn:Hrest; [|done].
    cbn [rbind] in Hframes. injection Hframes as <-.
    destruct (IH _ _ _ Hrest) as (Hsurf & Hdur & Htl & Hanchors).
    split; [simpl; by rewrite Hsurf|]. split; [simpl; by rewrite Hdur|].
    split.
    + intros [Hd Hnonneg]%Forall_cons. simpl in Hd.
      simpl. repeat split; [done|]. by apply Htl.
    + intros [|k] f Hf.
      * injection Hf as <-. simpl.
        destruct anchors_config as [config|].
        -- rewrite Z.add_0_r.
           destruct (LabeledSurfaceAnchors_init config frame_index)
             as [a|e]; [|done].
           simpl in Hanch. injection Hanch as <-. by exists a.
        -- by injection Hanch as <-.
      * specialize (Hanchors k f Hf).
        destruct anchors_config as [config|]; [|done].
        replace (frame_index + Z.of_nat (S k))
          with (frame_index + 1 + Z.of_nat k) by lia. done.
Qed.

Lemma gif_frames_without_config (pil_gif : list (Surface * Z)) :
  forall frame_index time_position,
    exists frames, gif_frames None frame_index time_position pil_gif = Ok frames.
Proof.
  induction pil_gif as [|[frame_sprite dur] pil_gif IH];
    intros frame_index time_position; simpl; [by eexists|].
  destruct (IH (frame_index + 1) (time_position + dur)) as [rest ->].
  by eexists.
Qed.
End gif_properties.

(** X4.  When [LabeledSurfaceAnchors] is built for a frame, it holds
    one anchor for every section of the configuration and nothing else:
    the anchor of a section is read from the entry of that section whose
    key is the frame index in decimal, split at its comma into two
    integers; asking for any other label raises [KeyError]. *)
Theorem labeled_anchors_cover_sections `{lib : PyLib}
    (anchors_config : ConfigParser) (frame_index : Z)
    (labeled : LabeledSurfaceAnchors) :
  LabeledSurfaceAnchors_init anchors_config frame_index = Ok labeled ->
  forall label,
    (label ∈ sections anchors_config ->
     exists text xs ys x y,
       config_get anchors_config label (pretty frame_index) = Ok text /\
       py_split "," text = [xs; ys] /\
       py_int xs = Ok x /\ py_int ys = Ok y /\
       LabeledSurfaceAnchors_getitem labeled label = Ok (mkAnchor x y)) /\
    (label ∉ sections anchors_config ->
     LabeledSurfaceAnchors_getitem labeled label = Raise KeyError).
Proof.
  intros Hinit label.
  destruct (labeled_anchors_spec _ _ _ _ _ Hinit label) as [Hin Hnotin].
  unfold LabeledSurfaceAnchors_getitem. split.
  - intros Hlabel.
    destruct (Hin Hlabel) as (text & xs & ys & x & y & ? & ? & ? & ? & Hlook).
    exists text, xs, ys, x, y. by rewrite Hlook.
  - intros Hlabel. rewrite (Hnotin Hlabel).
    unfold LabeledSurfaceAnchors. by rewrite lookup_empty.
Qed.

Lemma labeled_anchors_cover_sections_witness :
  LabeledSurfaceAnchors_init (lib := sample_lib) hat_document 1
    = Ok (<["head_anchor"%string := mkAnchor 5 6]> ∅) /\
  forall label,
    (label ∈ sections (PyLib := sample_lib) hat_document ->
     exists text xs ys x y,
       config_get (PyLib := sample_lib) hat_document label (pretty 1) = Ok text /\
       py_split "," text = [xs; ys] /\
       py_int (PyLib := sample_lib) xs = Ok x /\
       py_int (PyLib := sample_lib) ys = Ok y /\
       LabeledSurfaceAnchors_getitem
         (<["head_anchor"%string := mkAnchor 5 6]> ∅) label
         = Ok (mkAnchor x y)) /\
    (label ∉ sections (PyLib := sample_lib) hat_document ->
     LabeledSurfaceAnchors_getitem
       (<["head_anchor"%string := mkAnchor 5 6]> ∅) label = Raise KeyError).
Proof.
  split; [vm_refl|].
  apply (labeled_anchors_cover_sections (lib := sample_lib) hat_document 1).
  vm_refl.
Defined.

(** X5.  The frames [frames_from_gif] returns are the frames of the
    image, in order, with their surfaces and durations; when no
    duration is negative they follow one another from time 0.  Without
    a configuration no frame has anchors, and decoding cannot fail once
    the image itself is read; with one, frame number k carries the
    anchors built for index k. *)
Theorem frames_from_gif_follow_image `{lib : PyLib} (gif_bytes : string)
    (anchors_config : option ConfigParser)
    (frames : list AnimatedSpriteFrame) :
  frames_from_gif gif_bytes anchors_config = Ok frames ->
  exists pil_gif,
    Image_frames gif_bytes = Ok pil_gif /\
    map surface frames = map fst pil_gif /\
    map duration frames = map snd pil_gif /\
    (Forall (fun sd => 0 <= sd.2) pil_gif -> timeline 0 frames) /\
    (forall (k : nat) f,
       frames !! k = Some f ->
       match anchors_config with
       | None => anchors f = None
       | Some config =>
           exists labeled,
             LabeledSurfaceAnchors_init config (Z.of_nat k) = Ok labeled /\
             anchors f = Some labeled
       end) /\
    exists bare, frames_from_gif gif_bytes None = Ok bare.
Proof.
  unfold frames_from_gif.
  destruct (Image_frames gif_bytes) as [pil_gif|e]; [|done]. cbn [rbind].
  intros Hframes. exists pil_gif. split; [done|].
  destruct (gif_frames_spec _ _ _ _ _ Hframes) as (Hsurf & Hdur & Htl & Hanch).
  do 3 (split; [done|]). split; [exact Hanch|].
  apply gif_frames_without_config.
Qed.

Lemma frames_from_gif_follow_image_witness :
  exists pil_gif,
    Image_frames (PyLib := sample_lib) "dK" = Ok pil_gif /\
    map surface hat_frames = map fst pil_gif /\
    map duration hat_frames = map snd pil_gif /\
    (Forall (fun sd => 0 <= sd.2) pil_gif -> timeline 0 hat_frames) /\
    (forall (k : nat) f,
       hat_frames !! k = Some f ->
       exists labeled,
         LabeledSurfaceAnchors_init (lib := sample_lib) hat_document (Z.of_nat k)
           = Ok labeled /\
         anchors f = Some labeled) /\
    exists bare, frames_from_gif (lib := sample_lib) "dK" None = Ok bare.
Proof.
  apply (frames_from_gif_follow_image (lib := sample_lib) "dK"
           (Some hat_document) hat_frames).
  vm_refl.
Defined.

(** ** The resource cache *)

(** X6.  What step 1 of [Resource.__init__] leaves in the dictionary.
    From a directory: one entry per listed name, holding the [str] that
    the text-mode [open(path/name).read()] returned.  From a zip
    archive: one entry per listed name that is not empty, holding the
    bytes that the archive returned for it.  Nothing else is stored,
    and a name whose read fails makes the whole step fail. *)
Theorem read_container_contents `{lib : PyLib} (fs : FileSystem)
    (resource_category resource_name : string) (raw : gmap string Asset) :
  read_container fs resource_category resource_name = Ok raw ->
  let path :=
    path_join (path_join "resources" resource_category) resource_name in
  (isdir fs path = true ->
   forall k,
     (k ∈ listdir fs path ->
      exists text, open_read fs (path_join path k) = Ok text /\
                   raw !! k = Some (Text text)) /\
     (k ∉ listdir fs path -> raw !! k = None)) /\
  (isdir fs path = false ->
   exists names,
     zip_namelist fs (path +:+ ".zip") = Ok names /\
     forall k,
       (k ∈ names -> k <> EmptyString ->
        exists data, zip_open_read fs (path +:+ ".zip") k = Ok data /\
                     raw !! k = Some (Raw data)) /\
       (k ∉ names \/ k = EmptyString -> raw !! k = None)).
Proof.
  intros Hread path.
  unfold read_container in Hread. fold path in Hread. split.
  - intros Hdir. rewrite Hdir in Hread. intros k.
    destruct (read_directory_lookup fs path _ _ _ Hread k) as [Hin Hnotin].
    split; [done|]. intros Hk. by rewrite (Hnotin Hk), lookup_empty.
  - intros Hdir. rewrite Hdir in Hread.
    destruct (zip_namelist fs (path +:+ ".zip")) as [names|e]; [|done].
    cbn [rbind] in Hread. exists names. split; [done|]. intros k.
    destruct (read_zip_lookup fs _ _ _ _ Hread k) as [Hin Hnotin].
    split; [done|]. intros Hk. by rewrite (Hnotin Hk), lookup_empty.
Qed.

(** The hat as a directory, and [hero.zip]. *)
Lemma read_container_contents_witness :
  (read_container (lib := sample_lib) hat_directory "walkabouts" "hat"
     = Ok hat_text /\
   forall k,
     (k ∈ listdir hat_directory "resources/walkabouts/hat" ->
      exists text,
        open_read hat_directory (path_join "resources/walkabouts/hat" k)
          = Ok text /\
        hat_text !! k = Some (Text text)) /\
     (k ∉ listdir hat_directory "resources/walkabouts/hat" ->
      hat_text !! k = None)) /\
  (read_container (lib := sample_lib) hero_zip "walkabouts" "hero"
     = Ok hero_raw /\
   exists names,
     zip_namelist hero_zip ("resources/walkabouts/hero" +:+ ".zip") = Ok names /\
     forall k,
       (k ∈ names -> k <> EmptyString ->
        exists data,
          zip_open_read hero_zip ("resources/walkabouts/hero" +:+ ".zip") k
            = Ok data /\
          hero_raw !! k = Some (Raw data)) /\
       (k ∉ names \/ k = EmptyString -> hero_raw !! k = None)).
Proof.
  split; (split; [vm_refl|]).
  - apply (read_container_contents (lib := sample_lib) hat_directory
             "walkabouts" "hat" hat_text); [vm_refl|reflexivity].
  - apply (read_container_contents (lib := sample_lib) hero_zip
             "walkabouts" "hero" hero_raw); [vm_refl|reflexivity].
Defined.

(** X7.  The outcome of [Resource.__init__] does not depend on the
    order in which the dictionary yields its keys in the second loop:
    for any two orders the load fails under both, or succeeds under both
    with the same files. *)
Theorem resource_init_order_independent `{lib : PyLib} (fs : FileSystem)
    (keys_of keys_of' : gmap string Asset -> list string)
    (resource_category resource_name : string) :
  key_order keys_of -> key_order keys_of' ->
  to_option (Resource_init fs keys_of resource_category resource_name) =
  to_option (Resource_init fs keys_of' resource_category resource_name).
Proof.
  intros Hk Hk'. unfold Resource_init.
  destruct (read_container fs resource_category resource_name)
    as [raw|e] eqn:Hread; [|done]. cbn [rbind].
  apply (decode_pass_permutation raw).
  - by apply key_order_permutation.
  - apply Hk.
  - apply partly_decoded_refl.
  - done.
Qed.

Lemma resource_init_order_independent_witness :
  to_option (Resource_init (lib := sample_lib) hero_zip sorted_keys
               "walkabouts" "hero") =
  to_option (Resource_init (lib := sample_lib) hero_zip archive_keys
               "walkabouts" "hero").
Proof.
  apply (resource_init_order_independent (lib := sample_lib) hero_zip
           sorted_keys archive_keys "walkabouts" "hero").
  - apply sorted_keys_order.
  - apply archive_keys_order.
Defined.

(** X8.  A load is all or nothing.  [Resource.__init__] succeeds
    exactly when the handler of every raw entry succeeds on the raw
    dictionary, and then the files have the keys of the raw dictionary,
    each holding what its handler returned. *)
Theorem resource_load_all_or_nothing `{lib : PyLib} (fs : FileSystem)
    (keys_of : gmap string Asset -> list string)
    (resource_category resource_name : string) (raw : gmap string Asset) :
  key_order keys_of ->
  read_container fs resource_category resource_name = Ok raw ->
  ((exists files,
      Resource_init fs keys_of resource_category resource_name = Ok files) <->
   (forall k, is_Some (raw !! k) -> exists v, prepare raw k = Ok v)) /\
  (forall files,
     Resource_init fs keys_of resource_category resource_name = Ok files ->
     forall k,
       (raw !! k = None -> files !! k = None) /\
       (is_Some (raw !! k) ->
        exists v, prepare raw k = Ok v /\ files !! k = Some v)).
Proof.
  intros Hkeys Hread. unfold Resource_init. rewrite Hread. cbn [rbind].
  destruct (Hkeys raw) as [Hnodup Hin].
  assert (forall files,
            decode_pass (keys_of raw) raw = Ok files ->
            forall k,
              (raw !! k = None -> files !! k = None) /\
              (is_Some (raw !! k) ->
               exists v, prepare raw k = Ok v /\ files !! k = Some v))
    as Hlookup.
  { intros files Hpass k.
    destruct (decode_pass_lookup raw (keys_of raw) raw files Hnodup
                (partly_decoded_refl raw) ltac:(done) Hpass k) as [Hk Hnk].
    split.
    - intros Hnone. rewrite Hnk; [done|]. rewrite Hin, Hnone.
      by intros [? ?].
    - intros Hsome. apply Hk. by apply Hin. }
  split; [|exact Hlookup]. split.
  - intros [files Hpass] k Hsome.
    destruct (Hlookup files Hpass k) as [_ Hk].
    destruct (Hk Hsome) as (v & Hv & _). by exists v.
  - intros Hall.
    apply (decode_pass_succeeds raw (keys_of raw) raw Hnodup
             (partly_decoded_refl raw) ltac:(done)).
    intros k Hk. apply Hall. by apply Hin.
Qed.

Lemma resource_load_all_or_nothing_witness :
  ((exists files,
      Resource_init (lib := sample_lib) hero_zip sorted_keys
        "walkabouts" "hero" = Ok files) <->
   (forall k, is_Some (hero_raw !! k) -> exists v, prepare hero_raw k = Ok v)) /\
  (forall files,
     Resource_init (lib := sample_lib) hero_zip sorted_keys
       "walkabouts" "hero" = Ok files ->
     forall k,
       (hero_raw !! k = None -> files !! k = None) /\
       (is_Some (hero_raw !! k) ->
        exists v, prepare hero_raw k = Ok v /\ files !! k = Some v)).
Proof.
  apply (resource_load_all_or_nothing (lib := sample_lib) hero_zip
           sorted_keys "walkabouts" "hero" hero_raw).
  - apply sorted_keys_order.
  - vm_refl.
Defined.

Section typed_files.
Context `{lib : PyLib}.
Implicit Types raw files : gmap string Asset.

(** What the loop body makes of raw bytes, by extension. *)
Lemma prepare_raw_by_extension raw (k data : string) (v : Asset) :
  raw !! k = Some (Raw data) -> prepare raw k = Ok v ->
  ((splitext k).2 = ".png"%string -> v = BytesIO data) /\
  ((splitext k).2 = ".txt"%string ->
   exists text, utf8_decode data = Ok text /\ v = Text text) /\
  ((splitext k).2 = ".ini"%string ->
   exists text config,
     utf8_decode data = Ok text /\ readfp text = Ok config /\
     v = Config config) /\
  ((splitext k).2 = ".gif"%string ->
   exists config sprite,
     anchor_config raw k = Ok config /\
     from_file data config = Ok sprite /\ v = Sprite sprite /\
     frames sprite <> []) /\
  ((splitext k).2 <> ".ini"%string -> (splitext k).2 <> ".gif"%string ->
   (splitext k).2 <> ".png"%string -> (splitext k).2 <> ".txt"%string ->
   v = Raw data).
Proof.
  intros Hk. unfold prepare, files_getitem. rewrite Hk. cbn [rbind].
  unfold FROM_EXTENSION.
  destruct (String.eqb_spec (splitext k).2 ".ini") as [Hini|Hini].
  { unfold load_ini, files_getitem. rewrite Hk. cbn [rbind decode_utf8].
    destruct (utf8_decode data) as [text|e] eqn:Htext; [|done]. cbn [rbind].
    destruct (readfp text) as [config|e] eqn:Hconfig; [|done]. cbn [rbind].
    intros [= <-]. rewrite Hini.
    split; [done|]. split; [done|]. split; [|split; done].
    intros _. by exists text, config. }
  destruct (String.eqb_spec (splitext k).2 ".gif") as [Hgif|Hgif].
  { unfold load_gif, files_getitem. rewrite Hk. cbn [rbind as_bytes].
    destruct (anchor_config raw k) as [config|e] eqn:Hconfig; [|done].
    cbn [rbind].
    destruct (from_file data config) as [sprite|e] eqn:Hsprite; [|done].
    cbn [rbind]. intros [= <-]. rewrite Hgif.
    split; [done|]. split; [done|]. split; [done|]. split; [|done].
    intros _. exists config, sprite. do 3 (split; [done|]).
    unfold from_file in Hsprite.
    destruct (frames_from_gif data config) as [fs|e]; [|done].
    cbn [rbind] in Hsprite.
    destruct (AnimatedSprite_init_Ok fs sprite Hsprite) as (-> & _ & _ & _ & Hne).
    done. }
  destruct (String.eqb_spec (splitext k).2 ".png") as [Hpng|Hpng].
  { unfold load_png, files_getitem. rewrite Hk. cbn [rbind as_bytes].
    intros [= <-]. rewrite Hpng. by repeat split. }
  destruct (String.eqb_spec (splitext k).2 ".txt") as [Htxt|Htxt].
  { unfold load_txt, files_getitem. rewrite Hk. cbn [rbind decode_utf8].
    destruct (utf8_decode data) as [text|e] eqn:Htext; [|done]. cbn [rbind].
    intros [= <-]. rewrite Htxt.
    split; [done|]. split; [|by repeat split].
    intros _. by exists text. }
  intros [= <-]. by repeat split.
Qed.

Lemma get_type_lookup files (file_extension : string) :
  match get_type files file_extension with
  | None =>
      forall k, is_Some (files !! k) -> (splitext k).2 <> file_extension
  | Some matching_files =>
      (exists k, is_Some (matching_files !! k)) /\
      forall k v,
        matching_files !! k = Some v <->
        files !! k = Some v /\ (splitext k).2 = file_extension
  end.
Proof.
  unfold get_type.
  set (m := filter (fun kv => (splitext kv.1).2 = file_extension) files).
  destruct (decide (m = ∅)) as [Hempty|Hne].
  - intros k [v Hv] Hext.
    assert (m !! k = Some v) as Hm.
    { subst m. by apply map_lookup_filter_Some. }
    by rewrite Hempty, lookup_empty in Hm.
  - split.
    + destruct (map_choose m Hne) as (k & v & Hkv). exists k. by exists v.
    + intros k v. subst m. by rewrite map_lookup_filter_Some.
Qed.
End typed_files.

(** X10.  In a loaded resource the kind of every file follows from
    where it was read and from its extension, compared as [splitext]
    returns it, case included.  Read from an archive, the file was
    bytes: [.png] holds them as a stream, [.txt] the decoded text,
    [.ini] the parsed configuration, [.gif] an animated sprite with at
    least one frame, and a file with any other extension still holds
    the bytes.  Read from a directory, the file was a [str], no handler
    is registered for its extension, and it still holds that [str]. *)
Theorem resource_files_typed_by_extension `{lib : PyLib} (fs : FileSystem)
    (keys_of : gmap string Asset -> list string)
    (resource_category resource_name : string)
    (files : gmap string Asset) :
  key_order keys_of ->
  Resource_init fs keys_of resource_category resource_name = Ok files ->
  let path :=
    path_join (path_join "resources" resource_category) resource_name in
  forall k v,
    files !! k = Some v ->
    exists read,
      (let* raw := read_container fs resource_category resource_name in
       files_getitem raw k) = Ok read /\
      (isdir fs path = false -> exists data, read = Raw data) /\
      (isdir fs path = true ->
       exists text,
         read = Text text /\ v = Text text /\
         FROM_EXTENSION (splitext k).2 = None) /\
      ((splitext k).2 = ".png"%string ->
       exists data, read = Raw data /\ v = BytesIO data) /\
      ((splitext k).2 = ".txt"%string ->
       exists data text,
         read = Raw data /\ utf8_decode data = Ok text /\ v = Text text) /\
      ((splitext k).2 = ".ini"%string ->
       exists data text config,
         read = Raw data /\
         utf8_decode data = Ok text /\ readfp text = Ok config /\
         v = Config config) /\
      ((splitext k).2 = ".gif"%string ->
       exists data sprite,
         read = Raw data /\ v = Sprite sprite /\ frames sprite <> []) /\
      ((splitext k).2 <> ".ini"%string -> (splitext k).2 <> ".gif"%string ->
       (splitext k).2 <> ".png"%string -> (splitext k).2 <> ".txt"%string ->
       v = read).
Proof.
  intros Hkeys Hinit path k v Hv.
  destruct (read_container fs resource_category resource_name)
    as [raw|e] eqn:Hread; [|by unfold Resource_init in Hinit; rewrite Hread in Hinit].
  destruct (resource_load_all_or_nothing_lookup fs keys_of resource_category
              resource_name raw files Hkeys Hread Hinit k) as [Hnone Hsome].
  destruct (raw !! k) as [r|] eqn:Hr;
    [|by rewrite (Hnone eq_refl) in Hv].
  destruct (Hsome ltac:(by eexists)) as (v' & Hprep & Hv').
  rewrite Hv in Hv'. injection Hv' as <-.
  exists r. cbn [rbind]. unfold files_getitem. rewrite Hr.
  split; [done|].
  pose proof (read_container_entries fs resource_category resource_name raw
                Hread) as Hentries.
  fold path in Hentries.
  destruct (isdir fs path) eqn:Hdir.
  - destruct (Hentries k r Hr) as [text ->].
    pose proof (prepare_text raw k text Hr) as Hcase.
    destruct (FROM_EXTENSION (splitext k).2) as [handler|] eqn:Hext.
    { destruct Hcase as (e & He & _). congruence. }
    assert (v = Text text) as -> by congruence.
    split; [done|]. split; [intros _; by exists text|].
    unfold FROM_EXTENSION in Hext.
    repeat split; try done; intros Hk; rewrite Hk in Hext; done.
  - destruct (Hentries k r Hr) as [data ->].
    destruct (prepare_raw_by_extension raw k data v Hr Hprep)
      as (Hpng & Htxt & Hini & Hgif & Hother).
    split; [intros _; by exists data|]. split; [done|].
    split; [intros Hext; exists data; by rewrite (Hpng Hext)|].
    split.
    { intros Hext. destruct (Htxt Hext) as (text & ? & ->).
      by exists data, text. }
    split.
    { intros Hext. destruct (Hini Hext) as (text & config & ? & ? & ->).
      by exists data, text, config. }
    split; [|done].
    intros Hext. destruct (Hgif Hext) as (config & sprite & _ & _ & -> & Hne).
    by exists data, sprite.
Qed.

(** [hero.zip], and the notes, a directory that loads. *)
Lemma resource_files_typed_by_extension_witness :
  (Resource_init (lib := sample_lib) hero_zip sorted_keys "walkabouts" "hero"
     = Ok hero_files /\
   forall k v,
     hero_files !! k = Some v ->
     exists read,
       (let* raw := read_container (lib := sample_lib) hero_zip
                      "walkabouts" "hero" in
        files_getitem raw k) = Ok read /\
       (exists data, read = Raw data) /\
       ((splitext k).2 = ".txt"%string ->
        exists data text,
          read = Raw data /\
          utf8_decode (PyLib := sample_lib) data = Ok text /\ v = Text text) /\
       ((splitext k).2 = ".ini"%string ->
        exists data text config,
          read = Raw data /\
          utf8_decode (PyLib := sample_lib) data = Ok text /\
          readfp (PyLib := sample_lib) text = Ok config /\
          v = Config config) /\
       ((splitext k).2 = ".gif"%string ->
        exists data sprite,
          read = Raw data /\ v = Sprite sprite /\ frames sprite <> [])) /\
  (Resource_init (lib := sample_lib) notes_directory sorted_keys
     "scenes" "notes" = Ok notes_text /\
   forall k v,
     notes_text !! k = Some v ->
     exists text,
       v = Text text /\
       FROM_EXTENSION (lib := sample_lib) (splitext k).2 = None).
Proof.
  split; (split; [vm_refl|]).
  - intros k v Hkv.
    destruct (resource_files_typed_by_extension (lib := sample_lib) hero_zip
                sorted_keys "walkabouts" "hero" hero_files
                sorted_keys_order ltac:(vm_refl) k v Hkv)
      as (read & Hread & Hzip & _ & _ & Htxt & Hini & Hgif & _).
    exists read. split; [exact Hread|]. split; [by apply Hzip|].
    by repeat split.
  - intros k v Hkv.
    destruct (resource_files_typed_by_extension (lib := sample_lib)
                notes_directory sorted_keys "scenes" "notes" notes_text
                sorted_keys_order ltac:(vm_refl) k v Hkv)
      as (read & _ & _ & Hdir & _).
    destruct (Hdir eq_refl) as (text & _ & -> & Hnone).
    by exists text.
Defined.

(** ** The grid of a Walkabout *)

Lemma dict_get_set_eq {K V : Type} `{EqDecision K} (d : list (K * V)) (k : K) (v : V) :
  dict_get (dict_set d k v) k = Some v.
Proof.
  induction d as [|[k' v'] d IH]; simpl.
  - by rewrite decide_True.
  - destruct (decide (k' = k)) as [->|Hne]; simpl.
    + by rewrite decide_True.
    + by rewrite decide_False.
Qed.

Lemma dict_get_set_ne {K V : Type} `{EqDecision K} (d : list (K * V))
    (k k' : K) (v : V) :
  k <> k' -> dict_get (dict_set d k v) k' = dict_get d k'.
Proof.
  intros Hne. induction d as [|[k0 v0] d IH]; simpl.
  - by rewrite decide_False.
  - destruct (decide (k0 = k)) as [->|Hk0]; simpl.
    + by rewrite !decide_False.
    + destruct (decide (k0 = k')); [done|]. exact IH.
Qed.

Section walkabout_grid.
Context `{lib : PyLib} `{consts : Constants}.

Lemma grid_get_set_animation
    (animations : list (Action * list (Direction * Asset)))
    (action action' : Action) (direction direction' : Direction)
    (animation : Asset) :
  grid_get (set_animation animations action direction animation)
    action' direction' =
  if decide (action = action' /\ direction = direction')
  then Some animation
  else grid_get animations action' direction'.
Proof.
  unfold grid_get, set_animation.
  destruct (decide (action = action')) as [<-|Hne].
  - destruct (dict_get animations action) as [by_direction|] eqn:Hrow;
      rewrite dict_get_set_eq.
    + destruct (decide (direction = direction')) as [<-|Hd].
      * rewrite decide_True by done. apply dict_get_set_eq.
      * rewrite decide_False by tauto. by apply dict_get_set_ne.
    + simpl. destruct (decide (direction = direction')) as [<-|Hd].
      * by rewrite decide_True.
      * by rewrite decide_False by tauto.
  - rewrite decide_False by tauto.
    destruct (dict_get animations action);
      by rewrite dict_get_set_ne.
Qed.

(** What the loop leaves in the grid: a cell holds the asset of the
    last path that names it. *)
Lemma load_sprites_grid (sprite_files : gmap string Asset)
    (sprite_paths : list string) :
  forall animations actions directions animation out,
    load_sprites sprite_files sprite_paths animations actions directions
      animation = Ok out ->
    forall action direction,
      ((forall q, q ∈ sprite_paths ->
          parse_sprite_path q <> Ok (action, direction)) ->
       grid_get out.1.1.1 action direction
         = grid_get animations action direction) /\
      (forall p,
         p ∈ sprite_paths ->
         parse_sprite_path p = Ok (action, direction) ->
         (forall q, q ∈ sprite_paths ->
            parse_sprite_path q = Ok (action, direction) -> q = p) ->
         grid_get out.1.1.1 action direction = sprite_files !! p).
Proof.
  induction sprite_paths as [|x paths IH];
    intros animations actions directions animation out Hload action direction.
  - simpl in Hload. injection Hload as <-. split; [done|].
    intros p Hp. by apply elem_of_nil in Hp.
  - cbn [load_sprites] in Hload.
    destruct (parse_sprite_path x) as [[a d]|e] eqn:Hx; [|done].
    cbn [rbind] in Hload. unfold files_getitem in Hload.
    destruct (sprite_files !! x) as [v|] eqn:Hv; [|done]. cbn [rbind] in Hload.
    destruct (IH _ _ _ _ _ Hload action direction) as [Hnone Hsome]. split.
    + intros Hno. rewrite Hnone.
      * rewrite grid_get_set_animation, decide_False; [done|].
        intros [-> ->]. apply (Hno x); [by left|done].
      * intros q Hq. apply Hno. by right.
    + intros p Hp Hparse Huniq.
      destruct (decide (p ∈ paths)) as [Hin|Hnotin].
      * apply Hsome; [done..|]. intros q Hq. apply Huniq. by right.
      * apply elem_of_cons in Hp as [->|Hp]; [|done].
        rewrite Hnone.
        -- rewrite grid_get_set_animation, decide_True; [done|].
           rewrite Hx in Hparse. by injection Hparse as -> ->.
        -- intros q Hq Hqparse.
           assert (q = x) as -> by (apply Huniq; [by right|done]). done.
Qed.

(** The lists [actions] and [directions] record what each path was
    parsed to, in order. *)
Lemma load_sprites_lists (sprite_files : gmap string Asset)
    (sprite_paths : list string) :
  forall animations actions directions animation out,
    load_sprites sprite_files sprite_paths animations actions directions
      animation = Ok out ->
    exists parsed,
      Forall2 (fun p ad => parse_sprite_path p = Ok ad) sprite_paths parsed /\
      out.1.1.2 = actions ++ parsed.*1 /\
      out.1.2 = directions ++ parsed.*2.
Proof.
  induction sprite_paths as [|x paths IH];
    intros animations actions directions animation out Hload.
  - simpl in Hload. injection Hload as <-. exists []. simpl.
    by rewrite !app_nil_r.
  - cbn [load_sprites] in Hload.
    destruct (parse_sprite_path x) as [[a d]|e] eqn:Hx; [|done].
    cbn [rbind] in Hload. unfold files_getitem in Hload.
    destruct (sprite_files !! x) as [v|] eqn:Hv; [|done]. cbn [rbind] in Hload.
    destruct (IH _ _ _ _ _ Hload) as (parsed & Hall & Hact & Hdir).
    exists ((a, d) :: parsed). split; [by constructor|].
    rewrite Hact, Hdir. simpl. by rewrite <- !app_assoc.
Qed.

Lemma Walkabout_of_resource_Ok
    (keys_of : gmap string Asset -> list string)
    (files : gmap string Asset) (directory : string)
    (position : option (Z * Z)) (topleft_float : Float * Float)
    (children : list Walkabout) (w : Walkabout) :
  Walkabout_of_resource keys_of files directory position topleft_float
    children = Ok w ->
  exists sprite_files animations actions directions animation size rect image,
    get_type files ".gif" = Some sprite_files /\
    load_sprites sprite_files (keys_of sprite_files) [] [] [] None
      = Ok (animations, actions, directions, animation) /\
    asset_largest_frame_size animation = Ok size /\
    pygame_Rect (default (0, 0) position) size = Some rect /\
    grid_get animations Action_stand Direction_south = Some image /\
    w = mkWalkabout animations actions directions size rect topleft_float
          Action_stand Direction_south children image files.
Proof.
  unfold Walkabout_of_resource.
  destruct (get_type files ".gif") as [sprite_files|]; [|done].
  destruct (load_sprites _ _ _ _ _ _)
    as [[[[animations actions] directions] animation]|e] eqn:Hload; [|done].
  cbn [rbind].
  destruct (asset_largest_frame_size animation) as [size|e] eqn:Hsize; [|done].
  cbn [rbind].
  destruct (pygame_Rect _ size) as [rect|] eqn:Hrect; [|done].
  destruct (dict_get animations Action_stand) as [by_direction|] eqn:Hrow;
    [|done].
  destruct (dict_get by_direction Direction_south) as [image|] eqn:Hcell;
    [|done].
  intros [= <-].
  exists sprite_files, animations, actions, directions, animation, size, rect,
    image.
  do 4 (split; [done|]). split; [|done].
  unfold grid_get. by rewrite Hrow.
Qed.

(** [Walkabout.__init__] succeeds through its three stages. *)
Lemma Walkabout_init_Ok (fs : FileSystem)
    (keys_of : gmap string Asset -> list string)
    (directory : string) (position : option (Z * Z))
    (children : list Walkabout) (w : Walkabout) :
  Walkabout_init fs keys_of directory position children = Ok w ->
  exists topleft_float files,
    topleft_float_of (default (0, 0) position) = Ok topleft_float /\
    Resource_init fs keys_of "walkabouts" directory = Ok files /\
    Walkabout_of_resource keys_of files directory position topleft_float
      children = Ok w.
Proof.
  unfold Walkabout_init.
  destruct (topleft_float_of _) as [topleft_float|e]; [|done]. cbn [rbind].
  destruct (Resource_init _ _ _ _) as [files|e]; [|done]. cbn [rbind].
  intros Hw. by exists topleft_float, files.
Qed.

End walkabout_grid.

(** X11.  In a Walkabout that was constructed, [walkabout[action][direction]]
    is the asset of the GIF whose name parses to that action and
    direction, when one GIF names the pair; a pair that no GIF names has
    no entry.  The lists [actions] and [directions] hold what each GIF
    name was parsed to, one entry per GIF in dictionary order.  The
    Walkabout starts on (stand, south) and its image is the animation
    of that pair.  Its rectangle is what [pygame.Rect] made of the
    given position, or of (0, 0) when none is given, and of the size:
    where these are C integers and [pygame.Rect] is exact on them, the
    rectangle is the size at that position. *)
Theorem walkabout_grid_holds_parsed_files
    `{lib : PyLib} `{consts : Constants}
    (keys_of : gmap string Asset -> list string)
    (files : gmap string Asset) (directory : string)
    (position : option (Z * Z)) (topleft_float : Float * Float)
    (children : list Walkabout) (w : Walkabout) :
  key_order keys_of ->
  Walkabout_of_resource keys_of files directory position topleft_float
    children = Ok w ->
  exists sprite_files parsed,
    get_type files ".gif" = Some sprite_files /\
    Forall2 (fun p ad => parse_sprite_path p = Ok ad)
      (keys_of sprite_files) parsed /\
    actions_of w = parsed.*1 /\ directions_of w = parsed.*2 /\
    (forall p action direction,
       is_Some (sprite_files !! p) ->
       parse_sprite_path p = Ok (action, direction) ->
       (forall q, is_Some (sprite_files !! q) ->
          parse_sprite_path q = Ok (action, direction) -> q = p) ->
       grid_get (animations_of w) action direction = files !! p) /\
    (forall action direction,
       (forall q, is_Some (sprite_files !! q) ->
          parse_sprite_path q <> Ok (action, direction)) ->
       grid_get (animations_of w) action direction = None) /\
    action_of w = Action_stand /\ direction_of w = Direction_south /\
    current_animation w = Ok (image_of w) /\
    child_walkabouts_of w = children /\
    topleft_float_of_walkabout w = topleft_float /\
    pygame_Rect (default (0, 0) position) (size_of w) = Some (rect_of w) /\
    (exact_on_c_ints ->
     c_int (default (0, 0) position).1 ->
     c_int (default (0, 0) position).2 ->
     c_int (size_of w).1 -> c_int (size_of w).2 ->
     rect_of w = mkRect (default (0, 0) position) (size_of w)).
Proof.
  intros Hkeys Hw.
  destruct (Walkabout_of_resource_Ok keys_of files directory position
              topleft_float children w Hw)
    as (sprite_files & animations & actions & directions & animation & size
        & rect & image & Htype & Hload & Hsize & Hrect & Himage & ->).
  destruct (load_sprites_lists _ _ _ _ _ _ _ Hload) as (parsed & Hparsed & Hact & Hdir).
  cbn [fst snd] in Hact, Hdir.
  exists sprite_files, parsed. do 2 (split; [done|]).
  cbn [actions_of directions_of animations_of action_of direction_of
       child_walkabouts_of rect_of size_of image_of
       topleft_float_of_walkabout].
  do 2 (split; [done|]).
  destruct (Hkeys sprite_files) as [_ Hin].
  pose proof (get_type_lookup files ".gif") as Hfilter. rewrite Htype in Hfilter.
  destruct Hfilter as [_ Hfilter].
  split; [|split].
  - intros p action direction Hp Hparse Huniq.
    destruct (load_sprites_grid _ _ _ _ _ _ _ Hload action direction)
      as [_ Hsome]. cbn [fst] in Hsome.
    rewrite (Hsome p); [| by apply Hin | done |].
    + destruct Hp as [v Hv]. rewrite Hv. symmetry. by apply Hfilter.
    + intros q Hq. apply Huniq. by apply Hin.
  - intros action direction Hno.
    destruct (load_sprites_grid _ _ _ _ _ _ _ Hload action direction)
      as [Hnone _]. cbn [fst] in Hnone.
    rewrite Hnone; [done|]. intros q Hq. apply Hno. by apply Hin.
  - do 2 (split; [done|]). split; [|do 3 (split; [done|])].
    + unfold current_animation, Walkabout_getitem.
      cbn [animations_of action_of direction_of].
      unfold grid_get in Himage.
      destruct (dict_get animations Action_stand) as [by_direction|]; [|done].
      cbn [rbind]. by rewrite Himage.
    + intros (Hexact & _ & _) Hx Hy Hwidth Hheight.
      destruct (default (0, 0) position) as [x y]. destruct size as [sw sh].
      rewrite (Hexact x y sw sh Hx Hy Hwidth Hheight) in Hrect.
      by injection Hrect as <-.
Qed.

(** The stand-ins are exact on C integers. *)
Lemma sample_exact_on_c_ints : exact_on_c_ints (lib := sample_lib).
Proof.
  assert (- 2 ^ 63 <= - 2 ^ 31) as Hlong_low by (by vm_compute).
  assert (2 ^ 31 <= 2 ^ 63) as Hlong_high by (by vm_compute).
  assert (2 ^ 31 + 2 ^ 31 = 2 ^ 32) as Hdouble by (by vm_compute).
  assert (0 < 2 ^ 31) as Hpositive by (by vm_compute).
  assert (forall z, c_int z -> is_c_long z = true) as Hfits.
  { intros z [Hlow Hhigh]. unfold is_c_long.
    apply andb_true_intro. split; [apply Z.leb_le|apply Z.ltb_lt]; lia. }
  assert (forall z, c_int z -> to_c_int z = z) as Hkept.
  { intros z [Hlow Hhigh]. unfold to_c_int.
    rewrite Z.mod_small by lia. lia. }
  unfold exact_on_c_ints. split; [|split].
  - intros x y w h Hx Hy Hw Hh. cbn [pygame_Rect sample_lib].
    unfold sample_Rect. cbn [fst snd].
    rewrite (Hfits x Hx), (Hfits y Hy), (Hfits w Hw), (Hfits h Hh).
    cbn [andb].
    by rewrite (Hkept x Hx), (Hkept y Hy), (Hkept w Hw), (Hkept h Hh).
  - intros z [Hlow Hhigh]. cbn [py_float sample_lib]. unfold sample_float.
    cbn zeta.
    assert (Z.log2 (Z.abs z) <= Z.log2 (2 ^ 31)) as Hlog
      by (apply Z.log2_le_mono; lia).
    change (Z.log2 (2 ^ 31)) with 31 in Hlog.
    destruct (Z.leb_spec (Z.log2 (Z.abs z) - 52) 0); [by eexists|lia].
  - intros data pil_gif. cbn [Image_frames sample_lib].
    unfold sample_Image_frames.
    destruct (chars data) as [|c cs] eqn:Hchars; [done|]. intros [= <-].
    apply (proj2 (List.Forall_map sample_frame _ (c :: cs))).
    apply Forall_forall. intros c' _.
    unfold sample_frame, c_int. cbn [fst surf_width surf_height].
    pose proof (N_ascii_bounded c') as Hc.
    assert (0 <= Z.of_N (N_of_ascii c') < 256) as Hbound by lia.
    assert (16 < 2 ^ 31) as Hhigh by (by vm_compute).
    split.
    + pose proof (Z.div_pos (Z.of_N (N_of_ascii c')) 16 ltac:(lia) ltac:(lia)).
      pose proof (Z.div_lt_upper_bound (Z.of_N (N_of_ascii c')) 16 16
                    ltac:(lia) ltac:(lia)). lia.
    + pose proof (Z.mod_pos_bound (Z.of_N (N_of_ascii c')) 16 ltac:(lia)). lia.
Qed.

(** The hat: one GIF, at (0, 0). *)
Lemma walkabout_grid_holds_parsed_files_witness :
  exists sprite_files parsed,
    get_type (lib := sample_lib) hat_after_ini_and_gif ".gif"
      = Some sprite_files /\
    Forall2 (fun p ad => parse_sprite_path (consts := spec_constants) p = Ok ad)
      (sorted_keys sprite_files) parsed /\
    actions_of hat_walkabout = parsed.*1 /\
    directions_of hat_walkabout = parsed.*2 /\
    (forall p action direction,
       is_Some (sprite_files !! p) ->
       parse_sprite_path p = Ok (action, direction) ->
       (forall q, is_Some (sprite_files !! q) ->
          parse_sprite_path q = Ok (action, direction) -> q = p) ->
       grid_get (animations_of hat_walkabout) action direction
         = hat_after_ini_and_gif !! p) /\
    (forall action direction,
       (forall q, is_Some (sprite_files !! q) ->
          parse_sprite_path q <> Ok (action, direction)) ->
       grid_get (animations_of hat_walkabout) action direction = None) /\
    action_of hat_walkabout = stand /\ direction_of hat_walkabout = south /\
    current_animation hat_walkabout = Ok (image_of hat_walkabout) /\
    child_walkabouts_of hat_walkabout = [] /\
    rect_of hat_walkabout = mkRect (0, 0) (size_of hat_walkabout).
Proof.
  destruct (walkabout_grid_holds_parsed_files (lib := sample_lib)
              (consts := spec_constants) sorted_keys hat_after_ini_and_gif
              "hat" None (0, 0) [] hat_walkabout sorted_keys_order
              ltac:(vm_refl))
    as (sprite_files & parsed & H1 & H2 & H3 & H4 & H5 & H6 & H7 & H8 & H9
        & H10 & _ & _ & Hexact).
  exists sprite_files, parsed.
  do 10 (split; [assumption|]).
  apply Hexact; [apply sample_exact_on_c_ints|..]; unfold c_int;
    vm_compute; split; congruence.
Defined.

(** ** When construction succeeds *)

Section walkabout_success.
Context `{lib : PyLib} `{consts : Constants}.

Lemma load_sprites_succeeds (sprite_files : gmap string Asset)
    (sprite_paths : list string) :
  (forall p, p ∈ sprite_paths -> is_Some (sprite_files !! p)) ->
  (forall p, p ∈ sprite_paths -> exists ad, parse_sprite_path p = Ok ad) ->
  forall animations actions directions animation,
  exists out,
    load_sprites sprite_files sprite_paths animations actions directions
      animation = Ok out.
Proof.
  induction sprite_paths as [|x paths IH];
    intros Hkeys Hparse animations actions directions animation;
    [by eexists|].
  cbn [load_sprites].
  destruct (Hparse x) as [[a d] ->]; [by left|]. cbn [rbind].
  destruct (Hkeys x) as [v Hv]; [by left|].
  unfold files_getitem. rewrite Hv. cbn [rbind].
  apply IH; intros p Hp; [apply Hkeys|apply Hparse]; by right.
Qed.

(** A cell that some path names holds the asset of one such path. *)
Lemma load_sprites_grid_some (sprite_files : gmap string Asset)
    (sprite_paths : list string) (action : Action) (direction : Direction) :
  forall animations actions directions animation out,
    load_sprites sprite_files sprite_paths animations actions directions
      animation = Ok out ->
    (exists p, p ∈ sprite_paths /\
               parse_sprite_path p = Ok (action, direction)) ->
    exists q v,
      q ∈ sprite_paths /\ parse_sprite_path q = Ok (action, direction) /\
      sprite_files !! q = Some v /\
      grid_get out.1.1.1 action direction = Some v.
Proof.
  induction sprite_paths as [|x paths IH];
    intros animations actions directions animation out Hload (p & Hp & Hparse).
  - by apply elem_of_nil in Hp.
  - pose proof Hload as Hload'. cbn [load_sprites] in Hload.
    destruct (parse_sprite_path x) as [[a d]|e] eqn:Hx; [|done].
    cbn [rbind] in Hload. unfold files_getitem in Hload.
    destruct (sprite_files !! x) as [v|] eqn:Hv; [|done]. cbn [rbind] in Hload.
    destruct (decide (Exists (fun q => parse_sprite_path q = Ok (action, direction))
                        paths)) as [Hex|Hnex].
    + apply Exists_exists in Hex as (q & Hq & Hqparse).
      destruct (IH _ _ _ _ _ Hload) as (q' & v' & Hq' & ? & ? & ?);
        [by exists q|].
      exists q', v'. split; [by right|done].
    + assert (forall q, q ∈ paths ->
                parse_sprite_path q <> Ok (action, direction)) as Hno.
      { intros q Hq Hqparse. apply Hnex, Exists_exists. by exists q. }
      apply elem_of_cons in Hp as [->|Hp]; [|by destruct (Hno p Hp)].
      rewrite Hx in Hparse. injection Hparse as -> ->.
      exists x, v. split; [by left|]. do 2 (split; [done|]).
      destruct (load_sprites_grid _ _ _ _ _ _ _ Hload action direction)
        as [Hnone _].
      rewrite (Hnone Hno), grid_get_set_animation. by rewrite decide_True.
Qed.

Lemma load_sprites_grid_none (sprite_files : gmap string Asset)
    (sprite_paths : list string) (action : Action) (direction : Direction) :
  forall out,
    load_sprites sprite_files sprite_paths [] [] [] None = Ok out ->
    is_Some (grid_get out.1.1.1 action direction) ->
    exists p, p ∈ sprite_paths /\ parse_sprite_path p = Ok (action, direction).
Proof.
  intros out Hload Hsome.
  destruct (decide (Exists (fun q => parse_sprite_path q = Ok (action, direction))
                      sprite_paths)) as [Hex|Hnex].
  - apply Exists_exists in Hex as (q & Hq & Hqparse). by exists q.
  - destruct (load_sprites_grid _ _ _ _ _ _ _ Hload action direction)
      as [Hnone _].
    rewrite Hnone in Hsome.
    + by destruct Hsome.
    + intros q Hq Hqparse. apply Hnex, Exists_exists. by exists q.
Qed.
End walkabout_success.

(** In a loaded resource a [.gif] entry is an animated sprite, made
    by [from_file] of the bytes that were read. *)
Lemma resource_gif_entries_from_file `{lib : PyLib} (fs : FileSystem)
    (keys_of : gmap string Asset -> list string)
    (resource_category resource_name : string)
    (files : gmap string Asset) :
  key_order keys_of ->
  Resource_init fs keys_of resource_category resource_name = Ok files ->
  forall k v,
    files !! k = Some v -> (splitext k).2 = ".gif"%string ->
    exists data config sprite,
      from_file data config = Ok sprite /\ v = Sprite sprite.
Proof.
  intros Hkeys Hinit k v Hv Hext.
  destruct (read_container fs resource_category resource_name)
    as [raw|e] eqn:Hread;
    [|by unfold Resource_init in Hinit; rewrite Hread in Hinit].
  destruct (resource_load_all_or_nothing_lookup fs keys_of resource_category
              resource_name raw files Hkeys Hread Hinit k) as [Hnone Hsome].
  destruct (raw !! k) as [r|] eqn:Hr; [|by rewrite (Hnone eq_refl) in Hv].
  destruct (Hsome ltac:(by eexists)) as (v' & Hprep & Hv').
  rewrite Hv in Hv'. injection Hv' as <-.
  pose proof (read_container_entries fs resource_category resource_name raw
                Hread) as Hentries.
  destruct (isdir fs _).
  - destruct (Hentries k r Hr) as [text ->].
    pose proof (prepare_text raw k text Hr) as Hcase.
    rewrite Hext in Hcase. cbn in Hcase.
    destruct Hcase as (e & He & _). congruence.
  - destruct (Hentries k r Hr) as [data ->].
    destruct (prepare_raw_by_extension raw k data v Hr Hprep)
      as (_ & _ & _ & Hgif & _).
    destruct (Hgif Hext) as (config & sprite & _ & Hfrom & -> & _).
    by exists data, config, sprite.
Qed.

Lemma resource_gif_entries_are_sprites `{lib : PyLib} (fs : FileSystem)
    (keys_of : gmap string Asset -> list string)
    (resource_category resource_name : string)
    (files : gmap string Asset) :
  key_order keys_of ->
  Resource_init fs keys_of resource_category resource_name = Ok files ->
  forall k v,
    files !! k = Some v -> (splitext k).2 = ".gif"%string ->
    exists sprite, v = Sprite sprite.
Proof.
  intros Hkeys Hinit k v Hv Hext.
  destruct (resource_gif_entries_from_file fs keys_of resource_category
              resource_name files Hkeys Hinit k v Hv Hext)
    as (data & config & sprite & _ & ->).
  by exists sprite.
Qed.

(** The size of a sprite that [from_file] made is the size of a surface
    of the image, or (0, 0): C integers. *)
Lemma from_file_size `{lib : PyLib} (data : string)
    (config : option ConfigParser) (sprite : AnimatedSprite) :
  exact_on_c_ints ->
  from_file data config = Ok sprite ->
  c_int (largest_frame_size sprite).1 /\ c_int (largest_frame_size sprite).2.
Proof.
  intros (_ & _ & Hsizes) Hfrom. unfold from_file in Hfrom.
  destruct (frames_from_gif data config) as [fs|e] eqn:Hframes; [|done].
  cbn [rbind] in Hfrom.
  destruct (AnimatedSprite_init_Ok fs sprite Hfrom) as (Hfs & _).
  unfold frames_from_gif in Hframes.
  destruct (Image_frames data) as [pil_gif|e] eqn:Himage; [|done].
  cbn [rbind] in Hframes.
  destruct (gif_frames_spec config pil_gif 0 0 fs Hframes) as (Hsurfaces & _).
  specialize (Hsizes data pil_gif Himage).
  destruct (largest_frame_size_spec sprite) as [_ [->|(f & Hf & ->)]].
  - unfold c_int. cbn [fst snd]. by vm_compute.
  - rewrite Hfs in Hf.
    assert (In (surface f) (map fst pil_gif)) as Hin.
    { rewrite <- Hsurfaces. by apply in_map, list_elem_of_In. }
    apply in_map_iff in Hin as (sd & Hsd & Hin).
    apply list_elem_of_In in Hin.
    rewrite Forall_forall in Hsizes. specialize (Hsizes sd Hin).
    unfold get_size. cbn [fst snd]. by rewrite <- Hsd.
Qed.

(** X12.  For a position of C integers, or none, and libraries that
    are exact on C integers, [Walkabout.__init__] succeeds exactly when
    the resource loads, holds at least one GIF, every GIF name parses,
    and some GIF name parses to (stand, south).  In particular a
    resource whose GIFs all parse but none of which is (stand, south)
    cannot be made into a Walkabout. *)
Theorem walkabout_init_succeeds_iff `{lib : PyLib} `{consts : Constants}
    (fs : FileSystem) (keys_of : gmap string Asset -> list string)
    (directory : string) (position : option (Z * Z))
    (children : list Walkabout) :
  key_order keys_of ->
  exact_on_c_ints ->
  (forall x y, position = Some (x, y) -> c_int x /\ c_int y) ->
  (exists w, Walkabout_init fs keys_of directory position children = Ok w) <->
  (exists files sprite_files,
     Resource_init fs keys_of "walkabouts" directory = Ok files /\
     get_type files ".gif" = Some sprite_files /\
     (forall p, is_Some (sprite_files !! p) ->
        exists ad, parse_sprite_path p = Ok ad) /\
     (exists p, is_Some (sprite_files !! p) /\
                parse_sprite_path p = Ok (Action_stand, Direction_south))).
Proof.
  intros Hkeys Hexact Hposition. split.
  - intros [w Hw].
    destruct (Walkabout_init_Ok fs keys_of directory position children w Hw)
      as (topleft_float & files & _ & Hinit & Hof).
    destruct (Walkabout_of_resource_Ok keys_of files directory position
                topleft_float children w Hof)
      as (sprite_files & animations & actions & directions & animation & size
          & rect & image & Htype & Hload & Hsize & _ & Himage & _).
    exists files, sprite_files. do 2 (split; [done|]).
    destruct (Hkeys sprite_files) as [_ Hin]. split.
    + intros p Hp%Hin.
      destruct (load_sprites_lists _ _ _ _ _ _ _ Hload) as (parsed & Hall & _).
      apply list_elem_of_lookup in Hp as [i Hi].
      destruct (Forall2_lookup_l _ _ _ _ _ Hall Hi) as (ad & _ & Had).
      by exists ad.
    + destruct (load_sprites_grid_none sprite_files (keys_of sprite_files)
                  Action_stand Direction_south _ Hload) as (p & Hp & Hparse).
      * cbn [fst]. by rewrite Himage.
      * exists p. split; [by apply Hin|done].
  - intros (files & sprite_files & Hinit & Htype & Hparse & p & Hp & Hstand).
    assert (c_int (default (0, 0) position).1 /\
            c_int (default (0, 0) position).2) as [Hx Hy].
    { destruct position as [[x y]|]; [by apply Hposition|].
      unfold c_int. cbn [default fst snd]. by vm_compute. }
    unfold Walkabout_init, topleft_float_of.
    destruct Hexact as (Hrect & Hfloat & Hsizes).
    destruct (Hfloat _ Hx) as [fx ->]. destruct (Hfloat _ Hy) as [fy ->].
    cbn [rbind].
    rewrite Hinit. cbn [rbind]. unfold Walkabout_of_resource. rewrite Htype.
    destruct (Hkeys sprite_files) as [_ Hin].
    destruct (load_sprites_succeeds sprite_files (keys_of sprite_files))
      with (animations := @nil (Action * list (Direction * Asset)))
           (actions := @nil Action) (directions := @nil Direction)
           (animation := @None Asset)
      as [[[[animations actions] directions] animation] Hload].
    { intros q Hq. by apply Hin. }
    { intros q Hq. by apply Hparse, Hin. }
    rewrite Hload. cbn [rbind].
    pose proof (load_sprites_last _ _ _ _ _ _ _ Hload) as Hlast.
    cbn [snd] in Hlast.
    pose proof (get_type_lookup files ".gif") as Hfilter.
    rewrite Htype in Hfilter. destruct Hfilter as [_ Hfilter].
    destruct (last (keys_of sprite_files)) as [last_path|] eqn:Hlastkey.
    2:{ apply last_None in Hlastkey. apply Hin in Hp.
        rewrite Hlastkey in Hp. by apply elem_of_nil in Hp. }
    assert (last_path ∈ keys_of sprite_files) as Hlastin.
    { rewrite last_lookup in Hlastkey. by apply list_elem_of_lookup_2 in Hlastkey. }
    apply Hin in Hlastin as [v Hv]. rewrite Hv in Hlast. subst animation.
    apply Hfilter in Hv as [Hv Hext].
    destruct (resource_gif_entries_from_file fs keys_of "walkabouts" directory
                files Hkeys Hinit last_path v Hv Hext)
      as (data & config & sprite & Hfrom & ->).
    cbn [asset_largest_frame_size rbind].
    destruct (from_file_size data config sprite
                (conj Hrect (conj Hfloat Hsizes)) Hfrom) as [Hwidth Hheight].
    destruct (default (0, 0) position) as [x y].
    destruct (largest_frame_size sprite) as [sw sh].
    rewrite (Hrect x y sw sh Hx Hy Hwidth Hheight).
    destruct (load_sprites_grid_some sprite_files (keys_of sprite_files)
                Action_stand Direction_south _ _ _ _ _ Hload)
      as (q & image & _ & _ & _ & Himage).
    { exists p. split; [by apply Hin|done]. }
    cbn [fst] in Himage. unfold grid_get in Himage.
    destruct (dict_get animations Action_stand) as [by_direction|]; [|done].
    rewrite Himage. by eexists.
Qed.

(** The hat loads into a Walkabout at (7, 9). *)
Lemma walkabout_init_succeeds_iff_witness :
  (exists w,
     Walkabout_init (lib := sample_lib) (consts := spec_constants)
       hat_zip sorted_keys "hat" (Some (7, 9)) [] = Ok w) <->
  (exists files sprite_files,
     Resource_init (lib := sample_lib) hat_zip sorted_keys "walkabouts" "hat"
       = Ok files /\
     get_type files ".gif" = Some sprite_files /\
     (forall p, is_Some (sprite_files !! p) ->
        exists ad, parse_sprite_path (consts := spec_constants) p = Ok ad) /\
     (exists p, is_Some (sprite_files !! p) /\
                parse_sprite_path (consts := spec_constants) p
                  = Ok (stand, south))).
Proof.
  apply (walkabout_init_succeeds_iff (lib := sample_lib)
           (consts := spec_constants) hat_zip sorted_keys "hat"
           (Some (7, 9)) []).
  - apply sorted_keys_order.
  - apply sample_exact_on_c_ints.
  - intros x y [= <- <-]. unfold c_int. split; by vm_compute.
Defined.

(** ** Run-time setup *)

Lemma for_each_Ok {A : Type} (f : A -> result unit) (l : list A) :
  for_each f l = Ok tt <-> Forall (fun x => f x = Ok tt) l.
Proof.
  induction l as [|x l IH]; simpl.
  - split; [by constructor|done].
  - destruct (f x) as [[]|e] eqn:Hx; cbn [rbind].
    + rewrite IH. split; [by constructor|]. by intros [_ ?]%Forall_cons.
    + split; [done|]. intros [Hbad _]%Forall_cons. by rewrite Hx in Hbad.
Qed.

Lemma for_each_one_error {A : Type} (f : A -> result unit) (l : list A) (e : exn) :
  (forall x, x ∈ l -> f x = Ok tt \/ f x = Raise e) ->
  for_each f l = Ok tt \/ for_each f l = Raise e.
Proof.
  induction l as [|x l IH]; intros Hall; simpl; [by left|].
  destruct (Hall x) as [->| ->]; [by left| |by right]. cbn [rbind].
  apply IH. intros y Hy. apply Hall. by right.
Qed.

Section runtime_setup_properties.
Context `{lib : PyLib} `{consts : Constants}.
Variable Action_walk : Action.
Variables Direction_north Direction_east Direction_west : Direction.

Lemma load_sprites_grid_value (sprite_files : gmap string Asset)
    (sprite_paths : list string) (action : Action) (direction : Direction) :
  forall out v,
    load_sprites sprite_files sprite_paths [] [] [] None = Ok out ->
    grid_get out.1.1.1 action direction = Some v ->
    exists q, sprite_files !! q = Some v.
Proof.
  intros out v Hload Hv.
  destruct (load_sprites_grid_none sprite_files sprite_paths action direction
              out Hload) as (p & Hp & Hparse); [by rewrite Hv|].
  destruct (load_sprites_grid_some sprite_files sprite_paths action direction
              _ _ _ _ out Hload) as (q & v' & _ & _ & Hq & Hv');
    [by exists p|].
  rewrite Hv in Hv'. injection Hv' as <-. by exists q.
Qed.

Lemma convert_cell_cases (animations : list (Action * list (Direction * Asset)))
    (cell : Action * Direction) :
  (forall v, grid_get animations cell.1 cell.2 = Some v ->
             exists sprite, v = Sprite sprite) ->
  (is_Some (grid_get animations cell.1 cell.2) /\
   convert_cell animations cell = Ok tt) \/
  (grid_get animations cell.1 cell.2 = None /\
   convert_cell animations cell = Raise KeyError).
Proof.
  unfold grid_get, convert_cell. intros Hsprite.
  destruct (dict_get animations cell.1) as [by_direction|]; [|by right].
  destruct (dict_get by_direction cell.2) as [v|]; [|by right].
  destruct (Hsprite v eq_refl) as [sprite ->]. left. split; [by eexists|done].
Qed.
End runtime_setup_properties.

(** X13.  [runtime_setup] of a constructed Walkabout looks at one pair,
    (stand, south), when the grid has a single action, and otherwise at
    all eight pairs of walk and stand with north, south, east and west.
    It succeeds exactly when every pair it looks at has an animation and
    the setup of every child succeeds; a single-action Walkabout always
    passes its own part, and a missing pair raises [KeyError]. *)
Theorem runtime_setup_needs_full_grid `{lib : PyLib} `{consts : Constants}
    (Action_walk : Action)
    (Direction_north Direction_east Direction_west : Direction)
    (fs : FileSystem) (keys_of : gmap string Asset -> list string)
    (directory : string) (position : option (Z * Z))
    (children : list Walkabout) (w : Walkabout) :
  key_order keys_of ->
  Walkabout_init fs keys_of directory position children = Ok w ->
  let setup :=
    runtime_setup Action_walk Direction_north Direction_east Direction_west in
  let complete :=
    length (animations_of w) = 1%nat \/
    forall action direction,
      action ∈ [Action_walk; Action_stand] ->
      direction ∈ [Direction_north; Direction_south;
                   Direction_east; Direction_west] ->
      is_Some (grid_get (animations_of w) action direction) in
  (setup w = Ok tt <->
   complete /\ Forall (fun child => setup child = Ok tt) children) /\
  (~ complete -> setup w = Raise KeyError).
Proof.
  intros Hkeys Hinit setup complete.
  destruct (Walkabout_init_Ok fs keys_of directory position children w Hinit)
    as (topleft_float & files & _ & Hres & Hof).
  destruct (Walkabout_of_resource_Ok keys_of files directory position
              topleft_float children w Hof)
    as (sprite_files & animations & actions & directions & animation & size
        & rect & image & Htype & Hload & Hsize & _ & Himage & ->).
  subst complete. cbn [animations_of].
  pose proof (get_type_lookup files ".gif") as Hfilter.
  rewrite Htype in Hfilter. destruct Hfilter as [_ Hfilter].
  assert (forall action direction v,
            grid_get animations action direction = Some v ->
            exists sprite, v = Sprite sprite) as Hsprites.
  { intros action direction v Hv.
    destruct (load_sprites_grid_value sprite_files (keys_of sprite_files)
                action direction _ v Hload Hv) as [q Hq].
    apply Hfilter in Hq as [Hq Hext].
    by apply (resource_gif_entries_are_sprites fs keys_of "walkabouts"
                directory files Hkeys Hres q v). }
  set (cells := setup_cells Action_walk Direction_north Direction_east
                  Direction_west animations).
  assert (Forall (fun cell => convert_cell animations cell = Ok tt) cells <->
          (length animations = 1%nat \/
           forall action direction,
             action ∈ [Action_walk; Action_stand] ->
             direction ∈ [Direction_north; Direction_south;
                          Direction_east; Direction_west] ->
             is_Some (grid_get animations action direction))) as Hcells.
  { subst cells. unfold setup_cells.
    destruct (Nat.eqb_spec (length animations) 1) as [Hone|Hmany].
    - split; [by left|]. intros _. simpl. repeat constructor.
      destruct (convert_cell_cases animations (Action_stand, Direction_south))
        as [[_ Hok]|[Hnone _]]; [by intros v; apply Hsprites|done|].
      simpl in Hnone. by rewrite Himage in Hnone.
    - split.
      + intros Hall. right. intros action direction Ha Hd.
        assert ((action, direction) ∈
                  (a ← [Action_walk; Action_stand];
                   d ← [Direction_north; Direction_south;
                        Direction_east; Direction_west]; [(a, d)])) as Hin.
        { apply list_elem_of_bind. exists action. split; [|done].
          apply list_elem_of_bind. exists direction. split; [by left|done]. }
        rewrite Forall_forall in Hall. specialize (Hall _ Hin).
        destruct (convert_cell_cases animations (action, direction))
          as [[Hsome _]|[_ Hbad]]; [by intros v; apply Hsprites|done|].
        by rewrite Hbad in Hall.
      + intros [Hone|Hall]; [done|]. apply Forall_forall.
        intros [action direction] Hin.
        apply list_elem_of_bind in Hin as (a & Hin & Ha).
        apply list_elem_of_bind in Hin as (d & Hin & Hd).
        apply list_elem_of_singleton in Hin. injection Hin as -> ->.
        destruct (convert_cell_cases animations (a, d))
          as [[_ Hok]|[Hnone _]]; [by intros v; apply Hsprites|done|].
        destruct (Hall a d Ha Hd) as [v Hv]. simpl in Hnone.
        by rewrite Hv in Hnone. }
  assert (setup (mkWalkabout animations actions directions size
                   rect topleft_float Action_stand Direction_south
                   children image files)
          = (let* _ := for_each (convert_cell animations) cells in
             for_each setup children)) as Hsetup by reflexivity.
  rewrite Hsetup. split.
  - rewrite <- Hcells, <- !for_each_Ok.
    destruct (for_each (convert_cell animations) cells) as [[]|e]; cbn [rbind].
    + tauto.
    + split; [done|]. by intros [? _].
  - intros Hincomplete.
    assert (for_each (convert_cell animations) cells = Ok tt \/
            for_each (convert_cell animations) cells = Raise KeyError)
      as [Hok|Herr].
    { apply for_each_one_error. intros cell _.
      destruct (convert_cell_cases animations cell) as [[_ ->]|[_ ->]];
        [by intros v; apply Hsprites|by left|by right]. }
    + exfalso. apply Hincomplete, Hcells. by apply for_each_Ok.
    + by rewrite Herr.
Qed.

Lemma runtime_setup_needs_full_grid_witness :
  let setup :=
    runtime_setup (lib := sample_lib) (consts := spec_constants)
      walk north east west in
  let complete :=
    length (animations_of giant_walkabout) = 1%nat \/
    forall action direction,
      action ∈ [walk; stand] ->
      direction ∈ [north; south; east; west] ->
      is_Some (grid_get (animations_of giant_walkabout) action direction) in
  (setup giant_walkabout = Ok tt <->
   complete /\ Forall (fun child => setup child = Ok tt) []) /\
  (~ complete -> setup giant_walkabout = Raise KeyError).
Proof.
  apply (runtime_setup_needs_full_grid (lib := sample_lib)
           (consts := spec_constants) walk north east west
           giant_zip archive_keys "giant" None [] giant_walkabout).
  - apply archive_keys_order.
  - vm_refl.
Defined.

(** ** The largest frame *)

Lemma largest_fold_stays (fs : list AnimatedSpriteFrame) (acc : Z * Z) :
  (forall g, g ∈ fs -> frame_area g <= size_area acc) ->
  foldl (fun (largest : Z * Z) (frame : AnimatedSpriteFrame) =>
           let '(largest_x, largest_y) := largest in
           let largest_area := largest_x * largest_y in
           let frame_size := get_size (surface frame) in
           let '(frame_x, frame_y) := frame_size in
           let frame_area := frame_x * frame_y in
           if frame_area >? largest_area then frame_size else largest)
        acc fs = acc.
Proof.
  induction fs as [|g fs IH]; intros Hall; [done|].
  cbn [foldl]. destruct acc as [lx ly].
  assert (frame_area g <= lx * ly) as Hg by (apply (Hall g); by left).
  unfold frame_area in Hg. unfold get_size.
  destruct (Z.gtb_spec (surf_width (surface g) * surf_height (surface g)) (lx * ly));
    [lia|].
  apply IH. intros g' Hg'. apply Hall. by right.
Qed.

Lemma largest_fold_first (fs : list AnimatedSpriteFrame) :
  forall (acc : Z * Z) (i : nat) (f : AnimatedSpriteFrame),
    fs !! i = Some f ->
    size_area acc < frame_area f ->
    (forall g, g ∈ fs -> frame_area g <= frame_area f) ->
    (forall (j : nat) g, (j < i)%nat -> fs !! j = Some g ->
                         frame_area g < frame_area f) ->
    foldl (fun (largest : Z * Z) (frame : AnimatedSpriteFrame) =>
             let '(largest_x, largest_y) := largest in
             let largest_area := largest_x * largest_y in
             let frame_size := get_size (surface frame) in
             let '(frame_x, frame_y) := frame_size in
             let frame_area := frame_x * frame_y in
             if frame_area >? largest_area then frame_size else largest)
          acc fs = get_size (surface f).
Proof.
  induction fs as [|g fs IH]; intros acc i f Hf Hacc Hmax Hbefore; [done|].
  cbn [foldl]. destruct i as [|i].
  - injection Hf as ->. destruct acc as [lx ly].
    unfold size_area, frame_area in Hacc. cbn [fst snd] in Hacc.
    assert ((let '(frame_x, frame_y) := get_size (surface f) in
             if frame_x * frame_y >? lx * ly then get_size (surface f)
             else (lx, ly)) = get_size (surface f)) as ->.
    { unfold get_size.
      by destruct (Z.gtb_spec (surf_width (surface f) * surf_height (surface f))
                     (lx * ly)); [|lia]. }
    apply largest_fold_stays. intros g' Hg'.
    unfold size_area, get_size. cbn [fst snd].
    apply (Hmax g'). by right.
  - apply (IH _ i f Hf).
    + assert (frame_area g < frame_area f) as Hg
        by (apply (Hbefore 0%nat g); [lia|done]).
      destruct acc as [lx ly]. unfold get_size.
      destruct (Z.gtb_spec (surf_width (surface g) * surf_height (surface g))
                  (lx * ly)); [|done].
      unfold size_area, frame_area in *. cbn [fst snd]. lia.
    + intros g' Hg'. apply Hmax. by right.
    + intros j g' Hj Hg'. apply (Hbefore (S j) g'); [lia|done].
Qed.

(** X14.  [largest_frame_size] returns (0, 0) when the sprite has no
    frame of positive area, an empty frame list included.  Otherwise it
    returns the size of the first frame, in list order, whose area no
    other frame exceeds: among frames of equal largest area the earliest
    wins. *)
Theorem largest_frame_size_first_largest (s : AnimatedSprite) :
  ((forall g, g ∈ frames s -> frame_area g <= 0) ->
   largest_frame_size s = (0, 0)) /\
  (forall (i : nat) f,
     frames s !! i = Some f -> 0 < frame_area f ->
     (forall g, g ∈ frames s -> frame_area g <= frame_area f) ->
     (forall (j : nat) g, (j < i)%nat -> frames s !! j = Some g ->
                          frame_area g < frame_area f) ->
     largest_frame_size s = get_size (surface f)).
Proof.
  split.
  - intros Hall. by apply largest_fold_stays.
  - intros i f Hf Hpos Hmax Hbefore.
    by apply (largest_fold_first (frames s) (0, 0) i f).
Qed.

Lemma largest_frame_size_first_largest_witness :
  largest_frame_size boundary_sprite = get_size large_surface /\
  largest_frame_size
    (mkSprite [] 0 0 0 small_surface (get_rect small_surface)) = (0, 0).
Proof.
  split.
  - apply (proj2 (largest_frame_size_first_largest boundary_sprite) 1%nat
             (AnimatedSpriteFrame_init large_surface 100 150 None)).
    + reflexivity.
    + unfold frame_area; simpl; lia.
    + intros g Hg. apply elem_of_cons in Hg as [->|Hg];
        [unfold frame_area; simpl; lia|].
      apply elem_of_cons in Hg as [->|Hg]; [lia|by apply elem_of_nil in Hg].
    + intros j g Hj Hg. destruct j as [|j]; [|lia].
      injection Hg as <-. unfold frame_area; simpl; lia.
  - apply (proj1 (largest_frame_size_first_largest
                    (mkSprite [] 0 0 0 small_surface (get_rect small_surface)))).
    intros g Hg. by apply elem_of_nil in Hg.
Defined.

(** ** Anchor arithmetic *)


(** ** Palette cycling in general *)

Lemma elem_of_coordinates (width height : Z) (x y : Z) :
  (x, y) ∈ coordinates width height <-> 0 <= x < width /\ 0 <= y < height.
Proof.
  unfold coordinates. rewrite list_elem_of_bind. split.
  - intros (x' & Hin & Hx). apply list_elem_of_bind in Hin as (y' & Hin & Hy).
    apply list_elem_of_singleton in Hin. injection Hin as -> ->.
    apply elem_of_seqZ in Hx, Hy. lia.
  - intros [Hx Hy]. exists x. split; [|apply elem_of_seqZ; lia].
    apply list_elem_of_bind. exists y. split; [by left|apply elem_of_seqZ; lia].
Qed.

Lemma NoDup_coordinates (width height : Z) : NoDup (coordinates width height).
Proof.
  unfold coordinates. apply NoDup_bind.
  - intros x1 x2 [x y] _ _ Hin1 Hin2.
    apply list_elem_of_bind in Hin1 as (y1 & Hin1 & _).
    apply list_elem_of_bind in Hin2 as (y2 & Hin2 & _).
    apply list_elem_of_singleton in Hin1, Hin2. congruence.
  - intros x _. apply NoDup_bind.
    + intros y1 y2 [x' y'] _ _ Hin1 Hin2.
      apply list_elem_of_singleton in Hin1, Hin2. congruence.
    + intros y _. apply NoDup_singleton.
    + apply NoDup_seqZ.
  - apply NoDup_seqZ.
Qed.

Lemma offset_of_bound (width height : Z) (c : Z * Z) :
  c ∈ coordinates width height ->
  (offset_of width c < Z.to_nat (width * height))%nat.
Proof.
  destruct c as [x y]. intros [Hx Hy]%elem_of_coordinates.
  unfold offset_of. cbn [fst snd]. nia.
Qed.

Lemma offset_of_inj (width height : Z) (c c' : Z * Z) :
  c ∈ coordinates width height -> c' ∈ coordinates width height ->
  offset_of width c = offset_of width c' -> c = c'.
Proof.
  destruct c as [x y], c' as [x' y'].
  intros [Hx Hy]%elem_of_coordinates [Hx' Hy']%elem_of_coordinates.
  unfold offset_of. cbn [fst snd]. intros Heq.
  assert (y * width + x = y' * width + x') as Hz by nia.
  assert (y = y') by nia. subst. f_equal. lia.
Qed.

Lemma offset_of_cover (width height : Z) (i : nat) :
  0 < width -> (i < Z.to_nat (width * height))%nat ->
  exists c, c ∈ coordinates width height /\ offset_of width c = i.
Proof.
  intros Hw Hi.
  exists (Z.of_nat i mod width, Z.of_nat i / width). split.
  - apply elem_of_coordinates.
    pose proof (Z.mod_pos_bound (Z.of_nat i) width Hw).
    pose proof (Z.div_pos (Z.of_nat i) width ltac:(lia) Hw).
    split; [lia|]. split; [lia|].
    apply Z.div_lt_upper_bound; [lia|]. nia.
  - unfold offset_of. cbn [fst snd].
    pose proof (Z.div_mod (Z.of_nat i) width ltac:(lia)). nia.
Qed.

Lemma pixel_offset_coordinates (s : Surface) (c : Z * Z) :
  c ∈ coordinates (surf_width s) (surf_height s) ->
  pixel_offset s c = Ok (offset_of (surf_width s) c).
Proof.
  destruct c as [x y]. intros [Hx Hy]%elem_of_coordinates.
  unfold pixel_offset, offset_of. cbn [fst snd].
  destruct (Z.leb_spec 0 x); [|lia].
  destruct (Z.ltb_spec x (surf_width s)); [|lia].
  destruct (Z.leb_spec 0 y); [|lia].
  destruct (Z.ltb_spec y (surf_height s)); [|lia]. done.
Qed.

(** ** Rotations *)

Lemma rotate1_snoc {A : Type} (l : list A) (x : A) : rotate1 (l ++ [x]) = x :: l.
Proof. unfold rotate1. by rewrite last_snoc, removelast_last. Qed.

Lemma rotate1_Permutation {A : Type} (l : list A) : rotate1 l ≡ₚ l.
Proof.
  destruct l as [|y l] using rev_ind; [done|].
  rewrite rotate1_snoc. by rewrite Permutation_app_comm.
Qed.

Lemma rotate_n_Permutation {A : Type} (k : nat) (l : list A) : rotate_n k l ≡ₚ l.
Proof.
  induction k as [|k IH]; [done|].
  unfold rotate_n in *. simpl. by rewrite rotate1_Permutation.
Qed.

Lemma rotate_n_drop_take {A : Type} (l : list A) (k : nat) :
  (k <= length l)%nat ->
  rotate_n k l = drop (length l - k) l ++ take (length l - k) l.
Proof.
  induction k as [|k IH]; intros Hk.
  - rewrite Nat.sub_0_r, drop_all, take_ge by lia. done.
  - unfold rotate_n in *. simpl. rewrite IH by lia.
    destruct (lookup_lt_is_Some_2 l (length l - S k)) as [x Hx]; [lia|].
    replace (length l - k)%nat with (S (length l - S k)) by lia.
    rewrite (take_S_r _ _ x Hx), app_assoc, rotate1_snoc.
    by rewrite (drop_S _ _ _ Hx).
Qed.

Lemma rotate_n_full {A : Type} (l : list A) : rotate_n (length l) l = l.
Proof.
  rewrite rotate_n_drop_take by lia.
  by rewrite Nat.sub_diag, drop_0, take_0, app_nil_r.
Qed.

(** ** Translation tables *)

Lemma foldl_insert_absent (l : list (Color * Color)) :
  forall (d : gmap Color Color) (k : Color),
    k ∉ l.*1 ->
    foldl (fun d kv => <[kv.1 := kv.2]> d) d l !! k = d !! k.
Proof.
  induction l as [|[k0 v0] l IH]; intros d k Hk; [done|].
  simpl in *. apply not_elem_of_cons in Hk as [Hne Hk].
  rewrite IH by done. by apply lookup_insert_ne.
Qed.

Lemma foldl_insert_present (l : list (Color * Color)) :
  forall (d : gmap Color Color) (k v : Color),
    NoDup l.*1 -> (k, v) ∈ l ->
    foldl (fun d kv => <[kv.1 := kv.2]> d) d l !! k = Some v.
Proof.
  induction l as [|[k0 v0] l IH]; intros d k v Hnodup Hin.
  - by apply elem_of_nil in Hin.
  - simpl in *. apply NoDup_cons in Hnodup as [Hk0 Hnodup].
    apply elem_of_cons in Hin as [[= -> ->]|Hin].
    + rewrite foldl_insert_absent by done. apply lookup_insert_eq.
    + by apply IH.
Qed.

Lemma dict_zip_lookup (keys values : list Color) (j : nat) (k v : Color) :
  NoDup keys -> length keys = length values ->
  keys !! j = Some k -> values !! j = Some v ->
  dict_zip keys values !! k = Some v.
Proof.
  intros Hnodup Hlen Hk Hv. unfold dict_zip.
  apply foldl_insert_present.
  - rewrite fst_zip by lia. done.
  - apply list_elem_of_lookup. exists j.
    rewrite lookup_zip_with, Hk. simpl. by rewrite Hv.
Qed.

(** ** Reading and writing pixels *)

Lemma get_at_coordinates (s : Surface) (c : Z * Z) :
  c ∈ coordinates (surf_width s) (surf_height s) ->
  get_at s c =
    match surf_pixels s !! offset_of (surf_width s) c with
    | Some color => Ok color
    | None => Raise IndexError
    end.
Proof. intros Hc. unfold get_at. by rewrite pixel_offset_coordinates. Qed.

Lemma set_at_coordinates (s : Surface) (c : Z * Z) (color : Color) :
  c ∈ coordinates (surf_width s) (surf_height s) ->
  (offset_of (surf_width s) c < length (surf_pixels s))%nat ->
  set_at s c color =
    Ok (mkSurface (surf_width s) (surf_height s)
          (<[offset_of (surf_width s) c := color]> (surf_pixels s))).
Proof.
  intros Hc Hlt. unfold set_at. rewrite pixel_offset_coordinates by done.
  cbn [rbind]. by rewrite bool_decide_eq_true_2.
Qed.

(** The inner loop replaces the pixel of every coordinate it visits by
    its translation and leaves the others alone. *)
Lemma translate_pixels_spec (d : gmap Color Color) (width height : Z)
    (coords : list (Z * Z)) :
  forall pixels : list Color,
    (forall c, c ∈ coords -> c ∈ coordinates width height) ->
    NoDup (offset_of width <$> coords) ->
    length pixels = Z.to_nat (width * height) ->
    (forall c color, c ∈ coords ->
       pixels !! offset_of width c = Some color -> is_Some (d !! color)) ->
    exists pixels',
      translate_pixels d coords (mkSurface width height pixels)
        = Ok (mkSurface width height pixels') /\
      length pixels' = length pixels /\
      forall i,
        pixels' !! i =
          if decide (i ∈ offset_of width <$> coords)
          then pixels !! i ≫= (fun color => d !! color)
          else pixels !! i.
Proof.
  induction coords as [|c coords IH]; intros pixels Hin Hnodup Hlen Hdom.
  - exists pixels. split; [done|]. split; [done|]. intros i.
    rewrite decide_False; [done|]. apply not_elem_of_nil.
  - cbn [fmap list_fmap] in Hnodup. apply NoDup_cons in Hnodup as [Hc Hnodup].
    assert (c ∈ coordinates width height) as Hcin by (apply Hin; by left).
    pose proof (offset_of_bound width height c Hcin) as Hbound.
    destruct (lookup_lt_is_Some_2 pixels (offset_of width c)) as [color Hcolor];
      [lia|].
    destruct (Hdom c color) as [new_color Hnew]; [by left|done|].
    cbn [translate_pixels].
    rewrite (get_at_coordinates (mkSurface width height pixels)) by done.
    cbn [surf_pixels surf_width]. rewrite Hcolor. cbn [rbind]. rewrite Hnew.
    rewrite (set_at_coordinates (mkSurface width height pixels))
      by (done || cbn [surf_pixels surf_width]; lia).
    cbn [rbind surf_pixels surf_width surf_height].
    destruct (IH (<[offset_of width c := new_color]> pixels))
      as (pixels' & Htrans & Hlen' & Hlook).
    + intros c' Hc'. apply Hin. by right.
    + done.
    + by rewrite length_insert.
    + intros c' color' Hc' Hcolor'.
      rewrite list_lookup_insert_ne in Hcolor'.
      * apply (Hdom c' color'); [by right|done].
      * intros Heq. apply Hc. rewrite Heq. by apply list_elem_of_fmap_2.
    + exists pixels'. split; [done|].
      split; [by rewrite Hlen', length_insert|].
      intros i. rewrite Hlook. cbn [fmap list_fmap].
      destruct (decide (i = offset_of width c)) as [->|Hne].
      * rewrite decide_False by done. rewrite decide_True by (by left).
        rewrite list_lookup_insert_eq by lia. by rewrite Hcolor.
      * rewrite list_lookup_insert_ne by done.
        destruct (decide (i ∈ offset_of width <$> coords)) as [Hi|Hi].
        -- by rewrite decide_True by (by right).
        -- rewrite decide_False; [done|].
           intros [?|?]%elem_of_cons; done.
Qed.

Lemma recolour_lookup (colors : list Color) (indices : list nat) (i j : nat) :
  indices !! i = Some j -> (j < length colors)%nat ->
  exists color, colors !! j = Some color /\
                recolour colors indices !! i = Some color.
Proof.
  intros Hi Hj. destruct (lookup_lt_is_Some_2 colors j Hj) as [color Hcolor].
  exists color. split; [done|].
  unfold recolour. rewrite list_lookup_fmap, Hi. simpl.
  by rewrite (list_lookup_total_correct _ _ _ Hcolor).
Qed.

(** One rotation step on pixels that are drawn from [old]: the same
    positions, drawn from [new]. *)
Lemma translate_pixels_recolour (old new : list Color) (indices : list nat)
    (width height : Z) :
  0 < width -> NoDup old -> length old = length new ->
  Forall (fun j => (j < length old)%nat) indices ->
  length indices = Z.to_nat (width * height) ->
  translate_pixels (dict_zip old new) (coordinates width height)
    (mkSurface width height (recolour old indices))
    = Ok (mkSurface width height (recolour new indices)).
Proof.
  intros Hw Hnodup Hlen Hindices Hsize.
  destruct (translate_pixels_spec (dict_zip old new) width height
              (coordinates width height) (recolour old indices))
    as (pixels' & -> & Hlen' & Hlook).
  - done.
  - apply NoDup_fmap_2_strong; [|apply NoDup_coordinates].
    intros c c' Hc Hc'. by apply (offset_of_inj width height).
  - unfold recolour. by rewrite length_fmap.
  - intros c color Hc Hcolor.
    unfold recolour in Hcolor. rewrite list_lookup_fmap in Hcolor.
    destruct (indices !! offset_of width c) as [j|] eqn:Hj; [|done].
    simpl in Hcolor. injection Hcolor as <-.
    assert (j < length old)%nat as Hjlt.
    { rewrite Forall_forall in Hindices. apply Hindices.
      by apply list_elem_of_lookup_2 in Hj. }
    destruct (lookup_lt_is_Some_2 old j Hjlt) as [k Hk].
    destruct (lookup_lt_is_Some_2 new j ltac:(lia)) as [v Hv].
    rewrite (list_lookup_total_correct _ _ _ Hk). exists v.
    by apply (dict_zip_lookup old new j).
  - do 2 f_equal. apply list_eq. intros i. rewrite Hlook.
    destruct (decide (i < Z.to_nat (width * height))%nat) as [Hi|Hi].
    + destruct (offset_of_cover width height i Hw Hi) as (c & Hc & <-).
      rewrite decide_True by (by apply list_elem_of_fmap_2).
      destruct (lookup_lt_is_Some_2 indices (offset_of width c)) as [j Hj];
        [lia|].
      assert (j < length old)%nat as Hjlt.
      { rewrite Forall_forall in Hindices. apply Hindices.
        by apply list_elem_of_lookup_2 in Hj. }
      destruct (recolour_lookup old indices _ j Hj Hjlt) as (k & Hk & ->).
      destruct (recolour_lookup new indices _ j Hj ltac:(lia)) as (v & Hv & ->).
      simpl. by apply (dict_zip_lookup old new j).
    + rewrite decide_False.
      * unfold recolour. rewrite !list_lookup_fmap.
        by rewrite (lookup_ge_None_2 indices) by lia.
      * intros (c & -> & Hc)%list_elem_of_fmap.
        pose proof (offset_of_bound width height c Hc). lia.
Qed.

(** ** The palette of a surface *)

Lemma discover_palette_spec (surf : Surface) (coords : list (Z * Z)) :
  forall (ordered : list Color) (seen : gset Color),
    (forall c, c ∈ coords -> exists color, get_at surf c = Ok color) ->
    NoDup ordered ->
    (forall color, color ∈ seen <-> color ∈ ordered) ->
    exists palette,
      discover_palette surf coords ordered seen = Ok palette /\
      NoDup palette /\
      forall color,
        color ∈ palette <->
        color ∈ ordered \/ exists c, c ∈ coords /\ get_at surf c = Ok color.
Proof.
  induction coords as [|c coords IH]; intros ordered seen Hread Hnodup Hseen.
  - exists ordered. split; [done|]. split; [done|]. intros color. split.
    + by left.
    + intros [?|(c & Hc & _)]; [done|]. by apply elem_of_nil in Hc.
  - destruct (Hread c) as [color Hcolor]; [by left|].
    assert (forall c', c' ∈ coords -> exists color', get_at surf c' = Ok color')
      as Hread' by (intros c' Hc'; apply Hread; by right).
    cbn [discover_palette]. rewrite Hcolor. cbn [rbind].
    destruct (decide (color ∈ seen)) as [Hin|Hnotin].
    + destruct (IH ordered seen Hread' Hnodup Hseen) as (palette & -> & Hnd & Hmem).
      exists palette. split; [done|]. split; [done|].
      intros color'. rewrite Hmem. split.
      * intros [?|(c' & Hc' & Hget)]; [by left|].
        right. exists c'. split; [by right|done].
      * intros [?|(c' & [->|Hc']%elem_of_cons & Hget)]; [by left| |].
        -- left. apply Hseen. congruence.
        -- right. by exists c'.
    + destruct (IH (ordered ++ [color]) ({[color]} ∪ seen) Hread')
        as (palette & -> & Hnd & Hmem).
      * apply NoDup_app. split; [done|]. split; [|apply NoDup_singleton].
        intros x Hx ->%list_elem_of_singleton. by apply Hnotin, Hseen.
      * intros x. rewrite elem_of_union, elem_of_singleton, elem_of_app,
          list_elem_of_singleton, Hseen. tauto.
      * exists palette. split; [done|]. split; [done|].
        intros color'. rewrite Hmem, elem_of_app, list_elem_of_singleton. split.
        -- intros [[?| ->]|(c' & Hc' & Hget)].
           ++ by left.
           ++ right. exists c. split; [by left|done].
           ++ right. exists c'. split; [by right|done].
        -- intros [?|(c' & [->|Hc']%elem_of_cons & Hget)].
           ++ left. by left.
           ++ left. right. congruence.
           ++ right. by exists c'.
Qed.

Lemma get_at_well_formed (surf : Surface) (c : Z * Z) :
  well_formed_surface surf ->
  c ∈ coordinates (surf_width surf) (surf_height surf) ->
  exists color, get_at surf c = Ok color /\ color ∈ surf_pixels surf.
Proof.
  intros (Hw & Hh & Hlen) Hc.
  pose proof (offset_of_bound _ _ c Hc) as Hbound.
  destruct (lookup_lt_is_Some_2 (surf_pixels surf) (offset_of (surf_width surf) c))
    as [color Hcolor]; [lia|].
  exists color. rewrite get_at_coordinates by done. rewrite Hcolor.
  split; [done|]. by apply list_elem_of_lookup_2 in Hcolor.
Qed.

Lemma pixel_is_read (surf : Surface) (color : Color) :
  well_formed_surface surf -> color ∈ surf_pixels surf ->
  exists c, c ∈ coordinates (surf_width surf) (surf_height surf) /\
            get_at surf c = Ok color.
Proof.
  intros (Hw & Hh & Hlen) Hcolor.
  apply list_elem_of_lookup_1 in Hcolor as [i Hi].
  assert (i < Z.to_nat (surf_width surf * surf_height surf))%nat as Hlt.
  { rewrite <- Hlen. by apply lookup_lt_Some in Hi. }
  destruct (offset_of_cover _ _ i Hw Hlt) as (c & Hc & Hoff).
  exists c. split; [done|]. rewrite get_at_coordinates by done.
  by rewrite Hoff, Hi.
Qed.

Lemma recolour_exists (palette pixels : list Color) :
  (forall color, color ∈ pixels -> color ∈ palette) ->
  exists indices,
    Forall (fun j => (j < length palette)%nat) indices /\
    length indices = length pixels /\
    recolour palette indices = pixels.
Proof.
  induction pixels as [|color pixels IH]; intros Hsub.
  - by exists [].
  - destruct IH as (indices & Hlt & Hlen & Hrec).
    { intros x Hx. apply Hsub. by right. }
    destruct (list_elem_of_lookup_1 palette color) as [j Hj];
      [apply Hsub; by left|].
    exists (j :: indices). split; [|split].
    + constructor; [by apply lookup_lt_Some in Hj|done].
    + simpl. by rewrite Hlen.
    + unfold recolour in *. cbn [fmap list_fmap].
      by rewrite (list_lookup_total_correct _ _ _ Hj), Hrec.
Qed.

(** ** The frames of a palette cycle *)

Lemma cycle_frames_spec (palette : list Color) (indices : list nat)
    (width height : Z) :
  0 < width -> NoDup palette ->
  Forall (fun j => (j < length palette)%nat) indices ->
  length indices = Z.to_nat (width * height) ->
  forall (rotations k : nat) (acc : list (Surface * Z)),
    cycle_frames rotations (coordinates width height)
      (mkSurface width height (recolour (rotate_n k palette) indices))
      (rotate_n k palette) acc
    = Ok (acc ++
          ((fun i => (mkSurface width height
                        (recolour (rotate_n (k + i) palette) indices), 250))
             <$> seq 1 rotations)).
Proof.
  intros Hw Hnodup Hindices Hsize rotations.
  induction rotations as [|rotations IH]; intros k acc.
  - simpl. by rewrite app_nil_r.
  - cbn [cycle_frames].
    change (rotate1 (rotate_n k palette)) with (rotate_n (S k) palette).
    pose proof (rotate_n_Permutation k palette) as Hperm.
    pose proof (rotate_n_Permutation (S k) palette) as Hperm'.
    rewrite translate_pixels_recolour.
    + cbn [rbind]. rewrite IH. rewrite <- app_assoc. do 2 f_equal.
      cbn [seq fmap list_fmap app]. rewrite Nat.add_1_r. f_equal.
      rewrite <- (fmap_S_seq 1), <- list_fmap_compose.
      apply list_fmap_ext. intros i j _. simpl.
      by rewrite Nat.add_succ_r.
    + done.
    + by rewrite Hperm.
    + by rewrite (Permutation_length Hperm), (Permutation_length Hperm').
    + by rewrite (Permutation_length Hperm).
    + done.
Qed.

Lemma from_surface_duration_list_Ok (l : list (Surface * Z)) :
  l <> [] ->
  exists s,
    from_surface_duration_list l = Ok s /\
    frames s = frames_of_surface_durations 0 l /\
    total_duration s = total_duration_of (frames s).
Proof.
  intros Hne. destruct l as [|[surf dur] l]; [done|].
  eexists. split; [reflexivity|]. done.
Qed.

Lemma constant_durations {A : Type} (g : A -> Surface) (dur : Z) (l : list A) :
  map snd ((fun i => (g i, dur)) <$> l) = replicate (length l) dur /\
  map fst ((fun i => (g i, dur)) <$> l) = g <$> l.
Proof.
  induction l as [|x l [IH1 IH2]]; [done|].
  cbn [fmap list_fmap map length replicate snd fst].
  split; f_equal; [exact IH1|exact IH2].
Qed.

Lemma sum_replicate (n : nat) (dur : Z) :
  foldr Z.add 0 (replicate n dur) = dur * Z.of_nat n.
Proof. induction n as [|n IH]; simpl; [lia|]. rewrite IH. lia. Qed.

Lemma coordinates_empty (width height : Z) :
  width = 0 \/ height = 0 -> coordinates width height = [].
Proof.
  intros [-> | ->]; unfold coordinates; [done|].
  induction (seqZ 0 width) as [|x l IH]; [done|].
  cbn [mbind list_bind]. by rewrite IH.
Qed.

(** X16.  On a surface with positive width and height and one pixel per
    coordinate, [palette_cycle] succeeds.  The palette it finds has no
    repetition and holds exactly the colours of the surface; the sprite
    has one frame of 250 ms per palette colour, laid out from time 0,
    of total duration 250 ms times the number of colours.  Frame number
    [k] (from 1) has the size of the surface and shows, wherever the
    surface shows the palette colour number [j], colour number [j] of
    the palette rotated [k] times; the last frame is the original
    surface. *)
Theorem palette_cycle_rotates_palette (surf : Surface) :
  well_formed_surface surf ->
  exists (palette : list Color) (indices : list nat) (sprite : AnimatedSprite),
    NoDup palette /\
    (forall color, color ∈ palette <-> color ∈ surf_pixels surf) /\
    Forall (fun j => (j < length palette)%nat) indices /\
    surf_pixels surf = recolour palette indices /\
    palette_cycle surf = Ok sprite /\
    map surface (frames sprite) =
      (fun k => mkSurface (surf_width surf) (surf_height surf)
                  (recolour (rotate_n k palette) indices))
        <$> seq 1 (length palette) /\
    map duration (frames sprite) = replicate (length palette) 250 /\
    total_duration sprite = 250 * Z.of_nat (length palette) /\
    timeline 0 (frames sprite) /\
    exists f_last, last (frames sprite) = Some f_last /\ surface f_last = surf.
Proof.
  intros Hwf. pose proof Hwf as (Hw & Hh & Hlen).
  destruct (discover_palette_spec surf
              (coordinates (surf_width surf) (surf_height surf)) [] ∅)
    as (palette & Hdiscover & Hnodup & Hmem).
  { intros c Hc. destruct (get_at_well_formed surf c Hwf Hc) as (color & ? & _).
    by exists color. }
  { apply NoDup_nil_2. }
  { intros color. rewrite elem_of_nil. set_solver. }
  assert (forall color, color ∈ palette <-> color ∈ surf_pixels surf) as Hcolors.
  { intros color. rewrite Hmem. split.
    - intros [Hnil|(c & Hc & Hget)]; [by apply elem_of_nil in Hnil|].
      destruct (get_at_well_formed surf c Hwf Hc) as (color' & Hget' & Hin).
      congruence.
    - intros Hin. right. by apply pixel_is_read. }
  destruct (recolour_exists palette (surf_pixels surf))
    as (indices & Hindices & Hilen & Hrec); [intros color; apply Hcolors|].
  assert (palette <> []) as Hne.
  { destruct (surf_pixels surf) as [|color pixels] eqn:Hpixels.
    - simpl in Hlen. lia.
    - intros Hnil. specialize (Hcolors color). rewrite Hnil in Hcolors.
      eapply elem_of_nil, Hcolors. by left. }
  set (frame_list :=
         (fun k => (mkSurface (surf_width surf) (surf_height surf)
                      (recolour (rotate_n (0 + k) palette) indices), 250))
           <$> seq 1 (length palette)).
  assert (cycle_frames (length palette)
            (coordinates (surf_width surf) (surf_height surf)) surf palette []
          = Ok frame_list) as Hcycle.
  { assert (length indices = Z.to_nat (surf_width surf * surf_height surf))
      as Hsize by (by rewrite Hilen).
    transitivity
      (cycle_frames (length palette)
         (coordinates (surf_width surf) (surf_height surf))
         (mkSurface (surf_width surf) (surf_height surf)
            (recolour (rotate_n 0 palette) indices))
         (rotate_n 0 palette) []).
    - change (rotate_n 0 palette) with palette. rewrite Hrec.
      f_equal. by destruct surf.
    - exact (cycle_frames_spec palette indices (surf_width surf)
               (surf_height surf) Hw Hnodup Hindices Hsize
               (length palette) 0%nat []). }
  assert (frame_list <> []) as Hframes_ne.
  { unfold frame_list. destruct palette; [done|]. done. }
  destruct (from_surface_duration_list_Ok frame_list Hframes_ne)
    as (sprite & Hsprite & Hframes & Htotal).
  destruct (frames_of_surface_durations_durations frame_list 0) as [Hdur Hsurf].
  destruct (constant_durations
              (fun k => mkSurface (surf_width surf) (surf_height surf)
                          (recolour (rotate_n (0 + k) palette) indices))
              250 (seq 1 (length palette))) as [Hsnd Hfst].
  fold frame_list in Hsnd, Hfst. rewrite length_seq in Hsnd.
  exists palette, indices, sprite.
  split; [done|]. split; [done|]. split; [done|]. split; [done|].
  split.
  { unfold palette_cycle, get_size. rewrite Hdiscover. cbn [rbind].
    rewrite Hcycle. cbn [rbind]. exact Hsprite. }
  assert (map surface (frames sprite) =
            (fun k => mkSurface (surf_width surf) (surf_height surf)
                        (recolour (rotate_n k palette) indices))
              <$> seq 1 (length palette)) as Hsurfaces.
  { rewrite Hframes, Hsurf, Hfst. done. }
  split; [exact Hsurfaces|].
  split; [by rewrite Hframes, Hdur, Hsnd|].
  split.
  { rewrite Htotal. unfold total_duration_of.
    rewrite Hframes, Hdur, Hsnd. apply sum_replicate. }
  split.
  { rewrite Hframes. apply frames_of_surface_durations_timeline.
    unfold frame_list. apply Forall_fmap, Forall_forall. intros k _. simpl. lia. }
  assert (last (map surface (frames sprite)) = Some surf) as Hlast.
  { rewrite Hsurfaces. destruct (length palette) as [|n] eqn:Hn.
    - by destruct palette.
    - rewrite seq_S, fmap_app, fmap_cons, fmap_nil, last_snoc.
      change (1 + n)%nat with (S n). rewrite <- Hn, rotate_n_full, Hrec.
      by destruct surf. }
  change (map surface (frames sprite)) with (surface <$> frames sprite) in Hlast.
  rewrite fmap_last in Hlast.
  destruct (last (frames sprite)) as [f_last|]; [|done].
  exists f_last. split; [done|]. simpl in Hlast. congruence.
Qed.

Lemma palette_cycle_rotates_palette_witness :
  exists (palette : list Color) (indices : list nat) (sprite : AnimatedSprite),
    NoDup palette /\
    (forall color, color ∈ palette <-> color ∈ surf_pixels striped_surface) /\
    Forall (fun j => (j < length palette)%nat) indices /\
    surf_pixels striped_surface = recolour palette indices /\
    palette_cycle striped_surface = Ok sprite /\
    map surface (frames sprite) =
      (fun k => mkSurface (surf_width striped_surface)
                  (surf_height striped_surface)
                  (recolour (rotate_n k palette) indices))
        <$> seq 1 (length palette) /\
    map duration (frames sprite) = replicate (length palette) 250 /\
    total_duration sprite = 250 * Z.of_nat (length palette) /\
    timeline 0 (frames sprite) /\
    exists f_last, last (frames sprite) = Some f_last /\
                   surface f_last = striped_surface.
Proof.
  apply (palette_cycle_rotates_palette striped_surface).
  unfold well_formed_surface. simpl. repeat split; lia.
Defined.

(** X17.  A surface without pixels (width or height 0) has an empty
    palette, so no frame is produced and [palette_cycle] fails with the
    [IndexError] of [AnimatedSprite.__init__] reading [frames[0]]. *)
Theorem palette_cycle_empty_surface (surf : Surface) :
  surf_width surf = 0 \/ surf_height surf = 0 ->
  palette_cycle surf = Raise IndexError.
Proof.
  intros Hempty. unfold palette_cycle, get_size.
  by rewrite (coordinates_empty _ _ Hempty).
Qed.

Lemma palette_cycle_empty_surface_witness :
  palette_cycle empty_surface = Raise IndexError.
Proof.
  apply (palette_cycle_empty_surface empty_surface). left. reflexivity.
Defined.
